(** * UPSC test generator: attempt engine, scoring, backup restore, streak
      and the account-scoped backend, as a shallow embedding.

    Sources embedded:
    - [src/index.tsx]        the browser application (modules [Engine],
                             [Backup], [Streak], [Report], [LocalAuth],
                             [TestStore], [Review], [Dashboard]);
    - [src/unnamed/part_000] an older build of the same application; the
                             functions that differ from [src/index.tsx] are
                             in module [Legacy];
    - [src/unnamed/part_001] the Express backend (module [Server]).

    Conventions.
    - A JavaScript number that the code only ever uses as an integer (array
      index, option index, epoch milliseconds, seconds left) is a [nat] or a
      [Z].  A number that carries a fraction (marks, seconds spent, a
      percentage) is an exact rational [Q]: the rounding of binary64 is not
      modelled.  The result of a division is a [JSNum.number], which is a
      rational, [NaN] or an infinity.
    - [Date.now()] is an argument [now : Z] (epoch milliseconds) of every
      handler that reads the clock.
    - An array write [a[i] = v] is stdpp's [<[i:=v]> a].  It leaves the list
      unchanged when [i] is out of range, where JavaScript would extend the
      array; [EngineSpec.page_inv] holds in every state the page reaches and
      puts every such write of the engine in range.  The one write that
      does extend an array, in [startTest], is [Engine.writeFirst].
    - The time zone of the browser is a parameter of the functions that
      turn instants into local dates ([Streak.TimeZone]).
    - DOM state that the code reads back is part of [State]: the checked
      radio button, the live interval handles, the toasts, the shown view.
    - A string is a [string] of 8-bit characters, and [charCodeAt] is the
      code of the character; [toLowerCase] is a parameter of the functions
      that call it. *)

From Stdlib Require Import ZArith QArith Qminmax Lqa Lia Bool Ascii String.
From Stdlib Require Import Floats.
From stdpp Require Import base option list sorting strings pretty.

(* ===================================================================== *)
(** * Numbers *)
(* ===================================================================== *)

Module JSNum.

(** The result of an arithmetic expression that contains a division. *)
Inductive number : Type :=
| Fin (q : Q)
| NaN
| Infinity (negative : bool).

Definition Qlt_bool (x y : Q) : bool := negb (Qle_bool y x).

(** [a / b] on finite operands (signed zeros are not distinguished). *)
Definition div (a b : Q) : number :=
  if Qeq_bool b 0 then
    if Qeq_bool a 0 then NaN else Infinity (Qlt_bool a 0)
  else Fin (a / b).

(** [x * c] for a finite constant [c]. *)
Definition scale (x : number) (c : Q) : number :=
  match x with
  | Fin q => Fin (q * c)
  | NaN => NaN
  | Infinity s => if Qeq_bool c 0 then NaN else Infinity (xorb s (Qlt_bool c 0))
  end.

(** [Math.max(0, x)]. *)
Definition max0 (x : number) : number :=
  match x with
  | Fin q => Fin (Qmax 0 q)
  | NaN => NaN
  | Infinity true => Fin 0
  | Infinity false => Infinity false
  end.

(** [x || d] for a numeric field [x] that may be absent ([None]):
    [undefined] and [0] are falsy. *)
Definition or_default (x : option Q) (d : Q) : Q :=
  match x with
  | Some q => if Qeq_bool q 0 then d else q
  | None => d
  end.

(** Equality of numbers up to the representation of the rational. *)
Definition eqv (x y : number) : Prop :=
  match x, y with
  | Fin a, Fin b => a == b
  | NaN, NaN => True
  | Infinity s, Infinity s' => s = s'
  | _, _ => False
  end.

End JSNum.

(* ===================================================================== *)
(** * Data model ([src/index.tsx], type definitions) *)
(* ===================================================================== *)

Record Question : Type := mkQuestion {
  question : string;
  options : list string;
  answer : Z;
  explanation : string;
  subject : string;
  topic : string
}.

(** [marksPerQuestion] and [negativeMarking] are [None] when the stored
    object has no such field (tests saved by other builds, restored
    backups); the code reads them through [|| default]. *)
Record Test : Type := mkTest {
  id : string;
  name : string;
  questions : list Question;
  duration : Z;
  language : string;
  createdAt : string;
  marksPerQuestion : option Q;
  negativeMarking : option Q
}.

(** [completedAt] is the instant (epoch milliseconds) that the source
    stores as an ISO string. *)
Record TestAttempt : Type := mkTestAttempt {
  testId : string;
  testName : string;
  att_userAnswers : list (option Z);
  timeTaken : Z;
  att_timePerQuestion : list Q;
  completedAt : Z;
  score : JSNum.number;
  totalQuestions : nat;
  correctAnswers : nat;
  incorrectAnswers : nat;
  unanswered : nat;
  fullTest : Test
}.

Inductive QuestionStatus : Type :=
| notVisited | notAnswered | answered | marked | markedAndAnswered.

Global Instance QuestionStatus_eq_dec : EqDecision QuestionStatus.
Proof. solve_decision. Defined.

Inductive ToastType : Type := success | error | warning.

Inductive View : Type :=
| dashboardView | allTestsView | testDetailView | testAttemptView
| performanceView | performanceReportView.

(* ===================================================================== *)
(** * The attempt engine ([src/index.tsx], "Test Attempt Logic") *)
(* ===================================================================== *)

Module Engine.

(** The module-level variables of the attempt, followed by the browser
    state the handlers read or write. *)
Record State : Type := mkState {
  currentTest : option Test;
  currentQuestionIndex : nat;
  userAnswers : list (option Z);          (* [None] is [null] *)
  questionStatuses : list QuestionStatus;
  timerInterval : option nat;
  timeRemaining : Z;
  timePerQuestion : list Q;
  questionStartTime : Z;
  checkedOption : option nat;             (* input[name="option"]:checked *)
  intervals : list nat;                   (* handles of live setInterval timers *)
  nextHandle : nat;                       (* handle the next setInterval returns *)
  performanceHistory : list TestAttempt;  (* localStorage 'performanceHistory' *)
  currentAttemptForReport : option TestAttempt;
  currentView : View;
  toasts : list (string * ToastType)      (* most recent first *)
}.

Definition set_currentTest v s :=
  mkState v (currentQuestionIndex s) (userAnswers s) (questionStatuses s)
    (timerInterval s) (timeRemaining s) (timePerQuestion s) (questionStartTime s)
    (checkedOption s) (intervals s) (nextHandle s) (performanceHistory s)
    (currentAttemptForReport s) (currentView s) (toasts s).
Definition set_currentQuestionIndex v s :=
  mkState (currentTest s) v (userAnswers s) (questionStatuses s)
    (timerInterval s) (timeRemaining s) (timePerQuestion s) (questionStartTime s)
    (checkedOption s) (intervals s) (nextHandle s) (performanceHistory s)
    (currentAttemptForReport s) (currentView s) (toasts s).
Definition set_userAnswers v s :=
  mkState (currentTest s) (currentQuestionIndex s) v (questionStatuses s)
    (timerInterval s) (timeRemaining s) (timePerQuestion s) (questionStartTime s)
    (checkedOption s) (intervals s) (nextHandle s) (performanceHistory s)
    (currentAttemptForReport s) (currentView s) (toasts s).
Definition set_questionStatuses v s :=
  mkState (currentTest s) (currentQuestionIndex s) (userAnswers s) v
    (timerInterval s) (timeRemaining s) (timePerQuestion s) (questionStartTime s)
    (checkedOption s) (intervals s) (nextHandle s) (performanceHistory s)
    (currentAttemptForReport s) (currentView s) (toasts s).
Definition set_timer h live next s :=
  mkState (currentTest s) (currentQuestionIndex s) (userAnswers s) (questionStatuses s)
    h (timeRemaining s) (timePerQuestion s) (questionStartTime s)
    (checkedOption s) live next (performanceHistory s)
    (currentAttemptForReport s) (currentView s) (toasts s).
Definition set_timeRemaining v s :=
  mkState (currentTest s) (currentQuestionIndex s) (userAnswers s) (questionStatuses s)
    (timerInterval s) v (timePerQuestion s) (questionStartTime s)
    (checkedOption s) (intervals s) (nextHandle s) (performanceHistory s)
    (currentAttemptForReport s) (currentView s) (toasts s).
Definition set_timePerQuestion v s :=
  mkState (currentTest s) (currentQuestionIndex s) (userAnswers s) (questionStatuses s)
    (timerInterval s) (timeRemaining s) v (questionStartTime s)
    (checkedOption s) (intervals s) (nextHandle s) (performanceHistory s)
    (currentAttemptForReport s) (currentView s) (toasts s).
Definition set_questionStartTime v s :=
  mkState (currentTest s) (currentQuestionIndex s) (userAnswers s) (questionStatuses s)
    (timerInterval s) (timeRemaining s) (timePerQuestion s) v
    (checkedOption s) (intervals s) (nextHandle s) (performanceHistory s)
    (currentAttemptForReport s) (currentView s) (toasts s).
Definition set_checkedOption v s :=
  mkState (currentTest s) (currentQuestionIndex s) (userAnswers s) (questionStatuses s)
    (timerInterval s) (timeRemaining s) (timePerQuestion s) (questionStartTime s)
    v (intervals s) (nextHandle s) (performanceHistory s)
    (currentAttemptForReport s) (currentView s) (toasts s).
Definition set_performanceHistory v s :=
  mkState (currentTest s) (currentQuestionIndex s) (userAnswers s) (questionStatuses s)
    (timerInterval s) (timeRemaining s) (timePerQuestion s) (questionStartTime s)
    (checkedOption s) (intervals s) (nextHandle s) v
    (currentAttemptForReport s) (currentView s) (toasts s).
Definition set_currentAttemptForReport v s :=
  mkState (currentTest s) (currentQuestionIndex s) (userAnswers s) (questionStatuses s)
    (timerInterval s) (timeRemaining s) (timePerQuestion s) (questionStartTime s)
    (checkedOption s) (intervals s) (nextHandle s) (performanceHistory s)
    v (currentView s) (toasts s).

(** [showView(v)]. *)
Definition showView v s :=
  mkState (currentTest s) (currentQuestionIndex s) (userAnswers s) (questionStatuses s)
    (timerInterval s) (timeRemaining s) (timePerQuestion s) (questionStartTime s)
    (checkedOption s) (intervals s) (nextHandle s) (performanceHistory s)
    (currentAttemptForReport s) v (toasts s).

(** [showToast(message, type)]. *)
Definition showToast (message : string) (type : ToastType) s :=
  mkState (currentTest s) (currentQuestionIndex s) (userAnswers s) (questionStatuses s)
    (timerInterval s) (timeRemaining s) (timePerQuestion s) (questionStartTime s)
    (checkedOption s) (intervals s) (nextHandle s) (performanceHistory s)
    (currentAttemptForReport s) (currentView s) ((message, type) :: toasts s).

(** The page as loaded: no test, nothing scheduled.  Interval handles
    returned by the browser are positive. *)
Definition initial (history : list TestAttempt) : State :=
  mkState None 0 [] [] None 0 [] 0 None [] 1 history None dashboardView [].

(* ------------------------------------------------------------------- *)
(** ** Timer *)

(** [window.clearInterval(h)]. *)
Definition clearInterval (h : nat) (live : list nat) : list nat :=
  filter (λ h', h' ≠ h) live.

(** [if (timerInterval) window.clearInterval(timerInterval)]: a handle is
    truthy when it is not 0. *)
Definition clear_if_set (s : State) : list nat :=
  match timerInterval s with
  | Some h => if decide (h = 0) then intervals s else clearInterval h (intervals s)
  | None => intervals s
  end.

Definition stopTimer (s : State) : State :=
  set_timer None (clear_if_set s) (nextHandle s) s.

(** [startTimer()]: the callback it schedules is [timerTick] below. *)
Definition startTimer (s : State) : State :=
  let h := nextHandle s in
  set_timer (Some h) (h :: clear_if_set s) (S h) s.

(* ------------------------------------------------------------------- *)
(** ** Rendering and answers *)

(** [renderQuestionForAttempt()], for the question [q] at the current
    index: the radio button [index] is rendered checked when
    [userAnswers[currentQuestionIndex] === index]. *)
Definition renderQuestionForAttempt (q : Question) (s : State) : State :=
  let checked :=
    match userAnswers s !! currentQuestionIndex s with
    | Some (Some a) =>
        if decide (0 ≤ a < Z.of_nat (length (options q)))%Z
        then Some (Z.to_nat a) else None
    | _ => None
    end in
  set_checkedOption checked s.

Definition is_marked (st : option QuestionStatus) : bool :=
  match st with
  | Some marked | Some markedAndAnswered => true
  | _ => false
  end.

Definition saveCurrentAnswer (s : State) : State :=
  let i := currentQuestionIndex s in
  let selected := Z.of_nat <$> checkedOption s in
  let s := set_userAnswers (<[i := selected]> (userAnswers s)) s in
  let currentStatus := questionStatuses s !! i in
  match selected with          (* the value just written to userAnswers[i] *)
  | Some _ =>
      set_questionStatuses
        (<[i := if is_marked currentStatus then markedAndAnswered else answered]>
           (questionStatuses s)) s
  | None =>
      if is_marked currentStatus then s
      else set_questionStatuses (<[i := notAnswered]> (questionStatuses s)) s
  end.

(** [(Date.now() - questionStartTime) / 1000]. *)
Definition timeSpent (now : Z) (s : State) : Q :=
  inject_Z (now - questionStartTime s) / 1000.

(** [timePerQuestion[currentQuestionIndex] += timeSpent]. *)
Definition addTimeSpent (now : Z) (s : State) : State :=
  set_timePerQuestion
    (alter (λ t, t + timeSpent now s)%Q (currentQuestionIndex s) (timePerQuestion s)) s.

Definition navigateToQuestion (newIndex : Z) (now : Z) (s : State) : State :=
  match currentTest s with
  | None => s
  | Some t =>
      let s := addTimeSpent now s in
      let s := saveCurrentAnswer s in
      if decide (Z.of_nat (length (questions t)) ≤ newIndex)%Z then s
      else if decide (newIndex < 0)%Z then s
      else
        let s := set_currentQuestionIndex (Z.to_nat newIndex) s in
        let s := set_questionStartTime now s in
        let s :=
          if decide (questionStatuses s !! currentQuestionIndex s = Some notVisited)
          then set_questionStatuses
                 (<[currentQuestionIndex s := notAnswered]> (questionStatuses s)) s
          else s in
        match questions t !! currentQuestionIndex s with
        | Some q => renderQuestionForAttempt q s
        | None => s   (* not reached: newIndex < questions.length *)
        end
  end.

(** The 'click' listener of [markReviewBtn]. *)
Definition markForReview (now : Z) (s : State) : State :=
  let i := currentQuestionIndex s in
  let s :=
    match questionStatuses s !! i with
    | Some answered | Some markedAndAnswered =>
        set_questionStatuses (<[i := markedAndAnswered]> (questionStatuses s)) s
    | _ => set_questionStatuses (<[i := marked]> (questionStatuses s)) s
    end in
  navigateToQuestion (Z.of_nat (currentQuestionIndex s) + 1) now s.

(** [a[0] = v]: JavaScript extends an empty array. *)
Definition writeFirst {A} (v : A) (a : list A) : list A :=
  match a with
  | [] => [v]
  | _ :: a' => v :: a'
  end.

(** [startTest(test)].  With an empty question list
    [renderQuestionForAttempt] reads [q.question] of [undefined]: the
    handler ends there with an uncaught TypeError, after the assignments
    and before the timer is started and the attempt view is shown. *)
Definition startTest (test : Test) (now : Z) (s : State) : State :=
  let n := length (questions test) in
  let s := set_currentTest (Some test) s in
  let s := set_currentQuestionIndex 0 s in
  let s := set_userAnswers (replicate n None) s in
  let s := set_questionStatuses (writeFirst notAnswered (replicate n notVisited)) s in
  let s := set_timeRemaining (duration test * 60)%Z s in
  let s := set_timePerQuestion (replicate n 0%Q) s in
  let s := set_questionStartTime now s in
  match questions test !! currentQuestionIndex s with
  | None => s
  | Some q =>
      let s := renderQuestionForAttempt q s in
      let s := startTimer s in
      showView testAttemptView s
  end.

(* ------------------------------------------------------------------- *)
(** ** Submission *)

Record Tally : Type := mkTally {
  tallyCorrect : nat;
  tallyIncorrect : nat;
  tallyUnanswered : nat
}.

(** One iteration of the [forEach((q, index) => ...)] of
    [handleSubmitTest].  [answers !! index] is [None] where JavaScript
    reads [undefined], which is neither [null] nor a number. *)
Definition tallyStep (answers : list (option Z)) (acc : Tally) (index : nat)
    (q : Question) : Tally :=
  match answers !! index with
  | Some None =>
      mkTally (tallyCorrect acc) (tallyIncorrect acc) (S (tallyUnanswered acc))
  | Some (Some a) =>
      if decide (a = answer q)
      then mkTally (S (tallyCorrect acc)) (tallyIncorrect acc) (tallyUnanswered acc)
      else mkTally (tallyCorrect acc) (S (tallyIncorrect acc)) (tallyUnanswered acc)
  | None =>
      mkTally (tallyCorrect acc) (S (tallyIncorrect acc)) (tallyUnanswered acc)
  end.

Fixpoint tallyFrom (answers : list (option Z)) (index : nat) (qs : list Question)
    (acc : Tally) : Tally :=
  match qs with
  | [] => acc
  | q :: qs' => tallyFrom answers (S index) qs' (tallyStep answers acc index q)
  end.

Definition tally (answers : list (option Z)) (qs : list Question) : Tally :=
  tallyFrom answers 0 qs (mkTally 0 0 0).

Definition count (n : nat) : Q := inject_Z (Z.of_nat n).

(** [marksPerQ], [negMark], [rawScore], [totalMaxScore] and
    [scorePercentage] of [handleSubmitTest]. *)
Definition marksPerQ (t : Test) : Q := JSNum.or_default (marksPerQuestion t) 2.
Definition negMark (t : Test) : Q := JSNum.or_default (negativeMarking t) (66 # 100).
Definition rawScore (t : Test) (correct incorrect : nat) : Q :=
  count correct * marksPerQ t - count incorrect * negMark t.
Definition totalMaxScore (t : Test) : Q := count (length (questions t)) * marksPerQ t.

Definition scorePercentage (t : Test) (correct incorrect : nat) : JSNum.number :=
  if JSNum.Qlt_bool 0 (totalMaxScore t)
  then JSNum.max0
         (JSNum.scale (JSNum.div (rawScore t correct incorrect) (totalMaxScore t)) 100)
  else JSNum.Fin 0.

(** The [TestAttempt] object built by [handleSubmitTest]. *)
Definition buildAttempt (t : Test) (now : Z) (s : State) : TestAttempt :=
  let c := tally (userAnswers s) (questions t) in
  {| testId := id t;
     testName := name t;
     att_userAnswers := userAnswers s;
     timeTaken := (duration t * 60 - timeRemaining s)%Z;
     att_timePerQuestion := timePerQuestion s;
     completedAt := now;
     score := scorePercentage t (tallyCorrect c) (tallyIncorrect c);
     totalQuestions := length (questions t);
     correctAnswers := tallyCorrect c;
     incorrectAnswers := tallyIncorrect c;
     unanswered := tallyUnanswered c;
     fullTest := t |}.

Definition handleSubmitTest (now : Z) (s : State) : State :=
  let s := stopTimer s in
  let s := addTimeSpent now s in
  let s := saveCurrentAnswer s in
  match currentTest s with
  | None =>
      showView dashboardView (showToast "Error: Test data is missing." error s)
  | Some t =>
      let attempt := buildAttempt t now s in
      let s := set_performanceHistory (attempt :: performanceHistory s) s in
      let s := set_currentTest None s in
      let s := set_currentAttemptForReport (Some attempt) s in
      let s := showView performanceReportView s in
      showToast "Test submitted successfully!" success s
  end.

(** The callback that [startTimer] passes to [setInterval]. *)
Definition timerTick (now : Z) (s : State) : State :=
  let s := set_timeRemaining (timeRemaining s - 1)%Z s in
  if decide (timeRemaining s ≤ 0)%Z
  then handleSubmitTest now
         (showToast "Time's up! Submitting test..." warning (stopTimer s))
  else s.

(** The 'click' listener of [abandonTestBtn], after the user confirms. *)
Definition abandonTest (s : State) : State :=
  showView dashboardView (set_currentTest None (stopTimer s)).

(* ------------------------------------------------------------------- *)
(** ** Events *)

(** The events of an attempt: a test is started from another view, the
    controls of the attempt view are used, the interval fires.  [Submit]
    and [Abandon] are the clicks that the user confirmed in the dialog; a
    declined dialog changes nothing.  Not among the events: the create
    button, which [showView] leaves visible in the attempt view and whose
    listener shows the create view without [stopTimer], and what the
    other views do to [currentTest] while that timer still runs.  A run
    follows the page as long as an attempt ends by its submission, by the
    timer or by abandoning it. *)
Inductive Event : Type :=
| StartTest (t : Test) (now : Z)
| SelectOption (k : nat)          (* click on a radio button, keys 1-4 *)
| ClearResponse                   (* clearResponseBtn, key c *)
| SaveNext (now : Z)              (* saveNextBtn, space *)
| Previous (now : Z)              (* prevQuestionBtn *)
| PaletteClick (j : nat) (now : Z)
| MarkReview (now : Z)            (* markReviewBtn, key m *)
| Submit (now : Z)
| Abandon
| TimerTick (h : nat) (now : Z).  (* the interval [h] fires *)

Definition inAttemptView (s : State) : bool :=
  match currentView s with testAttemptView => true | _ => false end.

(** The radio buttons on the page are those of the question rendered
    last, one per option. *)
Definition renderedOptions (s : State) : nat :=
  match currentTest s with
  | Some t =>
      match questions t !! currentQuestionIndex s with
      | Some q => length (options q)
      | None => 0
      end
  | None => 0
  end.

(** [updatePalette] renders one button per question of the current test. *)
Definition paletteButtons (s : State) : nat :=
  match currentTest s with
  | Some t => length (questions t)
  | None => 0
  end.

(** [dispatch e s] is the state after the handler of [e] ran, or [None]
    when [e] cannot happen in [s]: the controls of the attempt exist only
    while the attempt view is shown and the start buttons only in the
    other views, a palette button exists for each question, an interval
    fires only while its handle is live. *)
Definition dispatch (e : Event) (s : State) : option State :=
  match e with
  | StartTest t now => if inAttemptView s then None else Some (startTest t now s)
  | TimerTick h now =>
      if decide (h ∈ intervals s) then Some (timerTick now s) else None
  | _ =>
      if inAttemptView s then
        match e with
        | SelectOption k =>
            if decide (k < renderedOptions s) then Some (set_checkedOption (Some k) s)
            else None
        | ClearResponse => Some (set_checkedOption None s)
        | SaveNext now =>
            Some (navigateToQuestion (Z.of_nat (currentQuestionIndex s) + 1) now s)
        | Previous now =>
            Some (navigateToQuestion (Z.of_nat (currentQuestionIndex s) - 1) now s)
        | PaletteClick j now =>
            if decide (j < paletteButtons s) then
              if decide (j = currentQuestionIndex s) then Some s
              else Some (navigateToQuestion (Z.of_nat j) now s)
            else None
        | MarkReview now => Some (markForReview now s)
        | Submit now => Some (handleSubmitTest now s)
        | Abandon => Some (abandonTest s)
        | _ => None
        end
      else None
  end.

(** A run of events, each one enabled in the state it meets. *)
Fixpoint run (es : list Event) (s : State) : option State :=
  match es with
  | [] => Some s
  | e :: es' =>
      match dispatch e s with
      | Some s' => run es' s'
      | None => None
      end
  end.

End Engine.

(* ===================================================================== *)
(** * The older build ([src/unnamed/part_000]) *)
(* ===================================================================== *)

(** Only the functions of the attempt that differ from [src/index.tsx];
    [saveCurrentAnswer], the tally and the timer are the same text. *)
Module Legacy.
Import Engine.

(** [navigateToQuestion] of [part_000]: both early returns reset
    [questionStartTime] ("Reset timer to stop accumulating time on the
    last question").  Without a current test, reading
    [currentTest.questions] aborts the handler after [saveCurrentAnswer]. *)
Definition navigateToQuestion (newIndex : Z) (now : Z) (s : State) : State :=
  let s := match currentTest s with Some _ => addTimeSpent now s | None => s end in
  let s := saveCurrentAnswer s in
  match currentTest s with
  | None => s
  | Some t =>
      if decide (Z.of_nat (length (questions t)) ≤ newIndex)%Z
      then set_questionStartTime now s
      else if decide (newIndex < 0)%Z then set_questionStartTime now s
      else
        let s := set_currentQuestionIndex (Z.to_nat newIndex) s in
        let s := set_questionStartTime now s in
        let s :=
          if decide (questionStatuses s !! currentQuestionIndex s = Some notVisited)
          then set_questionStatuses
                 (<[currentQuestionIndex s := notAnswered]> (questionStatuses s)) s
          else s in
        match questions t !! currentQuestionIndex s with
        | Some q => renderQuestionForAttempt q s
        | None => s
        end
  end.

(** The score of [part_000]: the defaults are 1 mark and no deduction. *)
Definition marksPerQ (t : Test) : Q := JSNum.or_default (marksPerQuestion t) 1.
Definition negMark (t : Test) : Q := JSNum.or_default (negativeMarking t) 0.
Definition rawScore (t : Test) (correct incorrect : nat) : Q :=
  count correct * marksPerQ t - count incorrect * negMark t.
Definition totalMaxScore (t : Test) : Q := count (length (questions t)) * marksPerQ t.

Definition scorePercentage (t : Test) (correct incorrect : nat) : JSNum.number :=
  if JSNum.Qlt_bool 0 (totalMaxScore t)
  then JSNum.max0
         (JSNum.scale (JSNum.div (rawScore t correct incorrect) (totalMaxScore t)) 100)
  else JSNum.Fin 0.

End Legacy.

(* ===================================================================== *)
(** * The report ([renderPerformanceReport]) *)
(* ===================================================================== *)

Module Report.

Definition attemptedCount (attempt : TestAttempt) : nat :=
  correctAnswers attempt + incorrectAnswers attempt.

(** [attemptedCount > 0 ? (correctAnswers / attemptedCount) * 100 : 0] *)
Definition accuracy (attempt : TestAttempt) : JSNum.number :=
  if decide (0 < attemptedCount attempt)
  then JSNum.scale
         (JSNum.div (Engine.count (correctAnswers attempt))
                    (Engine.count (attemptedCount attempt))) 100
  else JSNum.Fin 0.

(** The same expression without its guard. *)
Definition unguardedAccuracy (attempt : TestAttempt) : JSNum.number :=
  JSNum.scale
    (JSNum.div (Engine.count (correctAnswers attempt))
               (Engine.count (attemptedCount attempt))) 100.

End Report.

(* ===================================================================== *)
(** * Restoring a backup ([restoreFileInput] 'change' listener) *)
(* ===================================================================== *)

Module Backup.

(** A JavaScript [Map] from test ids to tests: the entries in insertion
    order.  [set] on a key that is present replaces the value and keeps
    the position of the entry. *)
Definition JSMap : Type := list (string * Test).

Fixpoint mapSet (k : string) (v : Test) (m : JSMap) : JSMap :=
  match m with
  | [] => [(k, v)]
  | (k', v') :: m' =>
      if decide (k' = k) then (k, v) :: m' else (k', v') :: mapSet k v m'
  end.

(** [m.get(k)] *)
Fixpoint mapGet (k : string) (m : JSMap) : option Test :=
  match m with
  | [] => None
  | (k', v') :: m' => if decide (k' = k) then Some v' else mapGet k m'
  end.

(** [new Map(entries)]: [set] for each entry, from the first to the last. *)
Definition newMap (entries : list (string * Test)) : JSMap :=
  foldl (λ m e, mapSet e.1 e.2 m) [] entries.

(** [Array.from(m.values())] *)
Definition values (m : JSMap) : list Test := m.*2.

(** The parsed backup file: a field is [None] when it is absent or not
    an array. *)
Record BackupFile : Type := mkBackupFile {
  dataTests : option (list Test);
  dataPerformanceHistory : option (list TestAttempt)
}.

Record Storage : Type := mkStorage {
  tests : list Test;
  performanceHistory : list TestAttempt
}.

Definition newTests (data : BackupFile) (currentTests : list Test) : list Test :=
  match dataTests data with
  | Some ts => ts ++ currentTests
  | None => currentTests
  end.

Definition newHistory (data : BackupFile) (currentHistory : list TestAttempt)
    : list TestAttempt :=
  match dataPerformanceHistory data with
  | Some h => h ++ currentHistory
  | None => currentHistory
  end.

Definition uniqueTests (data : BackupFile) (currentTests : list Test) : list Test :=
  values (newMap ((λ item, (id item, item)) <$> newTests data currentTests)).

(** [reader.onload]: [parsed] is [None] when [JSON.parse] throws,
    [confirmed] is the answer to the confirmation dialog.  The result is
    the storage and the toast shown, if any. *)
Definition restore (parsed : option BackupFile) (confirmed : bool) (st : Storage)
    : Storage * option (string * ToastType) :=
  match parsed with
  | None => (st, Some ("Failed to restore data. Invalid file format.", error))
  | Some data =>
      if confirmed then
        (mkStorage (uniqueTests data (tests st))
                   (newHistory data (performanceHistory st)),
         Some ("Data restored successfully!", success))
      else (st, None)
  end.

(** The last element of [l] whose id is [i]. *)
Definition lastWithId (i : string) (l : list Test) : option Test :=
  last (filter (λ t, id t = i) l).

End Backup.

(* ===================================================================== *)
(** * The streak ([calculateStreak]) *)
(* ===================================================================== *)

Module Streak.

Definition msPerDay : Z := 86400000.

(** The time zone of the browser.  [offsetAt t] is the UTC offset (ms) in
    force at the instant [t]; [offsetOn d] is the offset in force at the
    local midnight that starts civil day [d] (days since 1970-01-01). *)
Record TimeZone : Type := mkTimeZone {
  offsetAt : Z → Z;
  offsetOn : Z → Z
}.

(** A zone without daylight saving. *)
Definition fixedZone (offset : Z) : TimeZone :=
  mkTimeZone (λ _, offset) (λ _, offset).

(** [new Date(t).toDateString()]: the local civil date of an instant.
    The string names the civil day; it is modelled by the day number. *)
Definition toDateString (tz : TimeZone) (t : Z) : Z :=
  ((t + offsetAt tz t) `div` msPerDay)%Z.

(** [new Date(dateString).getTime()]: the instant of local midnight. *)
Definition getTime (tz : TimeZone) (d : Z) : Z :=
  (d * msPerDay - offsetOn tz d)%Z.

(** [[...new Set(dates)]]: first occurrences, in order. *)
Fixpoint newSet (seen : list Z) (dates : list Z) : list Z :=
  match dates with
  | [] => []
  | d :: dates' =>
      if decide (d ∈ seen) then newSet seen dates'
      else d :: newSet (d :: seen) dates'
  end.

(** [.sort((a, b) => new Date(b).getTime() - new Date(a).getTime())]:
    a stable sort; [a] stays before [b] when the comparator is not
    positive. *)
Definition comparator (tz : TimeZone) (a b : Z) : Z := (getTime tz b - getTime tz a)%Z.

Fixpoint sortInsert (tz : TimeZone) (a : Z) (l : list Z) : list Z :=
  match l with
  | [] => [a]
  | b :: l' =>
      if decide (comparator tz a b ≤ 0)%Z then a :: b :: l'
      else b :: sortInsert tz a l'
  end.

Definition sort (tz : TimeZone) (l : list Z) : list Z :=
  foldr (sortInsert tz) [] l.

(** [diff = (prev.getTime() - curr.getTime()) / 86400000] *)
Definition diff (tz : TimeZone) (prev curr : Z) : Q :=
  inject_Z (getTime tz prev - getTime tz curr) / inject_Z msPerDay.

(** The [for] loop: [prev] is [uniqueDates[i - 1]], the list holds
    [uniqueDates[i]] and what follows; the result is what the loop adds
    to [streak]. *)
Fixpoint streakLoop (tz : TimeZone) (prev : Z) (rest : list Z) : nat :=
  match rest with
  | [] => 0
  | curr :: rest' =>
      if Qeq_bool (diff tz prev curr) 1 then S (streakLoop tz curr rest') else 0
  end.

Definition uniqueDates (tz : TimeZone) (history : list TestAttempt) : list Z :=
  sort tz (newSet [] ((λ h, toDateString tz (completedAt h)) <$> history)).

Definition calculateStreak (tz : TimeZone) (now : Z) (history : list TestAttempt) : nat :=
  match history with
  | [] => 0
  | _ =>
      let today := toDateString tz now in
      let yesterday := toDateString tz (now - 86400000) in
      match uniqueDates tz history with
      | d0 :: rest =>
          if decide (d0 = today ∨ d0 = yesterday) then S (streakLoop tz d0 rest) else 0
      | [] => 0
      end
  end.

(** The civil days on which [history] has an attempt. *)
Definition attemptDays (tz : TimeZone) (history : list TestAttempt) : list Z :=
  (λ h, toDateString tz (completedAt h)) <$> history.

End Streak.

(* ===================================================================== *)
(** * The backend ([src/unnamed/part_001]) *)
(* ===================================================================== *)

Module Server.

(** A stored user ([db.data.users]). *)
Record User : Type := mkUser {
  userId : string;
  userName : string;
  userEmail : string;
  userPassword : string;       (* the bcrypt hash *)
  userCreatedAt : Z
}.

(** The payload of a token, which [authenticateToken] puts in [req.user]. *)
Record TokenUser : Type := mkTokenUser {
  tokenId : string;
  tokenEmail : string;
  tokenName : string
}.

(** A stored test or attempt: a JSON object of which the server reads
    only [id] and [userId] ([None]: the field is absent). *)
Record Item : Type := mkItem {
  itemId : option string;
  itemUserId : option string;
  itemData : string            (* the other fields *)
}.

Global Instance Item_eq_dec : EqDecision Item.
Proof. solve_decision. Defined.

Record DB : Type := mkDB {
  users : list User;
  tests : list Item;
  attempts : list Item
}.

(** The routes, each with the part of the request it reads.  An array
    field of the [POST /api/sync] body is [None] when it is absent or
    not an array. *)
Inductive Call : Type :=
| PostRegister (name email password : option string)
| PostLogin (email password : option string)
| GetVerify
| GetTests
| PostTests (test : Item)
| DeleteTests (id : string)
| GetAttempts
| PostAttempts (attempt : Item)
| GetSync
| PostSync (tests attempts : option (list Item)).

Record Request : Type := mkRequest {
  authorization : option string;     (* req.headers['authorization'] *)
  call : Call
}.

Inductive Payload : Type :=
| Error (message : string)
| Message (message : string)
| Session (message token : string) (user : TokenUser)
| Verified (user : TokenUser)
| Items (items : list Item)
| Saved (message : string) (item : Item)
| SyncData (tests attempts : list Item).

Record Response : Type := mkResponse {
  status : nat;
  payload : Payload
}.

(** [s.split(' ')] *)
Fixpoint splitSpaces (s : string) : list string :=
  match s with
  | EmptyString => [EmptyString]
  | String c s' =>
      if decide (c = " "%char) then EmptyString :: splitSpaces s'
      else
        match splitSpaces s' with
        | w :: ws => String c w :: ws
        | [] => [String c EmptyString]
        end
  end.

(** [authHeader && authHeader.split(' ')[1]], then [!token]: the token is
    [None] when the header is absent or empty, has no second field, or
    the second field is empty. *)
Definition bearerToken (req : Request) : option string :=
  match authorization req with
  | None => None
  | Some authHeader =>
      match splitSpaces authHeader !! 1 with
      | Some token => if decide (token = EmptyString) then None else Some token
      | None => None
      end
  end.

Definition falsy (x : option string) : bool :=
  match x with
  | None => true
  | Some s => bool_decide (s = EmptyString)
  end.

Definition stamp (uid : string) (it : Item) : Item :=
  mkItem (itemId it) (Some uid) (itemData it).

Definition ownedBy (uid : string) (it : Item) : Prop := itemUserId it = Some uid.

Global Instance ownedBy_dec uid it : Decision (ownedBy uid it).
Proof. unfold ownedBy. apply _. Defined.

(** [findIndex]: the index of the first element that satisfies [P]. *)
Fixpoint findIndex {A} (P : A → Prop) `{!∀ x, Decision (P x)} (l : list A) : option nat :=
  match l with
  | [] => None
  | x :: l' => if decide (P x) then Some 0 else S <$> findIndex P l'
  end.

Section Handlers.

(** The libraries the server calls. *)
Variable jwt_verify : string → option TokenUser.  (* jwt.verify(token, JWT_SECRET) *)
Variable jwt_sign : TokenUser → string.
Variable bcrypt_hash : string → string.
Variable bcrypt_compare : string → string → bool.
Variable toLowerCase : string → string.
Variable showNumber : Z → string.           (* `${n}` *)

(** [authenticateToken]: the response that ends the request, or the
    user passed on to the handler. *)
Definition authenticateToken (req : Request) : Response + TokenUser :=
  match bearerToken req with
  | None => inl (mkResponse 401 (Error "Access token required"))
  | Some token =>
      match jwt_verify token with
      | None => inl (mkResponse 403 (Error "Invalid or expired token"))
      | Some user => inr user
      end
  end.

Definition sessionOf (u : User) : TokenUser :=
  mkTokenUser (userId u) (userEmail u) (userName u).

Definition findByEmail (email : string) (db : DB) : option User :=
  List.find (λ u, bool_decide (toLowerCase (userEmail u) = toLowerCase email)) (users db).

Definition register (name email password : option string) (now : Z) (db : DB)
    : Response * DB :=
  match name, email, password with
  | Some name, Some email, Some password =>
      if falsy (Some name) || falsy (Some email) || falsy (Some password)
      then (mkResponse 400 (Error "All fields are required"), db)
      else if decide (String.length password < 6)
      then (mkResponse 400 (Error "Password must be at least 6 characters"), db)
      else
        match findByEmail email db with
        | Some _ => (mkResponse 400 (Error "Email already registered"), db)
        | None =>
            let user :=
              mkUser ("user_" +:+ showNumber now) name (toLowerCase email)
                     (bcrypt_hash password) now in
            (mkResponse 201
               (Session "Account created successfully"
                        (jwt_sign (sessionOf user)) (sessionOf user)),
             mkDB (users db ++ [user]) (tests db) (attempts db))
        end
  | _, _, _ => (mkResponse 400 (Error "All fields are required"), db)
  end.

Definition login (email password : option string) (db : DB) : Response * DB :=
  match email, password with
  | Some email, Some password =>
      if falsy (Some email) || falsy (Some password)
      then (mkResponse 400 (Error "Email and password are required"), db)
      else
        match findByEmail email db with
        | None => (mkResponse 401 (Error "Invalid email or password"), db)
        | Some user =>
            if bcrypt_compare password (userPassword user)
            then (mkResponse 200
                    (Session "Login successful"
                             (jwt_sign (sessionOf user)) (sessionOf user)), db)
            else (mkResponse 401 (Error "Invalid email or password"), db)
        end
  | _, _ => (mkResponse 400 (Error "Email and password are required"), db)
  end.

Definition getTests (user : TokenUser) (db : DB) : Response * DB :=
  (mkResponse 200 (Items (filter (ownedBy (tokenId user)) (tests db))), db).

Definition postTests (user : TokenUser) (body : Item) (db : DB) : Response * DB :=
  let test := stamp (tokenId user) body in
  let existingIndex :=
    findIndex (λ t, itemId t = itemId test ∧ ownedBy (tokenId user) t) (tests db) in
  let tests' :=
    match existingIndex with
    | Some i => <[i := test]> (tests db)
    | None => tests db ++ [test]
    end in
  (mkResponse 200 (Saved "Test saved successfully" test),
   mkDB (users db) tests' (attempts db)).

Definition deleteTests (user : TokenUser) (id : string) (db : DB) : Response * DB :=
  (mkResponse 200 (Message "Test deleted successfully"),
   mkDB (users db)
        (filter (λ t, ¬ (itemId t = Some id ∧ ownedBy (tokenId user) t)) (tests db))
        (attempts db)).

Definition getAttempts (user : TokenUser) (db : DB) : Response * DB :=
  (mkResponse 200 (Items (filter (ownedBy (tokenId user)) (attempts db))), db).

Definition postAttempts (user : TokenUser) (body : Item) (now : Z) (db : DB)
    : Response * DB :=
  let attempt :=
    mkItem (Some ("attempt_" +:+ showNumber now)) (Some (tokenId user)) (itemData body) in
  (mkResponse 200 (Saved "Attempt saved successfully" attempt),
   mkDB (users db) (tests db) (attempts db ++ [attempt])).

Definition getSync (user : TokenUser) (db : DB) : Response * DB :=
  (mkResponse 200
     (SyncData (filter (ownedBy (tokenId user)) (tests db))
               (filter (ownedBy (tokenId user)) (attempts db))), db).

(** [forEach(x => { x.userId = req.user.id; target.push(x) })], skipped
    when the field is not an array. *)
Definition pushStamped (uid : string) (new : option (list Item)) (target : list Item)
    : list Item :=
  match new with
  | Some l => target ++ (stamp uid <$> l)
  | None => target
  end.

Definition postSync (user : TokenUser) (tests' attempts' : option (list Item)) (db : DB)
    : Response * DB :=
  let uid := tokenId user in
  let keptTests := filter (λ t, ¬ ownedBy uid t) (tests db) in
  let keptAttempts := filter (λ a, ¬ ownedBy uid a) (attempts db) in
  (mkResponse 200 (Message "Data synced successfully"),
   mkDB (users db) (pushStamped uid tests' keptTests)
        (pushStamped uid attempts' keptAttempts)).

(** A route registered as [app.METHOD(path, authenticateToken, handler)]. *)
Definition guarded (req : Request) (db : DB) (handler : TokenUser → DB → Response * DB)
    : Response * DB :=
  match authenticateToken req with
  | inl rejected => (rejected, db)
  | inr user => handler user db
  end.

(** One request against the stored database. *)
Definition serve (req : Request) (now : Z) (db : DB) : Response * DB :=
  match call req with
  | PostRegister name email password => register name email password now db
  | PostLogin email password => login email password db
  | GetVerify => guarded req db (λ user db, (mkResponse 200 (Verified user), db))
  | GetTests => guarded req db getTests
  | PostTests test => guarded req db (λ user, postTests user test)
  | DeleteTests id => guarded req db (λ user, deleteTests user id)
  | GetAttempts => guarded req db getAttempts
  | PostAttempts attempt => guarded req db (λ user, postAttempts user attempt now)
  | GetSync => guarded req db getSync
  | PostSync tests' attempts' => guarded req db (λ user, postSync user tests' attempts')
  end.

End Handlers.

(** The records of [db] that belong to the account [uid]. *)
Definition view (uid : string) (db : DB) : list Item * list Item :=
  (filter (ownedBy uid) (tests db), filter (ownedBy uid) (attempts db)).

End Server.


(* ===================================================================== *)
(** * Accounts on the device ([src/index.tsx], "Authentication Functions") *)
(* ===================================================================== *)

Module LocalAuth.

(** A password is a string of 8-bit characters; [charCodeAt] is the code
    of the character. *)
Record User : Type := mkUser {
  username : string;
  password : string;      (* the value of [hashPassword] *)
  name : string;
  createdAt : Z
}.

(** [ToInt32]: the signed 32-bit value of an integer. *)
Definition toInt32 (z : Z) : Z := ((z + 2 ^ 31) `mod` 2 ^ 32 - 2 ^ 31)%Z.

(** One round of the loop of [hashPassword]:
    [hash = ((hash << 5) - hash) + char; hash = hash & hash]. *)
Definition hashStep (hash : Z) (c : ascii) : Z :=
  let char := Z.of_nat (nat_of_ascii c) in
  let hash := (toInt32 (Z.shiftl (toInt32 hash) 5) - hash + char)%Z in
  Z.land (toInt32 hash) (toInt32 hash).

Fixpoint hashLoop (hash : Z) (password : string) : Z :=
  match password with
  | EmptyString => hash
  | String c rest => hashLoop (hashStep hash c) rest
  end.

(** A digit of base 36: [0-9a-z]. *)
Definition digit36 (d : Z) : ascii :=
  if decide (d < 10)%Z then ascii_of_nat (48 + Z.to_nat d)
  else ascii_of_nat (87 + Z.to_nat d).

(** The digits of [n], most significant first, in front of [acc].  Seven
    digits are enough for a 32-bit magnitude (2^31 < 36^7). *)
Fixpoint digits36 (fuel : nat) (n : Z) (acc : string) : string :=
  match fuel with
  | 0 => acc
  | S fuel' =>
      let acc' := String (digit36 (n `mod` 36)) acc in
      if decide (n `div` 36 = 0)%Z then acc' else digits36 fuel' (n `div` 36) acc'
  end.

(** [n.toString(36)] for a 32-bit integer. *)
Definition toString36 (n : Z) : string :=
  if decide (n < 0)%Z then String "-"%char (digits36 7 (- n) EmptyString)
  else digits36 7 n EmptyString.

Definition hashPassword (password : string) : string :=
  toString36 (hashLoop 0 password).

Section Accounts.

Variable toLowerCase : string → string.

(** [users.find(u => u.username.toLowerCase() === username.toLowerCase())] *)
Definition findUser (username : string) (users : list User) : option User :=
  List.find (λ u, bool_decide (toLowerCase (LocalAuth.username u) = toLowerCase username))
            users.

(** [registerUser]: the result and the stored users ([getUsers], then
    [saveUsers] when the account is created). *)
Definition registerUser (name username password : string) (now : Z) (users : list User)
    : (bool * string) * list User :=
  match findUser username users with
  | Some _ => ((false, "Username already exists!"), users)
  | None =>
      if decide (String.length username < 3)
      then ((false, "Username must be at least 3 characters!"), users)
      else if decide (String.length password < 4)
      then ((false, "Password must be at least 4 characters!"), users)
      else
        let newUser := mkUser (toLowerCase username) (hashPassword password) name now in
        ((true, "Account created successfully!"), users ++ [newUser])
  end.

(** [authenticateUser]: success, the user, the message. *)
Definition authenticateUser (username password : string) (users : list User)
    : bool * option User * string :=
  match findUser username users with
  | None => (false, None, "Invalid username or password!")
  | Some user =>
      if decide (LocalAuth.password user = hashPassword password)
      then (true, Some user, "Login successful!")
      else (false, None, "Invalid username or password!")
  end.

(** What the 'submit' listener of [registerForm] does with the trimmed
    fields: the toasts it shows (first to last), the user it logs in, if
    any, and whether it falls back to the login form. *)
Record RegisterOutcome : Type := mkRegisterOutcome {
  shown : list (string * ToastType);
  loggedIn : option User;
  backToLoginForm : bool;
  storedUsers : list User
}.

Definition registerSubmit (name username password confirm : string) (now : Z)
    (users : list User) : RegisterOutcome :=
  if decide (password = confirm) then
    let '((ok, message), users') := registerUser name username password now users in
    if ok then
      match authenticateUser username password users' with
      | (true, Some user, _) => mkRegisterOutcome [(message, success)] (Some user) false users'
      | _ => mkRegisterOutcome [(message, success)] None true users'
      end
    else mkRegisterOutcome [(message, error)] None false users'
  else mkRegisterOutcome [("Passwords do not match!", error)] None false users.

End Accounts.

End LocalAuth.

(* ===================================================================== *)
(** * The stored tests ([src/index.tsx], save, delete, open) *)
(* ===================================================================== *)

Module TestStore.

(** The 'click' listener of [saveTestBtn], for the edited test: the stored
    list and the toast. *)
Definition saveTest (currentTest : Test) (tests : list Test)
    : list Test * (string * ToastType) :=
  match Server.findIndex (λ t, id t = id currentTest) tests with
  | Some existingIndex =>
      (<[existingIndex := currentTest]> tests, ("Test updated successfully!", success))
  | None => (currentTest :: tests, ("Test created successfully!", success))
  end.

(** [handleDeleteTest(testId)], after the user confirms. *)
Definition handleDeleteTest (testId : string) (tests : list Test) : list Test :=
  filter (λ t, id t ≠ testId) tests.

(** [tests.find(t => t.id === testId)] of the 'click' listener of
    [allTestsContainer]: the test that a click on an item starts, edits,
    downloads. *)
Definition findTest (testId : string) (tests : list Test) : option Test :=
  List.find (λ t, bool_decide (id t = testId)) tests.

End TestStore.

(* ===================================================================== *)
(** * The review of an attempt ([src/index.tsx], report views) *)
(* ===================================================================== *)

Module Review.

Inductive Status : Type := correct | incorrect | unansweredStatus.

Global Instance Status_eq_dec : EqDecision Status.
Proof. solve_decision. Defined.

(** [statusClass] of [createQuestionReviewHTML]; [userAnswer] is
    [attempt.userAnswers[index]], [None] where that is [undefined]. *)
Definition statusClass (q : Question) (userAnswer : option (option Z)) : Status :=
  if decide (userAnswer = Some (Some (answer q))) then correct
  else if decide (userAnswer ≠ Some None) then incorrect
  else unansweredStatus.

(** The list that [renderMistakesReview] shows. *)
Definition mistakes (attempt : TestAttempt) : list (Question * nat) :=
  filter
    (λ item,
       let userAnswer := att_userAnswers attempt !! item.2 in
       userAnswer ≠ Some None ∧
       userAnswer ≠ (λ q, Some (answer q)) <$> questions (fullTest attempt) !! item.2)
    (imap (λ index q, (q, index)) (questions (fullTest attempt))).

(** The statuses that [renderAllQuestionsReview] shows, in order. *)
Definition allStatuses (attempt : TestAttempt) : list Status :=
  imap (λ index q, statusClass q (att_userAnswers attempt !! index))
       (questions (fullTest attempt)).

End Review.

(* ===================================================================== *)
(** * The dashboard ([updateDashboardStats]) *)
(* ===================================================================== *)

Module Dashboard.

(** The three running totals of the [forEach] of [updateDashboardStats]. *)
Record Totals : Type := mkTotals {
  sumQuestions : nat;
  sumCorrect : nat;
  sumTime : Z
}.

Definition addAttempt (acc : Totals) (attempt : TestAttempt) : Totals :=
  mkTotals (sumQuestions acc + totalQuestions attempt)
           (sumCorrect acc + correctAnswers attempt)
           (sumTime acc + timeTaken attempt)%Z.

Definition totals (history : list TestAttempt) : Totals :=
  foldl addAttempt (mkTotals 0 0 0) history.

(** What the dashboard shows. *)
Record Stats : Type := mkStats {
  shownTests : nat;
  shownQuestions : nat;
  avgAccuracy : JSNum.number;
  hours : Z;
  minutes : Z;
  hoursShown : bool;          (* "<h>h <m>m" rather than "<m>m" *)
  streak : nat
}.

Definition updateDashboardStats (tz : Streak.TimeZone) (now : Z)
    (history : list TestAttempt) : Stats :=
  let t := totals history in
  let avgAccuracy :=
    if decide (0 < sumQuestions t)
    then JSNum.scale
           (JSNum.div (Engine.count (sumCorrect t)) (Engine.count (sumQuestions t))) 100
    else JSNum.Fin 0 in
  let hours := (sumTime t `div` 3600)%Z in              (* Math.floor(totalTime / 3600) *)
  let minutes := (Z.rem (sumTime t) 3600 `div` 60)%Z in (* Math.floor((totalTime % 3600) / 60) *)
  mkStats (length history) (sumQuestions t) avgAccuracy hours minutes
          (bool_decide (0 < hours)%Z) (Streak.calculateStreak tz now history).

End Dashboard.

(* ===================================================================== *)
(** * Sample data *)
(* ===================================================================== *)

Module Sample.
Import Engine.

Definition q1 : Question :=
  mkQuestion "Which Article of the Constitution deals with the Finance Commission?"
    ["Article 263"; "Article 280"; "Article 312"; "Article 324"] 1
    "Article 280 provides for a Finance Commission." "Polity" "Constitutional bodies".

Definition q2 : Question :=
  mkQuestion "Which river is known as the Sorrow of Bihar?"
    ["Ganga"; "Son"; "Kosi"; "Gandak"] 2
    "The Kosi is known for its shifting course and floods." "Geography" "Rivers".

(** Two questions, 2 marks each, 0.66 deducted for a wrong answer. *)
Definition test2 : Test :=
  mkTest "test_1700000000000" "Prelims mini test" [q1; q2] 30 "English"
    "2023-11-14T22:13:20.000Z" (Some 2%Q) (Some (66 # 100)).

(** The same test stored with no deduction for a wrong answer. *)
Definition test2NoNegative : Test :=
  mkTest "test_1700000000000" "Prelims mini test" [q1; q2] 30 "English"
    "2023-11-14T22:13:20.000Z" (Some 2%Q) (Some 0%Q).

(** Question 1 answered correctly, question 2 answered wrongly, then the
    test is submitted. *)
Definition oneRightOneWrong (t : Test) : list Event :=
  [StartTest t 0; SelectOption 1; SaveNext 10000; SelectOption 0; Submit 20000].

(** Nothing is answered. *)
Definition allSkipped (t : Test) : list Event :=
  [StartTest t 0; SaveNext 5000; Submit 9000].

(** Question 1 is answered and marked for review, then revisited and
    its answer cleared. *)
Definition markedThenCleared : list Event :=
  [StartTest test2 0; SelectOption 1; MarkReview 5000; Previous 8000; ClearResponse].

(** Save-and-next on the last question, twice. *)
Definition nextPastTheEnd : list Event :=
  [StartTest test2 0; SaveNext 10000; SaveNext 20000; SaveNext 30000].

(** A one-minute test, started and left alone for 59 seconds: the
    interval with handle 1 has fired 59 times. *)
Definition oneMinuteTest : Test :=
  mkTest "test_1700000000001" "One minute" [q1; q2] 1 "English"
    "2023-11-14T22:13:21.000Z" (Some 2%Q) (Some (66 # 100)).

Definition lastSecond : list Event :=
  StartTest oneMinuteTest 0
    :: ((λ k : nat, TimerTick 1 (1000 * Z.of_nat k)) <$> seq 1 59).

(** A backup that holds another copy of [test2] (same id, one question)
    and a test the device does not have. *)
Definition importedCopy : Test :=
  mkTest "test_1700000000000" "Prelims mini test (from backup)" [q1] 30 "English"
    "2023-11-14T22:13:20.000Z" (Some 2%Q) (Some (66 # 100)).

Definition otherTest : Test :=
  mkTest "test_1700000000777" "Rivers" [q2] 10 "English"
    "2023-11-14T22:26:17.000Z" (Some 2%Q) (Some (66 # 100)).

Definition backupFile : Backup.BackupFile :=
  Backup.mkBackupFile (Some [importedCopy; otherTest]) (Some []).

(** An attempt of [test2] with nothing answered, completed at the
    instant [t]. *)
Definition attemptAt (t : Z) : TestAttempt :=
  mkTestAttempt (id test2) (name test2) [None; None] 600 [300%Q; 300%Q] t
    (JSNum.Fin 0) 2 0 0 2 test2.

(** India Standard Time, UTC+05:30 all year. *)
Definition IST : Streak.TimeZone := Streak.fixedZone 19800000.

(** Attempts on 31 October, 1 November (two of them) and 2 November 2026,
    most recent first, and a look at the dashboard on 3 November 2026 at
    10:00, all in IST. *)
Definition threeDays : list TestAttempt :=
  [attemptAt 1793633400000;    (* 2026-11-02 21:00 IST *)
   attemptAt 1793547000000;    (* 2026-11-01 21:00 IST *)
   attemptAt 1793502000000;    (* 2026-11-01 08:30 IST *)
   attemptAt 1793417400000].   (* 2026-10-31 09:00 IST *)
Definition morningOf3November : Z := 1793680200000.

(** US Eastern time around 8 March 2026: UTC-05:00 until 07:00 UTC of
    that day (02:00 local), UTC-04:00 from then on.  Day 20520 is
    8 March 2026, whose local midnight is still on standard time. *)
Definition usEastern2026 : Streak.TimeZone :=
  Streak.mkTimeZone
    (λ t, if decide (t < 1772953200000)%Z then -18000000 else -14400000)%Z
    (λ d, if decide (d ≤ 20520)%Z then -18000000 else -14400000)%Z.

(** Attempts at noon local time on 7, 8 and 9 March 2026, and a look at
    the dashboard on 9 March at 18:00 local time. *)
Definition acrossSpringForward : list TestAttempt :=
  [attemptAt 1773072000000;    (* 2026-03-09 12:00 EDT *)
   attemptAt 1772985600000;    (* 2026-03-08 12:00 EDT *)
   attemptAt 1772902800000].   (* 2026-03-07 12:00 EST *)
Definition eveningOf9March : Z := 1773093600000.

(** Two accounts of the backend and their tokens. *)
Definition asha : Server.TokenUser :=
  Server.mkTokenUser "user_1700000000000" "asha@example.org" "Asha".
Definition bilal : Server.TokenUser :=
  Server.mkTokenUser "user_1700000000555" "bilal@example.org" "Bilal".

Definition verifyToken (token : string) : option Server.TokenUser :=
  if decide (token = "token-of-asha") then Some asha
  else if decide (token = "token-of-bilal") then Some bilal
  else None.

Definition signToken (user : Server.TokenUser) : string :=
  "token-of-" +:+ Server.tokenName user.

Definition ashasTest : Server.Item :=
  Server.mkItem (Some "test_1") (Some "user_1700000000000") "{name: Polity}".
Definition bilalsTest : Server.Item :=
  Server.mkItem (Some "test_1") (Some "user_1700000000555") "{name: Rivers}".
Definition bilalsAttempt : Server.Item :=
  Server.mkItem (Some "attempt_1700000001000") (Some "user_1700000000555") "{score: 40}".

Definition database : Server.DB :=
  Server.mkDB [] [ashasTest; bilalsTest] [bilalsAttempt].

Definition withToken (token : string) (c : Server.Call) : Server.Request :=
  Server.mkRequest (Some ("Bearer " +:+ token)) c.

(** Lower case of the letters A-Z, the other characters unchanged: what
    [toLowerCase] does on ASCII text. *)
Definition lowerChar (c : ascii) : ascii :=
  let n := nat_of_ascii c in
  if decide (65 ≤ n ≤ 90) then ascii_of_nat (n + 32) else c.

Fixpoint asciiLower (s : string) : string :=
  match s with
  | EmptyString => EmptyString
  | String c rest => String (lowerChar c) (asciiLower rest)
  end.

(** The accounts of a device: one user, registered as "Meera" with the
    password "AaAa". *)
Definition meera : LocalAuth.User :=
  LocalAuth.mkUser "meera" (LocalAuth.hashPassword "AaAa") "Meera" 1700000000000.

(** The state a run ends in ([initial []] if an event is not enabled). *)
Definition finalState (es : list Event) : State :=
  default (initial []) (run es (initial [])).

End Sample.

(* ===================================================================== *)
(** * Specification predicates *)
(* ===================================================================== *)

Module EngineSpec.
Import Engine.

(** While the attempt view is shown a test is loaded, every array of the
    attempt has one cell per question, and the current index is one of
    them: every array write of the engine is in range. *)
Definition engine_inv (s : State) : Prop :=
  inAttemptView s = true →
  length (userAnswers s) = length (questionStatuses s) ∧
  length (timePerQuestion s) = length (questionStatuses s) ∧
  currentQuestionIndex s < length (questionStatuses s) ∧
  ∃ t, currentTest s = Some t ∧ length (questions t) = length (questionStatuses s).

(** At most one interval is live, and it is the one in [timerInterval]. *)
Definition timer_inv (s : State) : Prop :=
  0 < nextHandle s ∧
  match timerInterval s with
  | Some h => intervals s = [h] ∧ 0 < h < nextHandle s
  | None => intervals s = []
  end.

(** A timer runs only while the attempt view is shown. *)
Definition page_inv (s : State) : Prop :=
  engine_inv s ∧ timer_inv s ∧ (is_Some (timerInterval s) → inAttemptView s = true).

(** The states a run of the events of [Engine.Event] reaches from the
    loaded page. *)
Definition reachable (s : State) : Prop :=
  ∃ history es, run es (initial history) = Some s.

(** The three categories of a question at submission. *)
Definition noAnswer (answers : list (option Z)) (index : nat) (q : Question) : Prop :=
  answers !! index = Some None.
Definition answeredCorrectly (answers : list (option Z)) (index : nat) (q : Question)
    : Prop :=
  answers !! index = Some (Some (answer q)).
Definition answeredWrongly (answers : list (option Z)) (index : nat) (q : Question)
    : Prop :=
  ∃ a, answers !! index = Some (Some a) ∧ a ≠ answer q.

Global Instance noAnswer_dec answers index q : Decision (noAnswer answers index q).
Proof. unfold noAnswer. apply _. Defined.
Global Instance answeredCorrectly_dec answers index q :
  Decision (answeredCorrectly answers index q).
Proof. unfold answeredCorrectly. apply _. Defined.
Global Instance answeredWrongly_dec answers index q :
  Decision (answeredWrongly answers index q).
Proof.
  unfold answeredWrongly.
  destruct (answers !! index) as [[a|]|] eqn:E.
  - destruct (decide (a = answer q)) as [->|Hne].
    + right. intros (a' & [= <-] & Hn). congruence.
    + left. eauto.
  - right. intros (a' & [=] & _).
  - right. intros (a' & [=] & _).
Defined.

(** The number of questions, numbered from [index] on, that are in a
    category. *)
Fixpoint countFrom (P : nat → Question → Prop) `{!∀ i q, Decision (P i q)}
    (index : nat) (qs : list Question) : nat :=
  match qs with
  | [] => 0
  | q :: qs' => (if decide (P index q) then 1 else 0) + countFrom P (S index) qs'
  end.

(** What the counts of a recorded attempt must be. *)
Record wellCounted (a : TestAttempt) : Prop := {
  wc_total : totalQuestions a = length (questions (fullTest a));
  wc_sum : correctAnswers a + incorrectAnswers a + unanswered a = totalQuestions a;
  wc_partition : ∀ index q, questions (fullTest a) !! index = Some q →
    (noAnswer (att_userAnswers a) index q ∧
       ¬ answeredCorrectly (att_userAnswers a) index q ∧
       ¬ answeredWrongly (att_userAnswers a) index q) ∨
    (¬ noAnswer (att_userAnswers a) index q ∧
       answeredCorrectly (att_userAnswers a) index q ∧
       ¬ answeredWrongly (att_userAnswers a) index q) ∨
    (¬ noAnswer (att_userAnswers a) index q ∧
       ¬ answeredCorrectly (att_userAnswers a) index q ∧
       answeredWrongly (att_userAnswers a) index q);
  wc_unanswered :
    unanswered a = countFrom (noAnswer (att_userAnswers a)) 0 (questions (fullTest a));
  wc_correct :
    correctAnswers a =
    countFrom (answeredCorrectly (att_userAnswers a)) 0 (questions (fullTest a));
  wc_incorrect :
    incorrectAnswers a =
    countFrom (answeredWrongly (att_userAnswers a)) 0 (questions (fullTest a))
}.

(** An attempt as [handleSubmitTest] builds it, from a state whose answer
    array has one cell per question. *)
Definition recorded (a : TestAttempt) : Prop :=
  ∃ t now s, a = buildAttempt t now s ∧ length (userAnswers s) = length (questions t).

(** The question is marked for review. *)
Definition isMarked (st : option QuestionStatus) : Prop :=
  st = Some marked ∨ st = Some markedAndAnswered.

(** The score as the specification states it, from the fields of the
    test themselves: the percentage
    (correct*marksPerQuestion - incorrect*negativeMarking) /
    (totalQuestions*marksPerQuestion) * 100, floored at 0.  Arithmetic on
    an absent field is [NaN]. *)
Definition claimedScore (a : TestAttempt) : JSNum.number :=
  match marksPerQuestion (fullTest a), negativeMarking (fullTest a) with
  | Some m, Some g =>
      JSNum.max0
        (JSNum.scale
           (JSNum.div (count (correctAnswers a) * m - count (incorrectAnswers a) * g)
                      (count (totalQuestions a) * m)) 100)
  | _, _ => JSNum.NaN
  end.

(** The attempts a run added to the history it started with. *)
Definition newAttempts (history : list TestAttempt) (es : list Event)
    (new : list TestAttempt) : Prop :=
  ∃ s, run es (initial history) = Some s ∧ performanceHistory s = new ++ history.

(** No [StartTest] among the events. *)
Definition sameAttempt (es : list Event) : Prop :=
  Forall (λ e, match e with StartTest _ _ => False | _ => True end) es.

(** The first half of [navigateToQuestion] and of [handleSubmitTest]. *)
Definition commit (now : Z) (s : State) : State := saveCurrentAnswer (addTimeSpent now s).

(** An event leaves the history alone or puts one recorded attempt of
    the current test in front of it. *)
Definition historyStep (s s' : State) : Prop :=
  performanceHistory s' = performanceHistory s ∨
  ∃ a, recorded a ∧ currentTest s = Some (fullTest a) ∧
       performanceHistory s' = a :: performanceHistory s.

End EngineSpec.

Module BackupSpec.
Import Backup.

(** The second half of C3 as stated: a test kept for an id that is both
    in the backup and on the device is a copy from the backup. *)
Definition importedCopyWins : Prop :=
  ∀ data currentTests backupTests kept,
    dataTests data = Some backupTests →
    kept ∈ uniqueTests data currentTests →
    id kept ∈ id <$> backupTests → id kept ∈ id <$> currentTests →
    kept ∈ backupTests.

(** The first half: no id twice after a restore. *)
Definition noDuplicateIds : Prop :=
  ∀ data st, NoDup (id <$> tests (restore (Some data) true st).1).

End BackupSpec.

Module StreakSpec.

(** The latest day of a list of days. *)
Definition latest (m : Z) (days : list Z) : Prop :=
  m ∈ days ∧ ∀ d, d ∈ days → (d ≤ m)%Z.

(** Strictly descending. *)
Definition descending (l : list Z) : Prop := StronglySorted (λ a b : Z, (b < a)%Z) l.

End StreakSpec.

Module ServerSpec.
Import Server.

(** The items a response carries. *)
Definition returned (r : Response) : list Item :=
  match payload r with
  | Items l => l
  | SyncData ts als => ts ++ als
  | _ => []
  end.

(** The three reads of tests and attempts. *)
Definition isRead (c : Call) : Prop :=
  c = GetTests ∨ c = GetAttempts ∨ c = GetSync.

(** Neither register nor login. *)
Definition isDataRoute (c : Call) : Prop :=
  match c with
  | PostRegister _ _ _ | PostLogin _ _ => False
  | _ => True
  end.

(** The request carries a token that [jwt.verify] accepts as [user]. *)
Definition authenticatedAs (jwt_verify : string → option TokenUser)
    (req : Request) (user : TokenUser) : Prop :=
  ∃ token, bearerToken req = Some token ∧ jwt_verify token = Some user.

(** The array of a [POST /api/sync] body, empty when the field is absent
    or not an array. *)
Definition bodyArray (field : option (list Item)) : list Item := default [] field.

End ServerSpec.

Module LocalAuthSpec.

(** The polynomial hash with multiplier 31, without wrap-around: from
    [h], the characters of [s] from the first to the last. *)
Fixpoint polynomial (h : Z) (s : string) : Z :=
  match s with
  | EmptyString => h
  | String c rest => polynomial (31 * h + Z.of_nat (nat_of_ascii c)) rest
  end.

(** No two accounts with the same user name up to letter case. *)
Definition distinctUsers (toLowerCase : string → string) (users : list LocalAuth.User)
    : Prop :=
  NoDup ((λ u, toLowerCase (LocalAuth.username u)) <$> users).

End LocalAuthSpec.

Module ReviewSpec.

(** The number of questions that the review shows with a status. *)
Definition shownAs (st : Review.Status) (sts : list Review.Status) : nat :=
  length (filter (λ x, x = st) sts).

End ReviewSpec.

Module AttemptSpec.
Import Engine.

(** Every stored answer is the index of an option of its question. *)
Definition validAnswers (qs : list Question) (answers : list (option Z)) : Prop :=
  ∀ i q k, qs !! i = Some q → answers !! i = Some (Some k) →
    (0 ≤ k < Z.of_nat (length (options q)))%Z.

(** What the colour of a palette button says about the stored answer. *)
Definition agrees (st : QuestionStatus) (a : option Z) : Prop :=
  match st with
  | answered => is_Some a
  | notVisited | notAnswered | marked => a = None
  | markedAndAnswered => True
  end.

Definition consistent (statuses : list QuestionStatus) (answers : list (option Z))
    : Prop :=
  ∀ i st a, statuses !! i = Some st → answers !! i = Some a → agrees st a.

(** The answers, the checked radio button and the statuses during an
    attempt of [t]. *)
Record answers_inv (s : State) (t : Test) : Prop := {
  ai_answers : validAnswers (questions t) (userAnswers s);
  ai_checked : ∀ k, checkedOption s = Some k → k < renderedOptions s;
  ai_statuses : consistent (questionStatuses s) (userAnswers s);
  ai_visited : questionStatuses s !! currentQuestionIndex s ≠ Some notVisited
}.

(** The countdown during an attempt of [t]. *)
Record time_inv (s : State) (t : Test) : Prop := {
  ti_le : (timeRemaining s ≤ duration t * 60)%Z;
  ti_ge : (0 < duration t)%Z → (1 ≤ timeRemaining s)%Z
}.

Definition attempt_ok (s : State) : Prop :=
  inAttemptView s = true → ∀ t, currentTest s = Some t → answers_inv s t ∧ time_inv s t.


(** The branch of [navigateToQuestion] for a target that is a question
    of the test, from the state [c] in which the question left is
    committed. *)
Definition moveTo (j : nat) (now : Z) (t : Test) (c : State) : State :=
  let s := set_currentQuestionIndex j c in
  let s := set_questionStartTime now s in
  let s :=
    if decide (questionStatuses s !! currentQuestionIndex s = Some notVisited)
    then set_questionStatuses
           (<[currentQuestionIndex s := notAnswered]> (questionStatuses s)) s
    else s in
  match questions t !! currentQuestionIndex s with
  | Some q => renderQuestionForAttempt q s
  | None => s
  end.



End AttemptSpec.

Module AccountSpec.
Import Server.

(** No two accounts of the backend with the same email up to letter
    case. *)
Definition distinctEmails (toLowerCase : string → string) (db : DB) : Prop :=
  NoDup ((λ u, toLowerCase (userEmail u)) <$> users db).

(** The user has a stored test with the id of [body]. *)
Definition hasTest (uid : string) (body : Item) (db : DB) : Prop :=
  ∃ t, t ∈ tests db ∧ itemId t = itemId body ∧ ownedBy uid t.

End AccountSpec.

(* ===================================================================== *)
(** * Properties of the attempt engine *)
(* ===================================================================== *)


Module EngineFacts.
Import Engine EngineSpec.

Ltac crush_lengths :=
  repeat (rewrite ?length_insert, ?length_alter, ?length_replicate in * );
  try lia.

(** ** Frame lemmas *)

Lemma saveCurrentAnswer_frame s :
  let s' := saveCurrentAnswer s in
  currentTest s' = currentTest s ∧ currentQuestionIndex s' = currentQuestionIndex s ∧
  currentView s' = currentView s ∧ timerInterval s' = timerInterval s ∧
  intervals s' = intervals s ∧ nextHandle s' = nextHandle s ∧
  performanceHistory s' = performanceHistory s ∧
  timePerQuestion s' = timePerQuestion s ∧ questionStartTime s' = questionStartTime s ∧
  toasts s' = toasts s ∧ timeRemaining s' = timeRemaining s ∧
  length (userAnswers s') = length (userAnswers s) ∧
  length (questionStatuses s') = length (questionStatuses s).
Proof.
  unfold saveCurrentAnswer.
  destruct (checkedOption s); simpl; [|case_match]; simpl; crush_lengths; auto 20.
Qed.

Lemma addTimeSpent_frame now s :
  let s' := addTimeSpent now s in
  currentTest s' = currentTest s ∧ currentQuestionIndex s' = currentQuestionIndex s ∧
  currentView s' = currentView s ∧ timerInterval s' = timerInterval s ∧
  intervals s' = intervals s ∧ nextHandle s' = nextHandle s ∧
  performanceHistory s' = performanceHistory s ∧
  userAnswers s' = userAnswers s ∧ questionStatuses s' = questionStatuses s ∧
  checkedOption s' = checkedOption s ∧ questionStartTime s' = questionStartTime s ∧
  toasts s' = toasts s ∧ timeRemaining s' = timeRemaining s ∧
  length (timePerQuestion s') = length (timePerQuestion s).
Proof. unfold addTimeSpent. simpl. rewrite length_alter. auto 20. Qed.

Lemma commit_frame now s :
  let s' := commit now s in
  currentTest s' = currentTest s ∧ currentQuestionIndex s' = currentQuestionIndex s ∧
  currentView s' = currentView s ∧ timerInterval s' = timerInterval s ∧
  intervals s' = intervals s ∧ nextHandle s' = nextHandle s ∧
  performanceHistory s' = performanceHistory s ∧
  toasts s' = toasts s ∧ timeRemaining s' = timeRemaining s ∧
  length (userAnswers s') = length (userAnswers s) ∧
  length (questionStatuses s') = length (questionStatuses s) ∧
  length (timePerQuestion s') = length (timePerQuestion s).
Proof.
  unfold commit.
  pose proof (saveCurrentAnswer_frame (addTimeSpent now s)) as F.
  pose proof (addTimeSpent_frame now s) as G. simpl in F, G.
  destruct F as (F1 & F2 & F3 & F4 & F5 & F6 & F7 & F8 & F9 & F10 & F11 & F12 & F13).
  destruct G as (G1 & G2 & G3 & G4 & G5 & G6 & G7 & G8 & G9 & G10 & G11 & G12 & G13 & G14).
  simpl. repeat split; congruence.
Qed.

Lemma navigateToQuestion_frame j now s :
  let s' := navigateToQuestion j now s in
  currentTest s' = currentTest s ∧
  currentView s' = currentView s ∧ timerInterval s' = timerInterval s ∧
  intervals s' = intervals s ∧ nextHandle s' = nextHandle s ∧
  performanceHistory s' = performanceHistory s ∧
  toasts s' = toasts s ∧ timeRemaining s' = timeRemaining s ∧
  length (userAnswers s') = length (userAnswers s) ∧
  length (questionStatuses s') = length (questionStatuses s) ∧
  length (timePerQuestion s') = length (timePerQuestion s).
Proof.
  unfold navigateToQuestion. destruct (currentTest s) as [t|] eqn:Ht; [|by auto 20].
  pose proof (commit_frame now s) as F. simpl in F. unfold commit in F.
  destruct F as (F1 & F2 & F3 & F4 & F5 & F6 & F7 & F8 & F9 & F10 & F11 & F12).
  set (c := saveCurrentAnswer (addTimeSpent now s)) in *. clearbody c.
  rewrite <- Ht, <- F1, <- F3, <- F4, <- F5, <- F6, <- F7, <- F8, <- F9, <- F10, <- F11, <- F12.
  repeat case_decide; simpl; repeat case_match; simpl; crush_lengths; auto 20.
Qed.

Lemma navigateToQuestion_index j now s t :
  currentTest s = Some t →
  currentQuestionIndex (navigateToQuestion j now s) =
  if decide (0 ≤ j < Z.of_nat (length (questions t)))%Z
  then Z.to_nat j else currentQuestionIndex s.
Proof.
  intros Ht. unfold navigateToQuestion. rewrite Ht.
  pose proof (commit_frame now s) as F. simpl in F. unfold commit in F.
  destruct F as (_ & F2 & _).
  set (c := saveCurrentAnswer (addTimeSpent now s)) in *. clearbody c.
  repeat case_decide; try lia; simpl; auto;
    repeat case_match; simpl; auto.
Qed.

(** ** The invariants *)

Lemma initial_inv history : page_inv (initial history).
Proof.
  split; [|split].
  - intros H. discriminate H.
  - split; simpl; [lia | reflexivity].
  - simpl. intros [? [=]].
Qed.

Lemma inAttemptView_eq s s' :
  currentView s' = currentView s → inAttemptView s' = inAttemptView s.
Proof. unfold inAttemptView. by intros ->. Qed.

Lemma navigateToQuestion_inv j now s :
  page_inv s → page_inv (navigateToQuestion j now s).
Proof.
  intros (HE & HT & HV).
  pose proof (navigateToQuestion_frame j now s) as F. simpl in F.
  destruct F as (F1 & F2 & F3 & F4 & F5 & F6 & F7 & F8 & F9 & F10 & F11).
  split; [|split].
  - intros Hv. rewrite (inAttemptView_eq _ _ F2) in Hv.
    destruct (HE Hv) as (H1 & H2 & H3 & t & Ht & Hn).
    rewrite F9, F10, F11, F1. repeat split; auto.
    + rewrite (navigateToQuestion_index _ _ _ _ Ht). case_decide; lia.
    + eauto.
  - unfold timer_inv. rewrite F3, F4, F5. exact HT.
  - rewrite F3, (inAttemptView_eq _ _ F2). exact HV.
Qed.

Lemma markForReview_inv now s : page_inv s → page_inv (markForReview now s).
Proof.
  intros H. unfold markForReview.
  match goal with |- page_inv (navigateToQuestion ?j now ?x) => set (s1 := x) end.
  assert (page_inv s1) as H1.
  { destruct H as (HE & HT & HV). subst s1.
    assert (∀ v, page_inv (set_questionStatuses
                             (<[currentQuestionIndex s := v]> (questionStatuses s)) s))
      as Hset.
    { intros v. split; [|split]; auto.
      intros Hv. destruct (HE Hv) as (H1 & H2 & H3 & t & Ht & Hn).
      simpl. rewrite length_insert. eauto 10. }
    repeat case_match; apply Hset. }
  replace (currentQuestionIndex s) with (currentQuestionIndex s1)
    by (subst s1; repeat case_match; reflexivity).
  by apply navigateToQuestion_inv.
Qed.

Lemma clear_if_set_nil s : timer_inv s → clear_if_set s = [].
Proof.
  unfold timer_inv, clear_if_set. intros [Hn H].
  destruct (timerInterval s) as [h|]; [|done].
  destruct H as [-> Hh]. case_decide; [lia|].
  unfold clearInterval. rewrite filter_cons. case_decide; [congruence|done].
Qed.

Lemma stopTimer_timer s :
  timer_inv s → timerInterval (stopTimer s) = None ∧ intervals (stopTimer s) = [].
Proof. intros H. unfold stopTimer. simpl. by rewrite clear_if_set_nil. Qed.

Lemma startTimer_timer s :
  timer_inv s →
  timerInterval (startTimer s) = Some (nextHandle s) ∧
  intervals (startTimer s) = [nextHandle s] ∧
  nextHandle (startTimer s) = S (nextHandle s).
Proof. intros H. unfold startTimer. simpl. by rewrite clear_if_set_nil. Qed.

Lemma startTest_inv t now s :
  inAttemptView s = false → page_inv s → page_inv (startTest t now s).
Proof.
  intros Hout (HE & HT & HV). unfold startTest. simpl.
  destruct (questions t) as [|q qs] eqn:Hq; simpl.
  - split; [|split]; auto.
    intros Hv. unfold inAttemptView in *. simpl in *. congruence.
  - split; [|split]; simpl; auto.
    + intros _. simpl. rewrite ?length_replicate. repeat split; try lia.
      exists t. rewrite Hq. simpl. by rewrite ?length_replicate.
    + destruct HT as [Hn HT]. split; simpl; [lia|].
      replace (clear_if_set _) with (clear_if_set s) by reflexivity.
      rewrite clear_if_set_nil by (split; auto). split; [done|lia].
Qed.

(** ** Submission *)

#[local] Arguments commit : simpl never.
#[local] Arguments stopTimer : simpl never.
#[local] Arguments buildAttempt : simpl never.

Lemma handleSubmitTest_loaded now s t :
  currentTest s = Some t →
  handleSubmitTest now s =
  let c := commit now (stopTimer s) in
  let attempt := buildAttempt t now c in
  showToast "Test submitted successfully!" success
    (showView performanceReportView
       (set_currentAttemptForReport (Some attempt)
          (set_currentTest None
             (set_performanceHistory (attempt :: performanceHistory c) c)))).
Proof.
  intros Ht. unfold handleSubmitTest. fold (commit now (stopTimer s)).
  pose proof (commit_frame now (stopTimer s)) as F. cbv zeta in F.
  destruct F as (F1 & _). rewrite F1. simpl. by rewrite Ht.
Qed.

Lemma handleSubmitTest_missing now s :
  currentTest s = None →
  handleSubmitTest now s =
  showView dashboardView
    (showToast "Error: Test data is missing." error (commit now (stopTimer s))).
Proof.
  intros Ht. unfold handleSubmitTest. fold (commit now (stopTimer s)).
  pose proof (commit_frame now (stopTimer s)) as F. cbv zeta in F.
  destruct F as (F1 & _). rewrite F1. simpl. by rewrite Ht.
Qed.

Lemma handleSubmitTest_timer now s :
  timer_inv s →
  timerInterval (handleSubmitTest now s) = None ∧
  intervals (handleSubmitTest now s) = [] ∧
  nextHandle (handleSubmitTest now s) = nextHandle s.
Proof.
  intros HT.
  pose proof (commit_frame now (stopTimer s)) as F. cbv zeta in F.
  destruct F as (_ & _ & _ & F4 & F5 & F6 & _).
  destruct (stopTimer_timer s HT) as [S1 S2].
  destruct (currentTest s) as [t|] eqn:Ht.
  - rewrite (handleSubmitTest_loaded _ _ _ Ht). simpl.
    rewrite F4, F5, F6, S1, S2. done.
  - rewrite (handleSubmitTest_missing _ _ Ht). simpl.
    rewrite F4, F5, F6, S1, S2. done.
Qed.

Lemma handleSubmitTest_view now s : inAttemptView (handleSubmitTest now s) = false.
Proof.
  destruct (currentTest s) as [t|] eqn:Ht.
  - by rewrite (handleSubmitTest_loaded _ _ _ Ht).
  - by rewrite (handleSubmitTest_missing _ _ Ht).
Qed.

Lemma handleSubmitTest_inv now s : page_inv s → page_inv (handleSubmitTest now s).
Proof.
  intros (HE & HT & HV).
  destruct (handleSubmitTest_timer now s HT) as (T1 & T2 & T3).
  split; [|split].
  - intros Hv. by rewrite handleSubmitTest_view in Hv.
  - unfold timer_inv. rewrite T1, T2, T3. split; [apply HT|done].
  - rewrite T1. intros [? [=]].
Qed.

(** What a submission does to the history. *)
Lemma handleSubmitTest_history now s :
  inAttemptView s = true → engine_inv s →
  ∃ a, recorded a ∧ currentTest s = Some (fullTest a) ∧
       performanceHistory (handleSubmitTest now s) = a :: performanceHistory s.
Proof.
  intros Hv HE. destruct (HE Hv) as (H1 & H2 & H3 & t & Ht & Hn).
  pose proof (commit_frame now (stopTimer s)) as F. cbv zeta in F.
  destruct F as (F1 & F2 & F3 & F4 & F5 & F6 & F7 & F8 & F9 & F10 & F11 & F12).
  rewrite (handleSubmitTest_loaded _ _ _ Ht). simpl.
  exists (buildAttempt t now (commit now (stopTimer s))). split; [|split].
  - exists t, now, (commit now (stopTimer s)). split; [done|].
    rewrite F10. unfold stopTimer. simpl. congruence.
  - by rewrite Ht.
  - rewrite F7. done.
Qed.

(** ** The timer callback and abandoning *)

Lemma stopTimer_inv s : page_inv s → page_inv (stopTimer s).
Proof.
  intros (HE & HT & HV). destruct (stopTimer_timer s HT) as [S1 S2].
  split; [|split].
  - exact HE.
  - unfold timer_inv. rewrite S1, S2. split; [apply HT|done].
  - rewrite S1. intros [? [=]].
Qed.

Lemma timerTick_unfold now s :
  timerTick now s =
  let s1 := set_timeRemaining (timeRemaining s - 1)%Z s in
  if decide (timeRemaining s - 1 ≤ 0)%Z
  then handleSubmitTest now
         (showToast "Time's up! Submitting test..." warning (stopTimer s1))
  else s1.
Proof. reflexivity. Qed.

Lemma timerTick_inv now s : page_inv s → page_inv (timerTick now s).
Proof.
  intros H. rewrite timerTick_unfold. cbv zeta.
  assert (page_inv (set_timeRemaining (timeRemaining s - 1)%Z s)) as H1 by exact H.
  case_decide; [|done].
  apply handleSubmitTest_inv. exact (stopTimer_inv _ H1).
Qed.

Lemma abandonTest_inv s : page_inv s → page_inv (abandonTest s).
Proof.
  intros H. destruct (stopTimer_inv _ H) as (HE & HT & HV).
  unfold abandonTest. split; [|split].
  - intros Hv. discriminate Hv.
  - exact HT.
  - intros Hs. exfalso.
    destruct (stopTimer_timer s (proj1 (proj2 H))) as [S1 _].
    change (is_Some (timerInterval (stopTimer s))) in Hs.
    rewrite S1 in Hs. by destruct Hs.
Qed.

(** ** Every event keeps the invariants and only appends recorded attempts *)

Lemma dispatch_cases e s s' :
  dispatch e s = Some s' →
  match e with
  | StartTest t now => inAttemptView s = false ∧ s' = startTest t now s
  | TimerTick h now => h ∈ intervals s ∧ s' = timerTick now s
  | SelectOption k =>
      inAttemptView s = true ∧ k < renderedOptions s ∧ s' = set_checkedOption (Some k) s
  | ClearResponse => inAttemptView s = true ∧ s' = set_checkedOption None s
  | SaveNext now =>
      inAttemptView s = true ∧
      s' = navigateToQuestion (Z.of_nat (currentQuestionIndex s) + 1) now s
  | Previous now =>
      inAttemptView s = true ∧
      s' = navigateToQuestion (Z.of_nat (currentQuestionIndex s) - 1) now s
  | PaletteClick j now =>
      inAttemptView s = true ∧ j < paletteButtons s ∧
      s' = if decide (j = currentQuestionIndex s) then s
           else navigateToQuestion (Z.of_nat j) now s
  | MarkReview now => inAttemptView s = true ∧ s' = markForReview now s
  | Submit now => inAttemptView s = true ∧ s' = handleSubmitTest now s
  | Abandon => inAttemptView s = true ∧ s' = abandonTest s
  end.
Proof.
  unfold dispatch. destruct e; destruct (inAttemptView s); repeat case_decide;
    intros [=]; subst; auto.
Qed.

Lemma dispatch_inv e s s' : page_inv s → dispatch e s = Some s' → page_inv s'.
Proof.
  intros H E. apply dispatch_cases in E. destruct e.
  - destruct E as [Hv ->]. by apply startTest_inv.
  - destruct E as (Hv & _ & ->). exact H.
  - destruct E as (Hv & ->). exact H.
  - destruct E as (Hv & ->). by apply navigateToQuestion_inv.
  - destruct E as (Hv & ->). by apply navigateToQuestion_inv.
  - destruct E as (Hv & _ & ->). case_decide; [done|]. by apply navigateToQuestion_inv.
  - destruct E as (Hv & ->). by apply markForReview_inv.
  - destruct E as (Hv & ->). by apply handleSubmitTest_inv.
  - destruct E as (Hv & ->). by apply abandonTest_inv.
  - destruct E as (Hv & ->). by apply timerTick_inv.
Qed.

Lemma markForReview_history now s :
  performanceHistory (markForReview now s) = performanceHistory s.
Proof.
  unfold markForReview.
  match goal with |- context [navigateToQuestion ?j ?n ?x] =>
    pose proof (navigateToQuestion_frame j n x) as F end.
  cbv zeta in F. destruct F as (_ & _ & _ & _ & _ & F & _). rewrite F.
  by repeat case_match.
Qed.

Lemma live_timer_in_view h s : page_inv s → h ∈ intervals s → inAttemptView s = true.
Proof.
  intros (HE & [_ HT] & HV) Hh. apply HV.
  destruct (timerInterval s); [by eexists|].
  rewrite HT in Hh. by apply not_elem_of_nil in Hh.
Qed.

Lemma dispatch_history e s s' :
  page_inv s → dispatch e s = Some s' → historyStep s s'.
Proof.
  intros H E. apply dispatch_cases in E. unfold historyStep. destruct e.
  - destruct E as [Hv ->]. left. unfold startTest. simpl. by case_match.
  - destruct E as (Hv & _ & ->). by left.
  - destruct E as (Hv & ->). by left.
  - destruct E as (Hv & ->). left. apply navigateToQuestion_frame.
  - destruct E as (Hv & ->). left. apply navigateToQuestion_frame.
  - destruct E as (Hv & _ & ->). left. case_decide; [done|].
    apply navigateToQuestion_frame.
  - destruct E as (Hv & ->). left. apply markForReview_history.
  - destruct E as (Hv & ->). right. apply handleSubmitTest_history; [done|apply H].
  - destruct E as (Hv & ->). by left.
  - destruct E as (Hh & ->). rewrite timerTick_unfold. cbv zeta.
    case_decide; [|by left]. right.
    pose proof (live_timer_in_view _ _ H Hh) as Hv.
    match goal with |- context [handleSubmitTest now ?x] =>
      destruct (handleSubmitTest_history now x) as (a & Ha & Hc & Hh') end;
      [exact Hv | exact (proj1 H) |].
    exists a. split; [done|]. split; [exact Hc|]. rewrite Hh'. done.
Qed.

Lemma run_inv es s s' : page_inv s → run es s = Some s' → page_inv s'.
Proof.
  revert s. induction es as [|e es IH]; intros s H; simpl.
  - by intros [= <-].
  - destruct (dispatch e s) as [s1|] eqn:E; [|done].
    apply IH. by eapply dispatch_inv.
Qed.

Lemma reachable_inv s : reachable s → page_inv s.
Proof. intros (history & es & H). eapply run_inv; [apply initial_inv|exact H]. Qed.

Lemma run_history es s s' :
  page_inv s → run es s = Some s' →
  ∃ new, performanceHistory s' = new ++ performanceHistory s ∧ Forall recorded new.
Proof.
  revert s. induction es as [|e es IH]; intros s H; simpl.
  - intros [= <-]. by exists [].
  - destruct (dispatch e s) as [s1|] eqn:E; [|done]. intros Hr.
    destruct (IH s1 (dispatch_inv _ _ _ H E) Hr) as (new & Hn & Hf).
    destruct (dispatch_history _ _ _ H E) as [Hs|(a & Ha & _ & Hs)].
    + exists new. by rewrite Hn, Hs.
    + exists (new ++ [a]). split.
      * by rewrite Hn, Hs, <- app_assoc.
      * apply Forall_app. split; [done|]. by constructor.
Qed.

(** ** The tally *)

Lemma tallyFrom_sum answers qs : ∀ index acc,
  let r := tallyFrom answers index qs acc in
  tallyCorrect r + tallyIncorrect r + tallyUnanswered r =
  tallyCorrect acc + tallyIncorrect acc + tallyUnanswered acc + length qs.
Proof.
  induction qs as [|q qs IH]; intros index acc; simpl; [lia|].
  rewrite IH. unfold tallyStep.
  destruct (answers !! index) as [[a|]|]; [case_decide| |]; simpl; lia.
Qed.

Lemma tallyFrom_counts answers qs : ∀ index acc,
  index + length qs ≤ length answers →
  let r := tallyFrom answers index qs acc in
  tallyUnanswered r = tallyUnanswered acc + countFrom (noAnswer answers) index qs ∧
  tallyCorrect r = tallyCorrect acc + countFrom (answeredCorrectly answers) index qs ∧
  tallyIncorrect r = tallyIncorrect acc + countFrom (answeredWrongly answers) index qs.
Proof.
  induction qs as [|q qs IH]; intros index acc Hlen; simpl in *; [lia|].
  destruct (IH (S index) (tallyStep answers acc index q)) as (IU & IC & II); [lia|].
  rewrite IU, IC, II. clear IH IU IC II.
  destruct (lookup_lt_is_Some_2 answers index) as [x Hx]; [lia|].
  unfold tallyStep. rewrite Hx.
  destruct x as [a|].
  - destruct (decide (a = answer q)) as [->|Hne]; simpl.
    + rewrite (decide_False (P := noAnswer _ _ _)) by (unfold noAnswer; congruence).
      rewrite (decide_True (P := answeredCorrectly _ _ _)) by exact Hx.
      rewrite (decide_False (P := answeredWrongly _ _ _))
        by (intros (a' & Ha' & Hn); congruence).
      lia.
    + rewrite (decide_False (P := noAnswer _ _ _)) by (unfold noAnswer; congruence).
      rewrite (decide_False (P := answeredCorrectly _ _ _))
        by (unfold answeredCorrectly; congruence).
      rewrite (decide_True (P := answeredWrongly _ _ _)) by (exists a; auto).
      lia.
  - simpl.
    rewrite (decide_True (P := noAnswer _ _ _)) by exact Hx.
    rewrite (decide_False (P := answeredCorrectly _ _ _))
      by (unfold answeredCorrectly; congruence).
    rewrite (decide_False (P := answeredWrongly _ _ _))
      by (intros (a' & Ha' & Hn); congruence).
    lia.
Qed.

Lemma recorded_wellCounted a : recorded a → wellCounted a.
Proof.
  intros (t & now & s & -> & Hlen).
  pose proof (tallyFrom_sum (userAnswers s) (questions t) 0 (mkTally 0 0 0)) as Hsum.
  destruct (tallyFrom_counts (userAnswers s) (questions t) 0 (mkTally 0 0 0))
    as (HU & HC & HI); [lia|].
  cbv zeta in *. simpl in *.
  split; unfold buildAttempt; simpl; unfold tally; try done; try lia.
  intros index q Hq.
  destruct (lookup_lt_is_Some_2 (userAnswers s) index) as [x Hx].
  { rewrite Hlen. eapply lookup_lt_Some, Hq. }
  unfold noAnswer, answeredCorrectly, answeredWrongly. rewrite Hx.
  destruct x as [x|]; [destruct (decide (x = answer q)) as [->|Hne]|].
  - right; left. split; [congruence|]. split; [done|].
    intros (a' & [= <-] & Hn). done.
  - right; right. split; [congruence|]. split; [congruence|]. eauto.
  - left. split; [done|]. split; [congruence|]. intros (a' & [=] & _).
Qed.

(** ** Counts at submission *)

(** C2.  Whatever the user did during the attempts (any run of events
    from the loaded page), every attempt the run recorded has
    correct + incorrect + unanswered = number of questions, each question
    in exactly one of the three categories and each count the size of its
    category; and submitting in the state reached records such an attempt
    for the test being taken. *)
Theorem submission_counts_partition_questions history es s :
  run es (initial history) = Some s →
  (∃ new, performanceHistory s = new ++ history ∧ Forall wellCounted new) ∧
  (∀ now s', dispatch (Submit now) s = Some s' →
     ∃ t a, currentTest s = Some t ∧ fullTest a = t ∧
            performanceHistory s' = a :: performanceHistory s ∧
            correctAnswers a + incorrectAnswers a + unanswered a = length (questions t) ∧
            wellCounted a).
Proof.
  intros Hrun. pose proof (run_inv _ _ _ (initial_inv history) Hrun) as Hinv. split.
  - destruct (run_history _ _ _ (initial_inv history) Hrun) as (new & Hn & Hf).
    exists new. split; [exact Hn|].
    eapply Forall_impl; [exact Hf|]. exact recorded_wellCounted.
  - intros now s' E. apply dispatch_cases in E. destruct E as [Hv ->].
    destruct (handleSubmitTest_history now s Hv (proj1 Hinv)) as (a & Ha & Hc & Hh).
    pose proof (recorded_wellCounted a Ha) as W.
    exists (fullTest a), a. repeat split; try done; try apply W.
    rewrite (wc_sum a W). apply W.
Qed.

Lemma submission_counts_witness :
  (∃ new, performanceHistory (Sample.finalState (Sample.oneRightOneWrong Sample.test2))
          = new ++ [] ∧ Forall wellCounted new).
Proof.
  refine (proj1 (submission_counts_partition_questions []
                   (Sample.oneRightOneWrong Sample.test2) _ _)).
  vm_compute. reflexivity.
Defined.

(** ** Marked questions stay marked *)

Lemma isMarked_is_marked st : isMarked st ↔ is_marked st = true.
Proof.
  unfold isMarked. split.
  - by intros [-> | ->].
  - destruct st as [[]|]; simpl; intros; try discriminate; auto.
Qed.

Lemma insert_keeps_marked (l : list QuestionStatus) i j v :
  isMarked (l !! i) → (j = i → isMarked (Some v)) → isMarked (<[j := v]> l !! i).
Proof.
  intros Hm Hv. destruct (decide (j = i)) as [->|Hne].
  - destruct (decide (i < length l)) as [Hlt|Hge].
    + rewrite list_lookup_insert_eq by done. auto.
    + rewrite list_insert_ge by lia. done.
  - by rewrite list_lookup_insert_ne.
Qed.

Lemma saveCurrentAnswer_marked s i :
  isMarked (questionStatuses s !! i) →
  isMarked (questionStatuses (saveCurrentAnswer s) !! i).
Proof.
  intros Hm. unfold saveCurrentAnswer. destruct (checkedOption s); simpl.
  - apply insert_keeps_marked; [done|]. intros Heq. subst i.
    apply isMarked_is_marked in Hm. rewrite Hm. by right.
  - case_match eqn:E; simpl; [done|].
    apply insert_keeps_marked; [done|]. intros Heq. subst i.
    apply isMarked_is_marked in Hm. congruence.
Qed.

Lemma commit_marked now s i :
  isMarked (questionStatuses s !! i) →
  isMarked (questionStatuses (commit now s) !! i).
Proof. intros Hm. unfold commit. by apply saveCurrentAnswer_marked. Qed.

Lemma navigateToQuestion_marked j now s i :
  isMarked (questionStatuses s !! i) →
  isMarked (questionStatuses (navigateToQuestion j now s) !! i).
Proof.
  intros Hm. unfold navigateToQuestion. destruct (currentTest s) as [t|]; [|done].
  pose proof (commit_marked now s i Hm) as Hc. unfold commit in Hc.
  set (c := saveCurrentAnswer (addTimeSpent now s)) in *. clearbody c.
  repeat case_decide; simpl in *; try done.
  - case_match; simpl; apply insert_keeps_marked; try done;
      intros Heq; subst i; destruct Hc as [Hc|Hc]; congruence.
  - by case_match.
Qed.

Lemma markForReview_marked now s i :
  isMarked (questionStatuses s !! i) →
  isMarked (questionStatuses (markForReview now s) !! i).
Proof.
  intros Hm. unfold markForReview. apply navigateToQuestion_marked.
  repeat case_match; simpl; apply insert_keeps_marked; try done;
    intros _; by (left + right).
Qed.

Lemma handleSubmitTest_marked now s i :
  isMarked (questionStatuses s !! i) →
  isMarked (questionStatuses (handleSubmitTest now s) !! i).
Proof.
  intros Hm. pose proof (commit_marked now (stopTimer s) i Hm) as Hc.
  destruct (currentTest s) as [t|] eqn:Ht.
  - by rewrite (handleSubmitTest_loaded _ _ _ Ht).
  - by rewrite (handleSubmitTest_missing _ _ Ht).
Qed.

Lemma dispatch_marked e s s' i :
  sameAttempt [e] → dispatch e s = Some s' →
  isMarked (questionStatuses s !! i) → isMarked (questionStatuses s' !! i).
Proof.
  intros Hsame E Hm. apply dispatch_cases in E. destruct e.
  - by inversion Hsame.
  - by destruct E as (_ & _ & ->).
  - by destruct E as (_ & ->).
  - destruct E as (_ & ->). by apply navigateToQuestion_marked.
  - destruct E as (_ & ->). by apply navigateToQuestion_marked.
  - destruct E as (_ & _ & ->). case_decide; [done|].
    by apply navigateToQuestion_marked.
  - destruct E as (_ & ->). by apply markForReview_marked.
  - destruct E as (_ & ->). by apply handleSubmitTest_marked.
  - by destruct E as (_ & ->).
  - destruct E as (_ & ->). rewrite timerTick_unfold. cbv zeta.
    case_decide; [|done]. by apply handleSubmitTest_marked.
Qed.

(** C9.  During an attempt (a run of events without [StartTest]), a
    question whose status is 'marked' or 'markedAndAnswered' keeps one of
    these two statuses, so it never returns to 'notAnswered' or
    'answered'; and committing a cleared answer on a 'markedAndAnswered'
    question leaves the status and stores [null]. *)
Theorem marked_status_is_never_lost :
  (∀ es s s' i,
     sameAttempt es → run es s = Some s' →
     isMarked (questionStatuses s !! i) → isMarked (questionStatuses s' !! i)) ∧
  (∀ s,
     currentQuestionIndex s < length (userAnswers s) →
     questionStatuses s !! currentQuestionIndex s = Some markedAndAnswered →
     checkedOption s = None →
     questionStatuses (saveCurrentAnswer s) !! currentQuestionIndex s
       = Some markedAndAnswered ∧
     userAnswers (saveCurrentAnswer s) !! currentQuestionIndex s = Some None).
Proof.
  split.
  - induction es as [|e es IH]; intros s s' i Hsame; simpl.
    + by intros [= <-].
    + destruct (dispatch e s) as [s1|] eqn:E; [|done]. intros Hr Hm.
      inversion Hsame as [|? ? He Hes]; subst.
      apply (IH s1 s' i Hes Hr).
      eapply dispatch_marked; [|exact E|exact Hm]. by constructor.
  - intros s Hlt Hst Hc. unfold saveCurrentAnswer. rewrite Hc. simpl.
    rewrite Hst. simpl. split; [done|].
    by rewrite list_lookup_insert_eq.
Qed.

Lemma marked_status_witness :
  isMarked (questionStatuses
              (Sample.finalState (Sample.markedThenCleared ++ [SaveNext 9000; Submit 10000]))
            !! 0) ∧
  (questionStatuses (saveCurrentAnswer (Sample.finalState Sample.markedThenCleared)) !! 0
     = Some markedAndAnswered ∧
   userAnswers (saveCurrentAnswer (Sample.finalState Sample.markedThenCleared)) !! 0
     = Some None).
Proof.
  split.
  - refine (proj1 marked_status_is_never_lost [SaveNext 9000; Submit 10000]
              (Sample.finalState Sample.markedThenCleared) _ 0 _ _ _).
    + repeat constructor.
    + vm_compute. reflexivity.
    + right. vm_compute. reflexivity.
  - refine (proj2 marked_status_is_never_lost
              (Sample.finalState Sample.markedThenCleared) _ _ _).
    + vm_compute. lia.
    + vm_compute. reflexivity.
    + vm_compute. reflexivity.
Defined.

(** ** Navigation *)



(** X3.  In [part_000] every navigation resets the stopwatch. *)
Lemma legacy_navigateToQuestion_resets j now s t :
  currentTest s = Some t →
  questionStartTime (Legacy.navigateToQuestion j now s) = now.
Proof.
  intros Ht. unfold Legacy.navigateToQuestion. rewrite Ht.
  pose proof (saveCurrentAnswer_frame (addTimeSpent now s)) as F. cbv zeta in F.
  destruct F as (F & _). change (currentTest (addTimeSpent now s)) with (currentTest s) in F.
  rewrite F, Ht.
  repeat case_decide; simpl; repeat case_match; simpl; done.
Qed.

(** C5 (defect in [src/index.tsx]).  Two questions; the user moves to the
    last question at 10 s, presses save-and-next there at 20 s and again
    at 30 s.  The index stays on the last question, but the stopwatch
    still reads 10 s after the press at 20 s, so the press at 30 s adds
    20 s to a bucket that had already been given the first 10 of them:
    the question was viewed for 20 s and is charged 30 s.  With
    [navigateToQuestion] of [part_000] the stopwatch is reset and the
    bucket holds 20 s. *)
Theorem stopwatch_not_reset_past_last_question :
  let s1 := Sample.finalState [StartTest Sample.test2 0; SaveNext 10000] in
  let s2 := navigateToQuestion 2 20000 s1 in
  let s3 := navigateToQuestion 2 30000 s2 in
  run Sample.nextPastTheEnd (initial []) = Some s3 ∧
  currentQuestionIndex s2 = 1 ∧
  questionStartTime s2 = 10000%Z ∧
  Qred <$> timePerQuestion s3 = [10%Q; 30%Q] ∧
  questionStartTime (Legacy.navigateToQuestion 2 20000 s1) = 20000%Z ∧
  Qred <$> timePerQuestion
             (Legacy.navigateToQuestion 2 30000 (Legacy.navigateToQuestion 2 20000 s1))
    = [10%Q; 20%Q].
Proof. vm_compute. repeat split; reflexivity. Qed.

(** ** The countdown *)

Lemma nothing_but_start_after_submit s :
  inAttemptView s = false → intervals s = [] →
  ∀ e s', dispatch e s = Some s' → ∃ t now, e = StartTest t now.
Proof.
  intros Hv Hi e s' E. apply dispatch_cases in E.
  destruct e; try (destruct E as [Hv' _]; congruence); [by eauto|].
  destruct E as [Hh _]. rewrite Hi in Hh. by apply not_elem_of_nil in Hh.
Qed.

Lemma timerTick_expiry h now s :
  page_inv s → h ∈ intervals s → (timeRemaining s ≤ 1)%Z →
  ∃ a, performanceHistory (timerTick now s) = a :: performanceHistory s ∧
       currentTest s = Some (fullTest a) ∧
       toasts (timerTick now s) =
         ("Test submitted successfully!", success)
           :: ("Time's up! Submitting test...", warning) :: toasts s ∧
       timerInterval (timerTick now s) = None ∧
       intervals (timerTick now s) = [] ∧
       inAttemptView (timerTick now s) = false.
Proof.
  intros H Hh Hle. pose proof (live_timer_in_view _ _ H Hh) as Hv.
  rewrite timerTick_unfold. cbv zeta. rewrite decide_True by lia.
  set (x := showToast "Time's up! Submitting test..." warning
              (stopTimer (set_timeRemaining (timeRemaining s - 1)%Z s))).
  assert (page_inv x) as Hx.
  { exact (stopTimer_inv (set_timeRemaining (timeRemaining s - 1)%Z s) H). }
  destruct (handleSubmitTest_history now x Hv (proj1 Hx)) as (a & Ha & Hc & Hh').
  destruct (handleSubmitTest_timer now x (proj1 (proj2 Hx))) as (T1 & T2 & T3).
  exists a. rewrite Hh', T1, T2, handleSubmitTest_view.
  repeat split; try done.
  destruct (proj1 H Hv) as (_ & _ & _ & t & Ht & _).
  assert (currentTest x = Some t) as Hxt by exact Ht.
  rewrite (handleSubmitTest_loaded _ _ _ Hxt). cbv zeta. simpl.
  pose proof (commit_frame now (stopTimer x)) as F. cbv zeta in F.
  destruct F as (_ & _ & _ & _ & _ & _ & _ & F & _). rewrite F. done.
Qed.

(** C6.  In every state the page can reach: when an interval fires with
    at most one second left, one attempt is added to the history, the
    user is told, the timer is cleared, and after that no interval can
    fire and no control of the attempt can be used (only a new test can
    be started); a tick with more time left only counts down; starting a
    timer leaves exactly the new interval live; submitting and abandoning
    leave none. *)
Theorem timer_expiry_submits_exactly_once s :
  reachable s →
  (∀ h now, h ∈ intervals s → (timeRemaining s ≤ 1)%Z →
     ∃ s' a, dispatch (TimerTick h now) s = Some s' ∧
       performanceHistory s' = a :: performanceHistory s ∧
       currentTest s = Some (fullTest a) ∧
       toasts s' = ("Test submitted successfully!", success)
                     :: ("Time's up! Submitting test...", warning) :: toasts s ∧
       timerInterval s' = None ∧ intervals s' = [] ∧
       (∀ h' now', dispatch (TimerTick h' now') s' = None) ∧
       (∀ e s'', dispatch e s' = Some s'' → ∃ t now', e = StartTest t now')) ∧
  (∀ h now, h ∈ intervals s → (1 < timeRemaining s)%Z →
     dispatch (TimerTick h now) s = Some (set_timeRemaining (timeRemaining s - 1)%Z s)) ∧
  (timerInterval (startTimer s) = Some (nextHandle s) ∧
   intervals (startTimer s) = [nextHandle s] ∧
   ∀ h, timerInterval s = Some h → h ∉ intervals (startTimer s)) ∧
  (∀ now, timerInterval (handleSubmitTest now s) = None ∧
          intervals (handleSubmitTest now s) = []) ∧
  (timerInterval (abandonTest s) = None ∧ intervals (abandonTest s) = []).
Proof.
  intros Hr. pose proof (reachable_inv s Hr) as H.
  pose proof (proj1 (proj2 H)) as HT.
  split; [|split; [|split; [|split]]].
  - intros h now Hh Hle.
    destruct (timerTick_expiry h now s H Hh Hle) as (a & H1 & H2 & H3 & H4 & H5 & H6).
    exists (timerTick now s), a.
    pose proof (nothing_but_start_after_submit _ H6 H5) as Honly.
    repeat split; try done.
    + unfold dispatch. by rewrite decide_True.
    + intros h' now'. destruct (dispatch (TimerTick h' now') (timerTick now s)) eqn:E; [|done].
      destruct (Honly _ _ E) as (t & n & [=]).
  - intros h now Hh Hgt. unfold dispatch. rewrite decide_True by done.
    rewrite timerTick_unfold. cbv zeta. by rewrite decide_False by lia.
  - destruct (startTimer_timer s HT) as (S1 & S2 & S3). repeat split; try done.
    intros h Hsome. rewrite S2. intros Hin. apply list_elem_of_singleton in Hin.
    destruct HT as [_ HT]. rewrite Hsome in HT. lia.
  - intros now. destruct (handleSubmitTest_timer now s HT) as (T1 & T2 & _). done.
  - unfold abandonTest. simpl. apply (stopTimer_timer s HT).
Qed.

Lemma timer_expiry_witness :
  ∃ s' a, dispatch (TimerTick 1 60000) (Sample.finalState Sample.lastSecond) = Some s' ∧
    performanceHistory s' = [a] ∧ timerInterval s' = None ∧ intervals s' = [].
Proof.
  assert (reachable (Sample.finalState Sample.lastSecond)) as Hr.
  { exists [], Sample.lastSecond. vm_compute. reflexivity. }
  destruct (proj1 (timer_expiry_submits_exactly_once _ Hr) 1 60000%Z)
    as (s' & a & H1 & H2 & _ & _ & H5 & H6 & _).
  - vm_compute. left.
  - vm_compute. discriminate.
  - exists s', a. repeat split; assumption.
Defined.

End EngineFacts.

(* ===================================================================== *)
(** * Score and accuracy *)
(* ===================================================================== *)

Module ScoreFacts.
Import Engine EngineSpec EngineFacts.

Lemma Qlt_bool_iff x y : JSNum.Qlt_bool x y = true ↔ (x < y)%Q.
Proof.
  unfold JSNum.Qlt_bool. rewrite negb_true_iff. split.
  - intros H. apply Qnot_le_lt. intros Hle. apply Qle_bool_iff in Hle. congruence.
  - intros H. destruct (Qle_bool y x) eqn:E; [|done].
    apply Qle_bool_iff in E. exfalso. apply (Qlt_not_le _ _ H E).
Qed.

Lemma div_positive a b : (0 < b)%Q → JSNum.div a b = JSNum.Fin (a / b).
Proof.
  intros Hb. unfold JSNum.div. destruct (Qeq_bool b 0) eqn:E; [|done].
  apply Qeq_bool_iff in E. rewrite E in Hb. by apply Qlt_irrefl in Hb.
Qed.

Lemma scorePercentage_value t c i :
  ((0 < totalMaxScore t)%Q →
     scorePercentage t c i =
     JSNum.Fin (Qmax 0 (rawScore t c i / totalMaxScore t * 100))) ∧
  (¬ (0 < totalMaxScore t)%Q → scorePercentage t c i = JSNum.Fin 0).
Proof.
  unfold scorePercentage. split; intros H.
  - rewrite (proj2 (Qlt_bool_iff _ _) H). by rewrite div_positive.
  - destruct (JSNum.Qlt_bool 0 (totalMaxScore t)) eqn:E; [|done].
    apply Qlt_bool_iff in E. done.
Qed.

Lemma or_default_present x d :
  ¬ (x == 0)%Q → JSNum.or_default (Some x) d = x.
Proof.
  intros H. unfold JSNum.or_default. destruct (Qeq_bool x 0) eqn:E; [|done].
  apply Qeq_bool_iff in E. done.
Qed.

Lemma new_attempts_recorded history es new :
  newAttempts history es new → Forall recorded new.
Proof.
  intros (s & Hrun & Hh).
  destruct (run_history _ _ _ (initial_inv history) Hrun) as (new' & Hn & Hf).
  simpl in Hn. rewrite Hn in Hh. apply app_inv_tail in Hh. by subst.
Qed.

Lemma count_positive n : 0 < n → (0 < count n)%Q.
Proof. intros H. unfold count, inject_Z, Qlt. simpl. lia. Qed.

Lemma recorded_score a :
  recorded a →
  let t := fullTest a in
  let M := JSNum.or_default (marksPerQuestion t) 2 in
  let G := JSNum.or_default (negativeMarking t) (66 # 100) in
  let raw := (count (correctAnswers a) * M - count (incorrectAnswers a) * G)%Q in
  let max := (count (totalQuestions a) * M)%Q in
  ((0 < max)%Q → score a = JSNum.Fin (Qmax 0 (raw / max * 100))) ∧
  (¬ (0 < max)%Q → score a = JSNum.Fin 0).
Proof.
  intros (t & now & s & -> & Hlen). cbv zeta.
  exact (scorePercentage_value t _ _).
Qed.

(** The score that [handleSubmitTest] of [src/index.tsx] records.  For
    every attempt a run records, with M the test's marksPerQuestion, or 2
    when that is absent or 0, and G its negativeMarking, or 0.66 when
    that is absent or 0: the score is
    (correct*M - incorrect*G) / (totalQuestions*M) * 100 floored at 0 when
    totalQuestions*M is positive, and 0 otherwise; so it is the stated
    formula whenever the test has a question, positive marksPerQuestion
    and a negativeMarking other than 0.  With 2 questions, 2 marks, 0.66
    deducted, one right and one wrong answer, the attempt records
    correct=1, incorrect=1, unanswered=0 and score 33.5. *)
Theorem recorded_score_is_floored_percentage :
  (∀ history es new a,
     newAttempts history es new → a ∈ new →
     let t := fullTest a in
     let M := JSNum.or_default (marksPerQuestion t) 2 in
     let G := JSNum.or_default (negativeMarking t) (66 # 100) in
     let raw := (count (correctAnswers a) * M - count (incorrectAnswers a) * G)%Q in
     let max := (count (totalQuestions a) * M)%Q in
     ((0 < max)%Q → score a = JSNum.Fin (Qmax 0 (raw / max * 100))) ∧
     (¬ (0 < max)%Q → score a = JSNum.Fin 0) ∧
     (∀ m g, marksPerQuestion t = Some m → negativeMarking t = Some g →
             (0 < m)%Q → ¬ (g == 0)%Q → 0 < totalQuestions a →
             JSNum.eqv (score a) (claimedScore a))) ∧
  (∃ a, newAttempts [] (Sample.oneRightOneWrong Sample.test2) [a] ∧
        correctAnswers a = 1 ∧ incorrectAnswers a = 1 ∧ unanswered a = 0 ∧
        JSNum.eqv (score a) (JSNum.Fin (335 # 10))).
Proof.
  split.
  - intros history es new a Hnew Ha.
    pose proof (new_attempts_recorded _ _ _ Hnew) as Hf.
    rewrite Forall_forall in Hf. specialize (Hf a Ha).
    destruct (recorded_score a Hf) as [Hpos Hnon]. cbv zeta in *.
    split; [exact Hpos|]. split; [exact Hnon|].
    intros m g Hm Hg Hmpos Hgne Hn.
    unfold claimedScore. rewrite Hm, Hg in *.
    assert (¬ (m == 0)%Q) as Hmne by (intros E; rewrite E in Hmpos; by apply Qlt_irrefl in Hmpos).
    rewrite (or_default_present m 2 Hmne) in Hpos.
    rewrite (or_default_present g (66 # 100) Hgne) in Hpos.
    assert (0 < count (totalQuestions a) * m)%Q as Hmax.
    { apply Qmult_lt_0_compat; [by apply count_positive|done]. }
    rewrite (Hpos Hmax). rewrite div_positive by done. simpl. reflexivity.
  - eexists. split; [|split; [|split; [|split]]].
    + eexists. split; [vm_compute; reflexivity|]. vm_compute. reflexivity.
    + reflexivity.
    + reflexivity.
    + reflexivity.
    + vm_compute. reflexivity.
Qed.

(** The arithmetic of the example in binary64, the number format of
    JavaScript: (1*2 - 1*0.66) / (2*2) * 100 is exactly 33.5 there too
    (0x1.51eb851eb851fp-1 is the double nearest to 0.66). *)
Example score_example_binary64 :
  PrimFloat.eqb
    (PrimFloat.mul
       (PrimFloat.div
          (PrimFloat.sub (PrimFloat.mul 1 2) (PrimFloat.mul 1 0x1.51eb851eb851fp-1))
          (PrimFloat.mul 2 2))
       100)
    33.5 = true.
Proof. vm_compute. reflexivity. Qed.

Lemma recorded_score_witness :
  ∃ a, newAttempts [] (Sample.oneRightOneWrong Sample.test2) [a] ∧
       JSNum.eqv (score a) (claimedScore a).
Proof.
  destruct (proj2 recorded_score_is_floored_percentage) as (a & Hnew & _).
  exists a. split; [exact Hnew|].
  assert (a ∈ [a]) as Hin by apply list_elem_of_here.
  destruct (proj1 recorded_score_is_floored_percentage [] _ [a] a Hnew Hin)
    as (_ & _ & H).
  destruct Hnew as (s & Hrun & Hh).
  vm_compute in Hrun. injection Hrun as <-.
  vm_compute in Hh. injection Hh as <-.
  refine (H (2%Q) (66 # 100) eq_refl eq_refl _ _ _).
  - reflexivity.
  - discriminate.
  - vm_compute. lia.
Defined.

(** The recorded score is not always the formula on the fields of the
    test: a stored test with negativeMarking 0 is scored with 0.66
    deducted for the wrong answer (33.5), not with the formula on its own
    fields (50). *)
Lemma score_is_not_the_stated_formula :
  ¬ (∀ history es new a,
       newAttempts history es new → a ∈ new →
       JSNum.eqv (score a) (claimedScore a)).
Proof.
  intros H.
  pose (s := Sample.finalState (Sample.oneRightOneWrong Sample.test2NoNegative)).
  destruct (performanceHistory s) as [|a l] eqn:E; [vm_compute in E; discriminate|].
  assert (newAttempts [] (Sample.oneRightOneWrong Sample.test2NoNegative) (a :: l)) as Hnew.
  { exists s. split; [vm_compute; reflexivity|]. rewrite app_nil_r. exact E. }
  specialize (H _ _ _ a Hnew (list_elem_of_here _ _)).
  vm_compute in E. injection E as <- <-.
  vm_compute in H. discriminate H.
Qed.

(** With the defaults of [part_000] (1 mark, no deduction) the test
    stored with negativeMarking 0 is scored 50, as the stated formula has
    it. *)
Example legacy_score_without_deduction :
  JSNum.eqv (Legacy.scorePercentage Sample.test2NoNegative 1 1) (JSNum.Fin 50).
Proof. vm_compute. reflexivity. Qed.

(** C1 (defect in [src/index.tsx]).  A test stored with 2 questions,
    2 marks per question and negativeMarking 0 (the older build creates
    such tests and keeps them in the same storage; a backup can hold
    them); one question answered correctly and one incorrectly.
    [handleSubmitTest] reads the field as [negativeMarking || 0.66],
    takes the stored 0 for a missing value and deducts 0.66: it records
    33.5, where the formula on the fields of the test gives
    (1*2 - 1*0) / (2*2) * 100 = 50.  [part_000] reads the field as
    [negativeMarking || 0] and records 50. *)
Theorem stored_zero_deduction_is_scored_with_066 :
  ∃ a, newAttempts [] (Sample.oneRightOneWrong Sample.test2NoNegative) [a] ∧
       marksPerQuestion (fullTest a) = Some 2%Q ∧
       negativeMarking (fullTest a) = Some 0%Q ∧
       totalQuestions a = 2 ∧
       correctAnswers a = 1 ∧ incorrectAnswers a = 1 ∧ unanswered a = 0 ∧
       JSNum.eqv (score a) (JSNum.Fin (335 # 10)) ∧
       JSNum.eqv (claimedScore a) (JSNum.Fin 50) ∧
       JSNum.eqv (Legacy.scorePercentage (fullTest a) 1 1) (JSNum.Fin 50).
Proof.
  eexists. split.
  - eexists. split; [vm_compute; reflexivity|]. vm_compute. reflexivity.
  - vm_compute. repeat split; reflexivity.
Qed.

(** ** Accuracy *)

(** Without its guard the expression is [NaN] when nothing was
    attempted. *)
Lemma unguarded_accuracy_is_NaN a :
  Report.attemptedCount a = 0 → Report.unguardedAccuracy a = JSNum.NaN.
Proof.
  unfold Report.unguardedAccuracy, Report.attemptedCount. intros H.
  rewrite H. assert (correctAnswers a = 0) as -> by lia. reflexivity.
Qed.

(** C7.  The accuracy of the report is
    correctAnswers / (correctAnswers + incorrectAnswers) as a percentage
    when correctAnswers + incorrectAnswers is positive and 0 when it is
    0, so it is never [NaN]; and an attempt recorded with every question
    unanswered has accuracy 0 and score 0. *)
Theorem accuracy_is_guarded :
  (∀ a,
     (correctAnswers a + incorrectAnswers a = 0 → Report.accuracy a = JSNum.Fin 0) ∧
     (0 < correctAnswers a + incorrectAnswers a →
        Report.accuracy a =
        JSNum.Fin (inject_Z (Z.of_nat (correctAnswers a))
                     / inject_Z (Z.of_nat (correctAnswers a + incorrectAnswers a)) * 100)) ∧
     Report.accuracy a ≠ JSNum.NaN) ∧
  (∀ history es new a,
     newAttempts history es new → a ∈ new →
     unanswered a = totalQuestions a →
     Report.accuracy a = JSNum.Fin 0 ∧ JSNum.eqv (score a) (JSNum.Fin 0)).
Proof.
  assert (∀ a, 0 < correctAnswers a + incorrectAnswers a →
            Report.accuracy a =
            JSNum.Fin (inject_Z (Z.of_nat (correctAnswers a))
                         / inject_Z (Z.of_nat (correctAnswers a + incorrectAnswers a))
                         * 100)) as Hpos.
  { intros a H. unfold Report.accuracy, Report.attemptedCount.
    rewrite decide_True by done.
    rewrite div_positive by (by apply count_positive). reflexivity. }
  assert (∀ a, correctAnswers a + incorrectAnswers a = 0 →
            Report.accuracy a = JSNum.Fin 0) as Hzero.
  { intros a H. unfold Report.accuracy, Report.attemptedCount.
    rewrite decide_False by lia. reflexivity. }
  split.
  - intros a. split; [apply Hzero|]. split; [apply Hpos|].
    destruct (decide (0 < correctAnswers a + incorrectAnswers a)) as [H|H].
    + by rewrite (Hpos a H).
    + rewrite (Hzero a) by lia. done.
  - intros history es new a Hnew Ha Hall.
    pose proof (new_attempts_recorded _ _ _ Hnew) as Hf.
    rewrite Forall_forall in Hf. specialize (Hf a Ha).
    pose proof (recorded_wellCounted a Hf) as W.
    pose proof (wc_sum a W) as Hsum.
    assert (correctAnswers a = 0 ∧ incorrectAnswers a = 0) as [Hc Hi] by lia.
    split.
    + apply Hzero. lia.
    + destruct (recorded_score a Hf) as [Hp Hn]. cbv zeta in *.
      rewrite Hc, Hi in Hp.
      match type of Hn with ¬ (0 < ?m)%Q → _ =>
        destruct (Qlt_le_dec 0 m) as [Hlt|Hle] end.
      * rewrite (Hp Hlt). simpl.
        match goal with |- (Qmax 0 ?x == 0)%Q => assert (x == 0)%Q as -> end.
        { unfold count in *. simpl. field.
          split; intros E; rewrite E in Hlt;
            [rewrite Qmult_0_r in Hlt | rewrite Qmult_0_l in Hlt];
            by apply Qlt_irrefl in Hlt. }
        reflexivity.
      * rewrite Hn; [simpl; reflexivity|]. by apply Qle_not_lt.
Qed.

(** One right and one wrong answer: accuracy 50.  Nothing answered:
    accuracy 0 and score 0. *)
Lemma accuracy_witness :
  (∃ a, newAttempts [] (Sample.oneRightOneWrong Sample.test2) [a] ∧
        correctAnswers a = 1 ∧ incorrectAnswers a = 1 ∧
        Report.accuracy a = JSNum.Fin (1 / 2 * 100)) ∧
  (∃ a, newAttempts [] (Sample.allSkipped Sample.test2) [a] ∧
        correctAnswers a = 0 ∧ incorrectAnswers a = 0 ∧
        Report.accuracy a = JSNum.Fin 0 ∧ JSNum.eqv (score a) (JSNum.Fin 0)).
Proof.
  split.
  - pose (s := Sample.finalState (Sample.oneRightOneWrong Sample.test2)).
    destruct (performanceHistory s) as [|a l] eqn:E; [vm_compute in E; discriminate|].
    assert (l = []) as -> by (vm_compute in E; by injection E as _ <-).
    assert (newAttempts [] (Sample.oneRightOneWrong Sample.test2) [a]) as Hnew.
    { exists s. split; [vm_compute; reflexivity|]. rewrite app_nil_r. exact E. }
    exists a. split; [exact Hnew|].
    vm_compute in E. injection E as <-.
    split; [reflexivity|]. split; [reflexivity|].
    refine (proj1 (proj2 (proj1 accuracy_is_guarded _)) _).
    vm_compute. lia.
  - pose (s := Sample.finalState (Sample.allSkipped Sample.test2)).
    destruct (performanceHistory s) as [|a l] eqn:E; [vm_compute in E; discriminate|].
    assert (l = []) as -> by (vm_compute in E; by injection E as _ <-).
    assert (newAttempts [] (Sample.allSkipped Sample.test2) [a]) as Hnew.
    { exists s. split; [vm_compute; reflexivity|]. rewrite app_nil_r. exact E. }
    exists a. split; [exact Hnew|].
    assert (correctAnswers a = 0 ∧ incorrectAnswers a = 0) as [Hc Hi]
      by (vm_compute in E; injection E as <-; by split).
    split; [exact Hc|]. split; [exact Hi|].
    refine (proj2 accuracy_is_guarded [] _ [a] a Hnew (list_elem_of_here _ _) _).
    vm_compute in E. injection E as <-. reflexivity.
Defined.

End ScoreFacts.

(* ===================================================================== *)
(** * Restoring a backup *)
(* ===================================================================== *)

Module BackupFacts.
Import Backup BackupSpec.

Lemma mapGet_mapSet k v k' m :
  mapGet k' (mapSet k v m) = if decide (k = k') then Some v else mapGet k' m.
Proof.
  induction m as [|[k0 v0] m IH]; simpl.
  - by case_decide.
  - destruct (decide (k0 = k)) as [->|Hne]; simpl.
    + by repeat case_decide.
    + rewrite IH. repeat case_decide; congruence.
Qed.

Lemma mapSet_keys k v m :
  (mapSet k v m).*1 = if decide (k ∈ m.*1) then m.*1 else m.*1 ++ [k].
Proof.
  induction m as [|[k0 v0] m IH]; cbn [mapSet fmap list_fmap fst].
  - rewrite decide_False; [done|]. apply not_elem_of_nil.
  - destruct (decide (k0 = k)) as [->|Hne]; cbn [fmap list_fmap fst].
    + rewrite decide_True; [done|]. apply list_elem_of_here.
    + rewrite IH. destruct (decide (k ∈ m.*1)) as [Hin|Hnin].
      * rewrite decide_True; [done|]. by apply list_elem_of_further.
      * rewrite decide_False; [done|].
        intros [?|?]%elem_of_cons; congruence.
Qed.

Lemma mapSet_NoDup k v m : NoDup m.*1 → NoDup (mapSet k v m).*1.
Proof.
  intros H. rewrite mapSet_keys. case_decide; [done|].
  apply NoDup_app. split; [done|]. split; [|apply NoDup_singleton].
  intros x Hx Hxk. apply list_elem_of_singleton in Hxk. by subst.
Qed.

Lemma mapGet_elem_of k v m : NoDup m.*1 → (k, v) ∈ m ↔ mapGet k m = Some v.
Proof.
  induction m as [|[k0 v0] m IH]; simpl; intros Hnd.
  - split; [intros H; by apply not_elem_of_nil in H|done].
  - apply NoDup_cons in Hnd as [Hnin Hnd]. rewrite elem_of_cons.
    destruct (decide (k0 = k)) as [->|Hne].
    + split; [|intros [= ->]; by left].
      intros [[= ->]|Hin]; [done|]. exfalso. apply Hnin.
      apply list_elem_of_fmap. by exists (k, v).
    + rewrite <- (IH Hnd). split; [|by right].
      intros [[= -> ->]|Hin]; [done|done].
Qed.

Lemma newMap_snoc es e : newMap (es ++ [e]) = mapSet e.1 e.2 (newMap es).
Proof. unfold newMap. by rewrite foldl_snoc. Qed.

Lemma newMap_NoDup es : NoDup (newMap es).*1.
Proof.
  induction es as [|e es IH] using rev_ind.
  - constructor.
  - rewrite newMap_snoc. by apply mapSet_NoDup.
Qed.

Lemma newMap_keys es k : k ∈ (newMap es).*1 ↔ k ∈ es.*1.
Proof.
  induction es as [|e es IH] using rev_ind.
  - done.
  - rewrite newMap_snoc, mapSet_keys, fmap_app, elem_of_app. simpl.
    rewrite list_elem_of_singleton. case_decide as Hin.
    + rewrite IH. split; [by left|]. intros [?| ->]; [done|]. by apply IH.
    + rewrite elem_of_app, list_elem_of_singleton, IH. done.
Qed.

(** The value of a key is that of the last entry with this key. *)
Lemma newMap_get es k :
  mapGet k (newMap es) = snd <$> last (filter (λ e, e.1 = k) es).
Proof.
  induction es as [|e es IH] using rev_ind.
  - done.
  - rewrite newMap_snoc, mapGet_mapSet, filter_app, filter_cons, filter_nil.
    destruct (decide (e.1 = k)) as [He|He].
    + by rewrite last_snoc.
    + by rewrite app_nil_r.
Qed.

Lemma filter_entries k (l : list Test) :
  filter (λ e : string * Test, e.1 = k) ((λ item, (id item, item)) <$> l)
  = (λ item, (id item, item)) <$> filter (λ t, id t = k) l.
Proof.
  induction l as [|t l IH]; [done|].
  rewrite fmap_cons, !filter_cons. simpl. rewrite IH.
  by destruct (decide (id t = k)).
Qed.

(** The kept copy for an id is the last test of [newTests] with it. *)
Lemma uniqueTests_kept data currentTests kept :
  kept ∈ uniqueTests data currentTests ↔
  lastWithId (id kept) (newTests data currentTests) = Some kept.
Proof.
  unfold uniqueTests, values, lastWithId.
  set (nt := newTests data currentTests).
  set (es := (λ item, (id item, item)) <$> nt).
  assert (∀ k v, mapGet k (newMap es) = Some v ↔
                 last (filter (λ t, id t = k) nt) = Some v) as Hget.
  { intros k v. rewrite newMap_get. unfold es. rewrite filter_entries, fmap_last.
    destruct (last (filter (λ t, id t = k) nt)); simpl; split; congruence. }
  split.
  - intros Hin. apply list_elem_of_fmap in Hin as ([k v] & -> & Hin). simpl.
    apply (mapGet_elem_of _ _ _ (newMap_NoDup es)) in Hin.
    pose proof (proj1 (Hget k v) Hin) as Hl.
    assert (id v = k) as <-; [|done].
    apply last_Some_elem_of in Hl. by apply list_elem_of_filter in Hl as [? _].
  - intros Hl. apply Hget in Hl.
    apply (mapGet_elem_of _ _ _ (newMap_NoDup es)) in Hl.
    apply list_elem_of_fmap. by exists (id kept, kept).
Qed.

Lemma ids_of_values (m : JSMap) :
  Forall (λ e : string * Test, id e.2 = e.1) m → id <$> m.*2 = m.*1.
Proof.
  induction 1 as [|[k v] m Hkv Hf IH]; [done|].
  rewrite !fmap_cons. cbn [fst snd] in *. by rewrite IH, Hkv.
Qed.

Lemma uniqueTests_ids data currentTests :
  id <$> uniqueTests data currentTests
  = (newMap ((λ item, (id item, item)) <$> newTests data currentTests)).*1.
Proof.
  unfold uniqueTests, values.
  set (es := (λ item, (id item, item)) <$> newTests data currentTests).
  assert (Forall (λ e : string * Test, id e.2 = e.1) (newMap es)) as Hf.
  { apply Forall_forall. intros [k v] Hin. simpl.
    apply (mapGet_elem_of _ _ _ (newMap_NoDup es)) in Hin.
    rewrite newMap_get in Hin. unfold es in Hin. rewrite filter_entries, fmap_last in Hin.
    destruct (last (filter (λ t, id t = k) (newTests data currentTests))) as [t|] eqn:E;
      [|done].
    simpl in Hin. injection Hin as <-.
    apply last_Some_elem_of in E. by apply list_elem_of_filter in E as [? _]. }
  by apply ids_of_values.
Qed.

Lemma lastWithId_app_r i l1 l2 :
  i ∈ id <$> l2 → lastWithId i (l1 ++ l2) = lastWithId i l2.
Proof.
  intros Hin. unfold lastWithId. rewrite filter_app.
  apply list_elem_of_fmap in Hin as (t & -> & Hin).
  assert (filter (λ t0, id t0 = id t) l2 ≠ []) as Hne.
  { intros E. eapply (filter_nil_not_elem_of _ _ _ E); [|exact Hin]. done. }
  rewrite last_app. destruct (last (filter (λ t0, id t0 = id t) l2)) eqn:E; [done|].
  by apply last_None in E.
Qed.

Lemma lastWithId_app_l i l1 l2 :
  i ∉ id <$> l2 → lastWithId i (l1 ++ l2) = lastWithId i l1.
Proof.
  intros Hnin. unfold lastWithId. rewrite filter_app.
  assert (filter (λ t0, id t0 = i) l2 = []) as ->; [|by rewrite app_nil_r].
  induction l2 as [|t l2 IH]; [done|].
  rewrite filter_cons. rewrite fmap_cons, not_elem_of_cons in Hnin.
  destruct Hnin as [Hne Hnin]. rewrite decide_False by congruence. by apply IH.
Qed.

(** C3, as the code has it.  After a confirmed restore no id appears
    twice in the stored tests, the ids are those of the backup and of the
    device together, and the copy kept for an id is the last test with
    this id in [backup ++ local]: for an id the device already had, the
    device's own copy; for another id, the copy of the backup. *)
Theorem restore_keeps_one_copy_per_id data st :
  let restored := tests (restore (Some data) true st).1 in
  NoDup (id <$> restored) ∧
  (∀ i, i ∈ id <$> restored ↔
        i ∈ id <$> tests st ∨ ∃ ts, dataTests data = Some ts ∧ i ∈ id <$> ts) ∧
  (∀ kept, kept ∈ restored →
     (id kept ∈ id <$> tests st → lastWithId (id kept) (tests st) = Some kept) ∧
     (id kept ∉ id <$> tests st →
        ∃ ts, dataTests data = Some ts ∧ lastWithId (id kept) ts = Some kept)).
Proof.
  cbn [restore fst tests]. split; [|split].
  - rewrite uniqueTests_ids. apply newMap_NoDup.
  - intros i. rewrite uniqueTests_ids, newMap_keys, <- list_fmap_compose.
    unfold newTests. destruct (dataTests data) as [ts|].
    + rewrite fmap_app, elem_of_app. split.
      * intros [H|H]; [right; eauto|by left].
      * intros [H|(ts0 & [= <-] & H)]; [by right|by left].
    + split; [by left|]. intros [H|(ts0 & [=] & _)]. done.
  - intros kept Hk. apply uniqueTests_kept in Hk. unfold newTests in Hk.
    destruct (dataTests data) as [ts|]; split; intros Hin.
    + by rewrite lastWithId_app_r in Hk.
    + exists ts. split; [done|]. by rewrite lastWithId_app_l in Hk.
    + done.
    + exfalso. apply Hin. unfold lastWithId in Hk.
      apply last_Some_elem_of, list_elem_of_filter in Hk as [_ Hk].
      by apply list_elem_of_fmap_2.
Qed.

Lemma restore_witness :
  lastWithId "test_1700000000000" [Sample.test2] = Some Sample.test2 ∧
  ∃ ts, dataTests Sample.backupFile = Some ts ∧
        lastWithId "test_1700000000777" ts = Some Sample.otherTest.
Proof.
  pose (st := mkStorage [Sample.test2] []).
  destruct (restore_keeps_one_copy_per_id Sample.backupFile st) as (_ & _ & H).
  split.
  - refine (proj1 (H Sample.test2 _) _).
    + vm_compute. apply list_elem_of_here.
    + vm_compute. apply list_elem_of_here.
  - refine (proj2 (H Sample.otherTest _) _).
    + vm_compute. apply list_elem_of_further, list_elem_of_here.
    + vm_compute. intros Hin. apply list_elem_of_singleton in Hin. discriminate Hin.
Defined.

(** C3 as stated fails: the device has [test2], the backup holds another
    copy with the same id; the restore keeps the copy of the device. *)
Lemma imported_copy_does_not_win : ¬ (noDuplicateIds ∧ importedCopyWins).
Proof.
  intros [_ H].
  specialize (H Sample.backupFile [Sample.test2]
                [Sample.importedCopy; Sample.otherTest] Sample.test2 eq_refl).
  assert (Sample.test2 ∈ [Sample.importedCopy; Sample.otherTest]) as Hin.
  { apply H.
    - vm_compute. apply list_elem_of_here.
    - vm_compute. apply list_elem_of_here.
    - vm_compute. apply list_elem_of_here. }
  apply elem_of_cons in Hin as [Hin|Hin]; [discriminate Hin|].
  apply list_elem_of_singleton in Hin. discriminate Hin.
Qed.

End BackupFacts.

(* ===================================================================== *)
(** * The streak *)
(* ===================================================================== *)

Module StreakFacts.
Import Streak StreakSpec.

(** ** [new Set] *)

Lemma newSet_elem_of dates : ∀ seen x,
  x ∈ newSet seen dates ↔ x ∈ dates ∧ x ∉ seen.
Proof.
  induction dates as [|d dates IH]; intros seen x; simpl.
  - split; [intros H; by apply not_elem_of_nil in H|].
    intros [H _]. by apply not_elem_of_nil in H.
  - case_decide as Hd.
    + rewrite IH. split.
      * intros [H Hn]. split; [by apply list_elem_of_further|done].
      * intros [H Hn]. apply elem_of_cons in H as [->|H]; [done|by split].
    + rewrite elem_of_cons, IH. split.
      * intros [->|[H Hn]].
        -- split; [apply list_elem_of_here|done].
        -- split; [by apply list_elem_of_further|].
           intros Hs. apply Hn. by apply list_elem_of_further.
      * intros [H Hn]. apply elem_of_cons in H as [->|H]; [by left|].
        destruct (decide (x = d)) as [->|Hne]; [by left|]. right.
        split; [done|]. intros Hs. apply elem_of_cons in Hs as [?|?]; done.
Qed.

Lemma newSet_NoDup dates : ∀ seen, NoDup (newSet seen dates).
Proof.
  induction dates as [|d dates IH]; intros seen; simpl; [constructor|].
  case_decide; [apply IH|]. constructor; [|apply IH].
  rewrite newSet_elem_of. intros [_ Hn]. apply Hn. by left.
Qed.

(** ** A zone without daylight saving *)

Section FixedZone.
Variable offset : Z.
Let tz : TimeZone := fixedZone offset.

Lemma getTime_fixed d : getTime tz d = (d * msPerDay - offset)%Z.
Proof. reflexivity. Qed.

Lemma comparator_fixed a b : (comparator tz a b ≤ 0)%Z ↔ (b ≤ a)%Z.
Proof. unfold comparator. rewrite !getTime_fixed. unfold msPerDay. lia. Qed.

Lemma diff_fixed prev curr :
  Qeq_bool (diff tz prev curr) 1 = true ↔ (prev - curr = 1)%Z.
Proof.
  rewrite Qeq_bool_iff. unfold diff. rewrite !getTime_fixed.
  replace (prev * msPerDay - offset - (curr * msPerDay - offset))%Z
    with ((prev - curr) * msPerDay)%Z by lia.
  rewrite inject_Z_mult. unfold msPerDay. split.
  - intros H. assert (inject_Z (prev - curr) == 1)%Q as H1.
    { rewrite <- H. field. }
    unfold Qeq, inject_Z in H1. simpl in H1. lia.
  - intros ->. reflexivity.
Qed.

Lemma yesterday_fixed now :
  toDateString tz (now - 86400000) = (toDateString tz now - 1)%Z.
Proof.
  unfold toDateString, msPerDay. simpl.
  replace (now - 86400000 + offset)%Z with (now + offset + (-1) * 86400000)%Z by lia.
  rewrite Z.div_add by lia. lia.
Qed.

Lemma toDateString_mono t t' :
  (t ≤ t')%Z → (toDateString tz t ≤ toDateString tz t')%Z.
Proof.
  intros H. unfold toDateString, msPerDay. simpl.
  apply Z.div_le_mono; lia.
Qed.

(** *** The sort *)

Lemma sortInsert_elem_of a l x : x ∈ sortInsert tz a l ↔ x = a ∨ x ∈ l.
Proof.
  induction l as [|b l IH]; simpl.
  - rewrite list_elem_of_singleton. split; [by left|].
    intros [H|H]; [done|by apply not_elem_of_nil in H].
  - case_decide.
    + by rewrite elem_of_cons.
    + rewrite !elem_of_cons, IH. tauto.
Qed.

Lemma sortInsert_descending a l :
  a ∉ l → descending l → descending (sortInsert tz a l).
Proof.
  unfold descending. induction l as [|b l IH]; simpl; intros Hn Hs.
  - repeat constructor.
  - apply not_elem_of_cons in Hn as [Hne Hn].
    apply StronglySorted_cons in Hs as [Hall Hs].
    case_decide as Hc.
    + rewrite comparator_fixed in Hc.
      apply StronglySorted_cons. split.
      * constructor; [simpl; lia|]. eapply Forall_impl; [exact Hall|].
        simpl. intros; lia.
      * by apply StronglySorted_cons.
    + rewrite comparator_fixed in Hc.
      apply StronglySorted_cons. split; [|by apply IH].
      apply Forall_forall. intros x Hx. apply sortInsert_elem_of in Hx as [->|Hx].
      * lia.
      * rewrite Forall_forall in Hall. by apply Hall.
Qed.

Lemma sort_elem_of l x : x ∈ sort tz l ↔ x ∈ l.
Proof.
  induction l as [|a l IH]; simpl; [done|].
  rewrite sortInsert_elem_of, elem_of_cons, IH. done.
Qed.

Lemma sort_descending l : NoDup l → descending (sort tz l).
Proof.
  induction 1 as [|a l Hn Hnd IH]; simpl; [constructor|].
  apply sortInsert_descending; [|done]. by rewrite sort_elem_of.
Qed.

Lemma uniqueDates_elem_of history d :
  d ∈ uniqueDates tz history ↔ d ∈ attemptDays tz history.
Proof.
  unfold uniqueDates, attemptDays. rewrite sort_elem_of, newSet_elem_of.
  split; [by intros [? _]|]. intros H. split; [done|]. apply not_elem_of_nil.
Qed.

Lemma uniqueDates_descending history : descending (uniqueDates tz history).
Proof. apply sort_descending, newSet_NoDup. Qed.

(** *** The loop *)

Lemma streakLoop_run d0 rest :
  descending (d0 :: rest) →
  let k := streakLoop tz d0 rest in
  (∀ j, (0 ≤ j ≤ Z.of_nat k)%Z → (d0 - j)%Z ∈ d0 :: rest) ∧
  (d0 - Z.of_nat k - 1)%Z ∉ d0 :: rest.
Proof.
  revert d0. induction rest as [|curr rest IH]; intros d0 Hs; simpl.
  - split.
    + intros j Hj. replace (d0 - j)%Z with d0 by lia. apply list_elem_of_here.
    + rewrite list_elem_of_singleton. lia.
  - apply StronglySorted_cons in Hs as [Hall Hs].
    pose proof (Forall_inv Hall) as Hlt. simpl in Hlt.
    destruct (Qeq_bool (diff tz d0 curr) 1) eqn:E.
    + apply (proj1 (diff_fixed d0 curr)) in E. destruct (IH curr Hs) as [Hin Hout].
      cbv zeta in *. split.
      * intros j Hj. destruct (decide (j = 0%Z)) as [->|Hj0].
        -- replace (d0 - 0)%Z with d0 by lia. apply list_elem_of_here.
        -- apply list_elem_of_further.
           replace (d0 - j)%Z with (curr - (j - 1))%Z by lia. apply Hin. lia.
      * rewrite not_elem_of_cons. split; [lia|].
        replace (d0 - Z.of_nat (S (streakLoop tz curr rest)) - 1)%Z
          with (curr - Z.of_nat (streakLoop tz curr rest) - 1)%Z by lia.
        exact Hout.
    + assert (prev_gap : (d0 - curr ≠ 1)%Z).
      { intros H. apply (proj2 (diff_fixed d0 curr)) in H. congruence. }
      split.
      * intros j Hj. replace (d0 - j)%Z with d0 by lia. apply list_elem_of_here.
      * simpl. rewrite not_elem_of_cons. split; [lia|].
        intros Hin. rewrite Forall_forall in Hall.
        specialize (Hall _ Hin). simpl in Hall.
        apply elem_of_cons in Hin as [Heq|Hin]; [lia|].
        apply StronglySorted_cons in Hs as [Hall' _].
        rewrite Forall_forall in Hall'. specialize (Hall' _ Hin). simpl in Hall'. lia.
Qed.

Lemma descending_head_latest d0 rest m :
  descending (d0 :: rest) → latest m (d0 :: rest) → m = d0.
Proof.
  intros Hs [Hin Hmax]. apply StronglySorted_cons in Hs as [Hall _].
  apply elem_of_cons in Hin as [->|Hin]; [done|].
  rewrite Forall_forall in Hall. specialize (Hall _ Hin). simpl in Hall.
  specialize (Hmax d0 (list_elem_of_here _ _)). lia.
Qed.

End FixedZone.

(** X16.  In a zone with a constant UTC offset the streak is what the
    specification says: with [m] the latest day that has an attempt, if
    [m] is today or yesterday the streak is the length of the unbroken run
    of days with an attempt that ends at [m] (the days [m], [m - 1], ...,
    [m - streak + 1] have one, the day [m - streak] has none); if [m] is
    older than yesterday the streak is 0; an empty history gives 0.  An
    attempt completed before [now] is not dated after today. *)
Theorem streak_counts_run_in_fixed_zone offset now history :
  let tz := fixedZone offset in
  let today := toDateString tz now in
  let days := attemptDays tz history in
  let k := Z.of_nat (calculateStreak tz now history) in
  (history = [] → k = 0%Z) ∧
  (∀ m, latest m days →
     ((m = today ∨ m = (today - 1)%Z) →
        (1 ≤ k)%Z ∧ (∀ j, (0 ≤ j < k)%Z → (m - j)%Z ∈ days) ∧ (m - k)%Z ∉ days) ∧
     ((m < today - 1)%Z → k = 0%Z)) ∧
  (∀ h, h ∈ history → (completedAt h ≤ now)%Z →
        (toDateString tz (completedAt h) ≤ today)%Z).
Proof.
  cbv zeta. split; [by intros ->|]. split.
  - intros m Hm.
    assert (latest m (uniqueDates (fixedZone offset) history)) as Hl.
    { destruct Hm as [Hin Hmax]. split.
      - by apply uniqueDates_elem_of.
      - intros d Hd. apply Hmax. by apply uniqueDates_elem_of in Hd. }
    pose proof (uniqueDates_descending offset history) as Hs.
    assert (history ≠ []) as Hne.
    { intros ->. destruct Hm as [Hin _]. by apply not_elem_of_nil in Hin. }
    unfold calculateStreak. destruct history as [|h0 hs]; [done|].
    set (u := uniqueDates (fixedZone offset) (h0 :: hs)) in *.
    destruct u as [|d0 rest] eqn:Eu.
    { destruct Hl as [Hin _]. by apply not_elem_of_nil in Hin. }
    pose proof (descending_head_latest _ _ _ Hs Hl) as ->.
    rewrite yesterday_fixed.
    destruct (streakLoop_run offset d0 rest Hs) as [Hrun Hstop]. cbv zeta in *.
    split.
    + intros Hend. rewrite decide_True by done.
      split; [lia|]. split.
      * intros j Hj. rewrite <- (uniqueDates_elem_of offset (h0 :: hs)).
        fold u. rewrite Eu. apply Hrun. lia.
      * rewrite <- (uniqueDates_elem_of offset (h0 :: hs)). fold u. rewrite Eu.
        replace (d0 - Z.of_nat (S (streakLoop (fixedZone offset) d0 rest)))%Z
          with (d0 - Z.of_nat (streakLoop (fixedZone offset) d0 rest) - 1)%Z by lia.
        exact Hstop.
    + intros Hold. rewrite decide_False; [done|]. lia.
  - intros h _ Hle. by apply toDateString_mono.
Qed.

(** Attempts on three consecutive days that end yesterday: streak 3. *)
Example streak_three_days :
  attemptDays Sample.IST Sample.threeDays = [20759; 20758; 20758; 20757]%Z ∧
  toDateString Sample.IST Sample.morningOf3November = 20760%Z ∧
  calculateStreak Sample.IST Sample.morningOf3November Sample.threeDays = 3.
Proof. vm_compute. repeat split; reflexivity. Qed.

(** C4 (defect).  In a zone with daylight saving the local midnights of
    two consecutive days are 23 hours apart on the day the clocks go
    forward, so [diff] is 23/24 and not 1, and the loop stops: for
    attempts on 7, 8 and 9 March 2026 (US Eastern time), read on 9 March,
    [calculateStreak] returns 1 where the three consecutive days make a
    streak of 3.  The same instants in a zone fixed at UTC-05:00 give 3. *)
Theorem streak_breaks_when_clocks_go_forward :
  attemptDays Sample.usEastern2026 Sample.acrossSpringForward
    = [20521; 20520; 20519]%Z ∧
  toDateString Sample.usEastern2026 Sample.eveningOf9March = 20521%Z ∧
  Qred (diff Sample.usEastern2026 20521 20520) = (23 # 24)%Q ∧
  calculateStreak Sample.usEastern2026 Sample.eveningOf9March Sample.acrossSpringForward
    = 1 ∧
  calculateStreak (fixedZone (-18000000)) Sample.eveningOf9March Sample.acrossSpringForward
    = 3.
Proof. vm_compute. repeat split; reflexivity. Qed.

End StreakFacts.

(* ===================================================================== *)
(** * The backend *)
(* ===================================================================== *)

Module ServerFacts.
Import Server ServerSpec.

Lemma filter_owned_stamp uid (l : list Item) :
  filter (ownedBy uid) (stamp uid <$> l) = stamp uid <$> l.
Proof.
  induction l as [|x l IH]; [done|].
  rewrite fmap_cons, filter_cons, decide_True by done. by rewrite IH.
Qed.

Lemma filter_other_stamp uid (P : Item → Prop) `{!∀ x, Decision (P x)} (l : list Item) :
  (∀ it, P (stamp uid it) → False) → filter P (stamp uid <$> l) = [].
Proof.
  intros HP. induction l as [|x l IH]; [done|].
  rewrite fmap_cons, filter_cons, decide_False by (intros Hx; by apply HP in Hx). exact IH.
Qed.

Lemma filter_owned_kept uid other (l : list Item) :
  other ≠ uid →
  filter (ownedBy other) (filter (λ t, ¬ ownedBy uid t) l) = filter (ownedBy other) l.
Proof.
  intros Hne. induction l as [|x l IH]; [done|].
  rewrite !filter_cons. destruct (decide (ownedBy uid x)) as [Hx|Hx].
  - rewrite decide_False by (intros H; by apply H).
    rewrite decide_False; [done|]. unfold ownedBy in *. congruence.
  - rewrite decide_True by done. rewrite filter_cons. by rewrite IH.
Qed.

Lemma filter_owned_removed uid (l : list Item) :
  filter (ownedBy uid) (filter (λ t, ¬ ownedBy uid t) l) = [].
Proof.
  induction l as [|x l IH]; [done|].
  rewrite filter_cons. destruct (decide (¬ ownedBy uid x)) as [Hx|Hx]; [|done].
  by rewrite filter_cons, decide_False.
Qed.

Lemma filter_not_owned_idem uid (l : list Item) :
  filter (λ t, ¬ ownedBy uid t) (filter (λ t, ¬ ownedBy uid t) l)
  = filter (λ t, ¬ ownedBy uid t) l.
Proof.
  induction l as [|x l IH]; [done|].
  rewrite filter_cons. destruct (decide (¬ ownedBy uid x)) as [Hx|Hx]; [|done].
  by rewrite filter_cons, decide_True, IH.
Qed.

Section WithLibraries.
Variable jwt_verify : string → option TokenUser.
Variable jwt_sign : TokenUser → string.
Variable bcrypt_hash : string → string.
Variable bcrypt_compare : string → string → bool.
Variable toLowerCase : string → string.
Variable showNumber : Z → string.

Local Abbreviation serve :=
  (Server.serve jwt_verify jwt_sign bcrypt_hash bcrypt_compare toLowerCase showNumber).
Local Abbreviation authenticatedAs := (ServerSpec.authenticatedAs jwt_verify).

Lemma authenticate_valid req user :
  authenticatedAs req user → authenticateToken jwt_verify req = inr user.
Proof.
  intros (token & Ht & Hv). unfold authenticateToken. by rewrite Ht, Hv.
Qed.

Lemma authenticate_invalid req :
  (∀ user, ¬ authenticatedAs req user) →
  ∃ r, authenticateToken jwt_verify req = inl r ∧ (status r = 401 ∨ status r = 403).
Proof.
  intros Hno. unfold authenticateToken.
  destruct (bearerToken req) as [token|] eqn:Ht; [|by eexists; split; [|left]].
  destruct (jwt_verify token) as [user|] eqn:Hv; [|by eexists; split; [|right]].
  exfalso. apply (Hno user). by exists token.
Qed.

Lemma serve_rejects req now db :
  isDataRoute (call req) → (∀ user, ¬ authenticatedAs req user) →
  ∃ r, serve req now db = (r, db) ∧ (status r = 401 ∨ status r = 403) ∧
       returned r = [].
Proof.
  intros Hroute Hno. unfold Server.serve, guarded.
  destruct (authenticateToken jwt_verify req) as [r|user] eqn:Ha.
  - assert ((status r = 401 ∨ status r = 403) ∧ returned r = []) as [Hs Hr].
    { unfold authenticateToken in Ha.
      destruct (bearerToken req); [destruct (jwt_verify s)|];
        try discriminate; injection Ha as <-; split; auto. }
    exists r. destruct (call req); try done.
  - destruct (authenticate_invalid req Hno) as (r & Hr & _). congruence.
Qed.

Lemma serve_read req now db user :
  authenticatedAs req user → isRead (call req) →
  serve req now db =
  (mkResponse 200
     match call req with
     | GetTests => Items (view (tokenId user) db).1
     | GetAttempts => Items (view (tokenId user) db).2
     | _ => SyncData (view (tokenId user) db).1 (view (tokenId user) db).2
     end, db).
Proof.
  intros Ha Hr. unfold Server.serve, guarded.
  rewrite (authenticate_valid req user Ha).
  destruct Hr as [-> | [-> | ->]]; reflexivity.
Qed.

(** C8.  A request to any route other than register and login that
    carries no token accepted by [jwt.verify] is answered 401 or 403,
    returns no item and leaves the database as it is.  An authenticated
    read of tests, attempts or both is answered from the records whose
    [userId] is the id in the token and from nothing else: every item
    returned is owned by that user, no item owned by another id is
    returned, and two databases that hold the same records for that
    user give the same response. *)
Theorem data_routes_are_authenticated_and_scoped :
  (∀ req now db,
     isDataRoute (call req) → (∀ user, ¬ authenticatedAs req user) →
     (status (serve req now db).1 = 401 ∨ status (serve req now db).1 = 403) ∧
     returned (serve req now db).1 = [] ∧
     (serve req now db).2 = db) ∧
  (∀ req now db user,
     authenticatedAs req user → isRead (call req) →
     status (serve req now db).1 = 200 ∧
     (serve req now db).2 = db ∧
     returned (serve req now db).1 =
       match call req with
       | GetTests => filter (ownedBy (tokenId user)) (tests db)
       | GetAttempts => filter (ownedBy (tokenId user)) (attempts db)
       | _ => filter (ownedBy (tokenId user)) (tests db)
                ++ filter (ownedBy (tokenId user)) (attempts db)
       end ∧
     Forall (ownedBy (tokenId user)) (returned (serve req now db).1) ∧
     (∀ other it, other ≠ tokenId user → ownedBy other it →
                  it ∉ returned (serve req now db).1)) ∧
  (∀ req now db1 db2 user,
     authenticatedAs req user → isRead (call req) →
     view (tokenId user) db1 = view (tokenId user) db2 →
     (serve req now db1).1 = (serve req now db2).1).
Proof.
  split; [|split].
  - intros req now db Hroute Hno.
    destruct (serve_rejects req now db Hroute Hno) as (r & -> & Hs & Hr). done.
  - intros req now db user Ha Hr.
    rewrite (serve_read req now db user Ha Hr). cbn [fst snd status].
    assert (returned
              (mkResponse 200
                 match call req with
                 | GetTests => Items (view (tokenId user) db).1
                 | GetAttempts => Items (view (tokenId user) db).2
                 | _ => SyncData (view (tokenId user) db).1 (view (tokenId user) db).2
                 end)
            = match call req with
              | GetTests => filter (ownedBy (tokenId user)) (tests db)
              | GetAttempts => filter (ownedBy (tokenId user)) (attempts db)
              | _ => filter (ownedBy (tokenId user)) (tests db)
                       ++ filter (ownedBy (tokenId user)) (attempts db)
              end) as Hret.
    { destruct Hr as [-> | [-> | ->]]; reflexivity. }
    rewrite Hret.
    assert (Forall (ownedBy (tokenId user))
              match call req with
              | GetTests => filter (ownedBy (tokenId user)) (tests db)
              | GetAttempts => filter (ownedBy (tokenId user)) (attempts db)
              | _ => filter (ownedBy (tokenId user)) (tests db)
                       ++ filter (ownedBy (tokenId user)) (attempts db)
              end) as Hown.
    { destruct Hr as [-> | [-> | ->]]; rewrite ?Forall_app, !Forall_forall;
        repeat split; intros x Hx; by apply list_elem_of_filter in Hx as [? _]. }
    repeat split; try done.
    intros other it Hne Hit Hin. rewrite Forall_forall in Hown.
    specialize (Hown it Hin). unfold ownedBy in *. congruence.
  - intros req now db1 db2 user Ha Hr Hview.
    rewrite (serve_read req now db1 user Ha Hr), (serve_read req now db2 user Ha Hr).
    by rewrite Hview.
Qed.

Lemma pushStamped_view uid other new kept :
  filter (ownedBy other) (pushStamped uid new kept) =
  filter (ownedBy other) kept
    ++ (if decide (other = uid) then stamp uid <$> bodyArray new else []).
Proof.
  unfold pushStamped, bodyArray. destruct new as [l|]; simpl.
  - rewrite filter_app. f_equal. case_decide as Hd.
    + subst. apply filter_owned_stamp.
    + apply filter_other_stamp. intros it. unfold ownedBy, stamp. simpl. congruence.
  - case_decide; by rewrite app_nil_r.
Qed.

Lemma filter_not_owned uid (l : list Item) :
  filter (λ t, ¬ ownedBy uid t) l = filter (λ t, itemUserId t ≠ Some uid) l.
Proof.
  induction l as [|x l IH]; [done|].
  rewrite !filter_cons, IH. unfold ownedBy.
  destruct (decide (itemUserId x = Some uid)) as [Hx|Hx].
  - rewrite !decide_False by (intros H; by apply H). done.
  - by rewrite !decide_True.
Qed.

(** C10.  An authenticated [POST /api/sync] answers 200.  Afterwards the
    stored tests are the tests that were stored under another user id or
    under none, in their order, followed by the records of the body's
    [tests] array, each with its own [id] and its other fields and with
    [userId] set to the id in the token (none for an array that is absent
    or not an array); the same for the attempts.  So the records of the
    user are exactly those of the body, and the records of every other
    id, the records without owner and the accounts are what they were. *)
Theorem bulk_sync_replaces_only_own_records req now db user newTests newAttempts :
  authenticatedAs req user → call req = PostSync newTests newAttempts →
  let uid := tokenId user in
  let db' := (serve req now db).2 in
  let stamped := λ it : Item, mkItem (itemId it) (Some uid) (itemData it) in
  status (serve req now db).1 = 200 ∧
  tests db' = filter (λ t, itemUserId t ≠ Some uid) (tests db)
                ++ (stamped <$> default [] newTests) ∧
  attempts db' = filter (λ a, itemUserId a ≠ Some uid) (attempts db)
                   ++ (stamped <$> default [] newAttempts) ∧
  filter (λ t, itemUserId t = Some uid) (tests db') = stamped <$> default [] newTests ∧
  filter (λ a, itemUserId a = Some uid) (attempts db')
    = stamped <$> default [] newAttempts ∧
  (∀ other, other ≠ uid →
     filter (λ t, itemUserId t = Some other) (tests db')
       = filter (λ t, itemUserId t = Some other) (tests db) ∧
     filter (λ a, itemUserId a = Some other) (attempts db')
       = filter (λ a, itemUserId a = Some other) (attempts db)) ∧
  filter (λ t, itemUserId t ≠ Some uid) (tests db')
    = filter (λ t, itemUserId t ≠ Some uid) (tests db) ∧
  filter (λ a, itemUserId a ≠ Some uid) (attempts db')
    = filter (λ a, itemUserId a ≠ Some uid) (attempts db) ∧
  users db' = users db.
Proof.
  intros Ha Hc. cbv zeta. unfold Server.serve, guarded. rewrite Hc.
  rewrite (authenticate_valid req user Ha). unfold postSync.
  cbn [fst snd status tests attempts users].
  change (λ it : Item, mkItem (itemId it) (Some (tokenId user)) (itemData it))
    with (stamp (tokenId user)).
  change (λ t : Item, itemUserId t = Some (tokenId user)) with (ownedBy (tokenId user)).
  rewrite <- !filter_not_owned.
  assert (∀ new kept, pushStamped (tokenId user) new kept
                      = kept ++ (stamp (tokenId user) <$> default [] new)) as Hpush.
  { intros [l|] kept; simpl; [done|by rewrite app_nil_r]. }
  split; [done|]. split; [apply Hpush|]. split; [apply Hpush|].
  split; [|split; [|split; [|split; [|split]]]].
  - rewrite pushStamped_view, filter_owned_removed. by rewrite decide_True.
  - rewrite pushStamped_view, filter_owned_removed. by rewrite decide_True.
  - intros other Hne.
    change (λ t : Item, itemUserId t = Some other) with (ownedBy other).
    rewrite !pushStamped_view. rewrite !decide_False by done.
    rewrite !app_nil_r. by rewrite !filter_owned_kept.
  - unfold pushStamped. destruct newTests as [l|]; [|apply filter_not_owned_idem].
    rewrite filter_app, filter_not_owned_idem.
    rewrite (filter_other_stamp (tokenId user)); [by rewrite app_nil_r|].
    intros it Hn. by apply Hn.
  - unfold pushStamped. destruct newAttempts as [l|]; [|apply filter_not_owned_idem].
    rewrite filter_app, filter_not_owned_idem.
    rewrite (filter_other_stamp (tokenId user)); [by rewrite app_nil_r|].
    intros it Hn. by apply Hn.
  - done.
Qed.

End WithLibraries.

Local Abbreviation sampleServe :=
  (Server.serve Sample.verifyToken Sample.signToken (λ p, p) String.eqb (λ s, s)
     (λ n : Z, pretty n)).

Lemma data_routes_witness :
  (status (sampleServe (mkRequest None GetTests) 0%Z Sample.database).1 = 401 ∨
   status (sampleServe (mkRequest None GetTests) 0%Z Sample.database).1 = 403) ∧
  returned (sampleServe (Sample.withToken "token-of-asha" GetSync) 0%Z Sample.database).1
    = [Sample.ashasTest] ∧
  Sample.bilalsTest ∉
    returned (sampleServe (Sample.withToken "token-of-asha" GetSync) 0%Z Sample.database).1.
Proof.
  pose proof (data_routes_are_authenticated_and_scoped
                Sample.verifyToken Sample.signToken (λ p, p) String.eqb (λ s, s)
                (λ n : Z, pretty n)) as (Hreject & Hread & _).
  assert (ServerSpec.authenticatedAs Sample.verifyToken
            (Sample.withToken "token-of-asha" GetSync) Sample.asha) as Ha.
  { exists "token-of-asha". split; reflexivity. }
  split; [|split].
  - refine (proj1 (Hreject (mkRequest None GetTests) 0%Z Sample.database I _)).
    intros user (token & Ht & _). discriminate Ht.
  - destruct (Hread _ 0%Z Sample.database Sample.asha Ha) as (_ & _ & -> & _).
    + right; right; reflexivity.
    + reflexivity.
  - destruct (Hread _ 0%Z Sample.database Sample.asha Ha) as (_ & _ & _ & _ & Hno).
    + right; right; reflexivity.
    + apply (Hno "user_1700000000555"); [discriminate|reflexivity].
Defined.

Lemma bulk_sync_witness :
  Server.tests
    (sampleServe (Sample.withToken "token-of-asha" (PostSync (Some [Sample.bilalsTest]) None))
       0%Z Sample.database).2
    = [Sample.bilalsTest;
       mkItem (Some "test_1") (Some "user_1700000000000") "{name: Rivers}"] ∧
  Server.attempts
    (sampleServe (Sample.withToken "token-of-asha" (PostSync (Some [Sample.bilalsTest]) None))
       0%Z Sample.database).2
    = [Sample.bilalsAttempt].
Proof.
  assert (ServerSpec.authenticatedAs Sample.verifyToken
            (Sample.withToken "token-of-asha" (PostSync (Some [Sample.bilalsTest]) None))
            Sample.asha) as Ha.
  { exists "token-of-asha". split; reflexivity. }
  destruct (bulk_sync_replaces_only_own_records
              Sample.verifyToken Sample.signToken (λ p, p) String.eqb (λ s, s)
              (λ n : Z, pretty n) _ 0%Z Sample.database Sample.asha
              (Some [Sample.bilalsTest]) None Ha eq_refl) as (_ & Htests & Hattempts & _).
  split.
  - rewrite Htests. reflexivity.
  - rewrite Hattempts. reflexivity.
Defined.

End ServerFacts.

(* ===================================================================== *)
(** * Accounts on the device *)
(* ===================================================================== *)

Module LocalAuthFacts.
Import LocalAuth LocalAuthSpec.

Lemma toInt32_range z : (- 2 ^ 31 ≤ toInt32 z < 2 ^ 31)%Z.
Proof.
  unfold toInt32. pose proof (Z.mod_pos_bound (z + 2 ^ 31) (2 ^ 32)) as H. lia.
Qed.

Lemma toInt32_add_multiple z k : toInt32 (z + k * 2 ^ 32) = toInt32 z.
Proof.
  unfold toInt32. replace (z + k * 2 ^ 32 + 2 ^ 31)%Z with (z + 2 ^ 31 + k * 2 ^ 32)%Z by lia.
  by rewrite Z.mod_add by lia.
Qed.

Lemma toInt32_decompose z : ∃ k, toInt32 z = (z + k * 2 ^ 32)%Z.
Proof.
  exists (- ((z + 2 ^ 31) `div` 2 ^ 32))%Z. unfold toInt32.
  pose proof (Z.div_mod (z + 2 ^ 31) (2 ^ 32)) as H. lia.
Qed.

Lemma toInt32_small z : (- 2 ^ 31 ≤ z < 2 ^ 31)%Z → toInt32 z = z.
Proof. intros H. unfold toInt32. rewrite Z.mod_small by lia. lia. Qed.

(** One round multiplies by 31, adds the character and wraps. *)
Lemma hashStep_wrap hash c :
  hashStep hash c = toInt32 (31 * hash + Z.of_nat (nat_of_ascii c)).
Proof.
  unfold hashStep. cbv zeta. rewrite Z.land_diag, Z.shiftl_mul_pow2 by lia.
  destruct (toInt32_decompose hash) as [k0 ->].
  destruct (toInt32_decompose ((hash + k0 * 2 ^ 32) * 2 ^ 5)) as [k1 ->].
  replace ((hash + k0 * 2 ^ 32) * 2 ^ 5 + k1 * 2 ^ 32 - hash + Z.of_nat (nat_of_ascii c))%Z
    with (31 * hash + Z.of_nat (nat_of_ascii c) + (32 * k0 + k1) * 2 ^ 32)%Z by lia.
  apply toInt32_add_multiple.
Qed.

Lemma polynomial_linear s : ∀ h,
  polynomial h s = (h * 31 ^ Z.of_nat (String.length s) + polynomial 0 s)%Z.
Proof.
  induction s as [|c s IH]; intros h; simpl String.length; simpl polynomial.
  - lia.
  - rewrite IH, (IH (31 * 0 + _)%Z).
    replace (Z.of_nat (S (String.length s))) with (1 + Z.of_nat (String.length s))%Z by lia.
    rewrite Z.pow_add_r by lia. lia.
Qed.

Lemma hashLoop_wrap s : ∀ h, toInt32 (hashLoop h s) = toInt32 (polynomial h s).
Proof.
  induction s as [|c s IH]; intros h; simpl; [done|].
  rewrite IH, hashStep_wrap.
  destruct (toInt32_decompose (31 * h + Z.of_nat (nat_of_ascii c))) as [k ->].
  rewrite (polynomial_linear s (_ + k * 2 ^ 32)%Z), (polynomial_linear s (31 * h + _)%Z).
  replace ((31 * h + Z.of_nat (nat_of_ascii c) + k * 2 ^ 32) * 31 ^ Z.of_nat (String.length s)
           + polynomial 0 s)%Z
    with ((31 * h + Z.of_nat (nat_of_ascii c)) * 31 ^ Z.of_nat (String.length s)
          + polynomial 0 s + (k * 31 ^ Z.of_nat (String.length s)) * 2 ^ 32)%Z by lia.
  apply toInt32_add_multiple.
Qed.

Lemma hashLoop_in_range s : ∀ h,
  (- 2 ^ 31 ≤ h < 2 ^ 31)%Z → (- 2 ^ 31 ≤ hashLoop h s < 2 ^ 31)%Z.
Proof.
  induction s as [|c s IH]; intros h Hh; simpl; [done|].
  apply IH. rewrite hashStep_wrap. apply toInt32_range.
Qed.

Lemma hashPassword_polynomial password :
  hashPassword password = toString36 (toInt32 (polynomial 0 password)).
Proof.
  unfold hashPassword. rewrite <- hashLoop_wrap, toInt32_small; [done|].
  apply hashLoop_in_range. lia.
Qed.

(** X22.  [hashPassword] is the polynomial hash with multiplier 31 (the
    characters weighted 31^(n-1), ..., 31, 1) wrapped to a signed 32-bit
    integer and written in base 36: the [<< 5], the subtraction and the
    [hash & hash] of each round lose nothing that the final wrap keeps. *)
Theorem hashPassword_is_wrapped_polynomial password :
  hashPassword password = toString36 (toInt32 (polynomial 0 password)) ∧
  (- 2 ^ 31 ≤ hashLoop 0 password < 2 ^ 31)%Z.
Proof.
  split; [apply hashPassword_polynomial|]. apply hashLoop_in_range. lia.
Qed.

Lemma polynomial_app a b : ∀ h, polynomial h (a ++ b) = polynomial (polynomial h a) b.
Proof. induction a as [|c a IH]; intros h; simpl; [done|]. apply IH. Qed.

Lemma hashPassword_collision pre post :
  hashPassword (pre ++ "Aa" ++ post) = hashPassword (pre ++ "BB" ++ post).
Proof.
  rewrite !hashPassword_polynomial.
  do 2 f_equal. rewrite !polynomial_app. f_equal.
  cbn [polynomial]. change (nat_of_ascii "A") with 65. change (nat_of_ascii "a") with 97.
  change (nat_of_ascii "B") with 66. lia.
Qed.

(** X23.  Writing BB for Aa anywhere in a password gives a password that
    [authenticateUser] treats as the same one, for every user name and
    every set of stored accounts. *)
Theorem colliding_passwords_open_the_same_account
    (toLowerCase : string → string) username pre post users :
  authenticateUser toLowerCase username (pre ++ "BB" ++ post) users =
  authenticateUser toLowerCase username (pre ++ "Aa" ++ post) users.
Proof.
  unfold authenticateUser. by rewrite hashPassword_collision.
Qed.

(** The account registered with the password AaAa is opened with BBBB. *)
Example meera_is_opened_with_another_password :
  authenticateUser Sample.asciiLower "Meera" "BBBB" [Sample.meera]
  = (true, Some Sample.meera, "Login successful!").
Proof. vm_compute. reflexivity. Qed.

Lemma lowerChar_idempotent c : Sample.lowerChar (Sample.lowerChar c) = Sample.lowerChar c.
Proof. destruct c as [[] [] [] [] [] [] [] []]; vm_compute; reflexivity. Qed.

Lemma asciiLower_idempotent s : Sample.asciiLower (Sample.asciiLower s) = Sample.asciiLower s.
Proof.
  induction s as [|c s IH]; simpl; [done|]. by rewrite lowerChar_idempotent, IH.
Qed.

Section Accounts.

Variable toLowerCase : string → string.
Hypothesis toLowerCase_idempotent : ∀ s, toLowerCase (toLowerCase s) = toLowerCase s.

Local Abbreviation findUser := (LocalAuth.findUser toLowerCase).
Local Abbreviation registerUser := (LocalAuth.registerUser toLowerCase).
Local Abbreviation authenticateUser := (LocalAuth.authenticateUser toLowerCase).
Local Abbreviation registerSubmit := (LocalAuth.registerSubmit toLowerCase).

Lemma findUser_None username users :
  findUser username users = None ↔
  toLowerCase username ∉ (λ u, toLowerCase (LocalAuth.username u)) <$> users.
Proof.
  unfold LocalAuth.findUser. induction users as [|u users IH]; simpl.
  - split; [intros _; apply not_elem_of_nil|done].
  - rewrite not_elem_of_cons. case_bool_decide as Hd.
    + split; [done|]. intros [Hne _]. congruence.
    + rewrite IH. split; [intros H; split; [congruence|done]|by intros [_ H]].
Qed.

Lemma findUser_app_found username users more user :
  findUser username users = Some user → findUser username (users ++ more) = Some user.
Proof.
  unfold LocalAuth.findUser. induction users as [|u users IH]; simpl; [done|].
  by case_bool_decide.
Qed.

Lemma findUser_app_new username users user :
  findUser username users = None →
  toLowerCase (LocalAuth.username user) = toLowerCase username →
  findUser username (users ++ [user]) = Some user.
Proof.
  unfold LocalAuth.findUser. induction users as [|u users IH]; simpl.
  - intros _ Heq. by rewrite bool_decide_true.
  - case_bool_decide; [done|]. apply IH.
Qed.

(** What a successful registration is and does. *)
Lemma registerUser_success name username password now users message users' :
  registerUser name username password now users = ((true, message), users') →
  findUser username users = None ∧
  3 ≤ String.length username ∧ 4 ≤ String.length password ∧
  users' = users ++ [mkUser (toLowerCase username) (hashPassword password) name now].
Proof.
  unfold LocalAuth.registerUser.
  destruct (findUser username users) eqn:Hf; [done|].
  repeat case_decide; intros [= <- <-]. repeat split; (done || lia).
Qed.

Lemma registerUser_failure name username password now users message users' :
  registerUser name username password now users = ((false, message), users') →
  users' = users.
Proof.
  unfold LocalAuth.registerUser.
  destruct (findUser username users); [by intros [= _ <-]|].
  repeat case_decide; intros Heq; by inversion Heq.
Qed.

Lemma authenticateUser_new name username password now users typed :
  findUser username users = None →
  toLowerCase typed = toLowerCase username →
  authenticateUser typed password
    (users ++ [mkUser (toLowerCase username) (hashPassword password) name now])
  = (true, Some (mkUser (toLowerCase username) (hashPassword password) name now),
     "Login successful!").
Proof.
  intros Hnone Htyped. unfold LocalAuth.authenticateUser.
  rewrite (findUser_app_new typed users
             (mkUser (toLowerCase username) (hashPassword password) name now)).
  - simpl. by rewrite decide_True.
  - rewrite findUser_None in Hnone |- *. by rewrite Htyped.
  - simpl. by rewrite toLowerCase_idempotent.
Qed.

(** X24.  Round trip of [registerUser] and [authenticateUser]: after a successful
    registration, the password that was registered opens the new account
    under every spelling of the user name that has the same lower case. *)
Theorem registered_user_can_log_in name username password now users message users' typed :
  registerUser name username password now users = ((true, message), users') →
  toLowerCase typed = toLowerCase username →
  authenticateUser typed password users'
  = (true, Some (mkUser (toLowerCase username) (hashPassword password) name now),
     "Login successful!").
Proof.
  intros Hreg Htyped.
  apply registerUser_success in Hreg as (Hnone & _ & _ & ->).
  by apply authenticateUser_new.
Qed.

(** X25.  [registerUser] keeps the stored user names distinct up to letter case,
    stores nothing when it refuses, and a successful registration changes
    the answer of [authenticateUser] for no user name that had an account. *)
Theorem registration_keeps_accounts_distinct name username password now users :
  distinctUsers toLowerCase users →
  let '((ok, _), users') := registerUser name username password now users in
  distinctUsers toLowerCase users' ∧
  (ok = false → users' = users) ∧
  ∀ other secret, findUser other users ≠ None →
    authenticateUser other secret users' = authenticateUser other secret users.
Proof.
  intros Hdistinct.
  destruct (registerUser name username password now users) as [[ok message] users'] eqn:Hreg.
  destruct ok.
  - apply registerUser_success in Hreg as (Hnone & _ & _ & ->).
    split; [|split; [done|]].
    + unfold distinctUsers. rewrite fmap_app. apply NoDup_app. split; [done|]. split.
      * intros x Hx Hnew. simpl in Hnew. apply list_elem_of_singleton in Hnew. subst x.
        rewrite toLowerCase_idempotent in Hx. by apply findUser_None in Hnone.
      * simpl. apply NoDup_singleton.
    + intros other secret Hother. unfold LocalAuth.authenticateUser.
      destruct (findUser other users) as [user|] eqn:Hf; [|done].
      by rewrite (findUser_app_found _ _ _ _ Hf).
  - by apply registerUser_failure in Hreg as ->.
Qed.

(** X26.  The 'submit' listener of the registration form.  When the two
    passwords are the same, no stored user name has the lower case of the
    one entered, the user name has at least 3 characters and the password
    at least 4, the account is stored after the others, its user is
    logged in and the one toast is the success message; in every other
    case nothing is stored, nobody is logged in and the one toast is an
    error, "Passwords do not match!" when the passwords differ.  In no
    case does the listener take its fall-back to the login form. *)
Theorem register_form_never_falls_back name username password confirm now users :
  let outcome := registerSubmit name username password confirm now users in
  let newUser := mkUser (toLowerCase username) (hashPassword password) name now in
  let accepted :=
    password = confirm ∧
    (∀ u, u ∈ users → toLowerCase (LocalAuth.username u) ≠ toLowerCase username) ∧
    3 ≤ String.length username ∧ 4 ≤ String.length password in
  backToLoginForm outcome = false ∧
  (accepted →
     loggedIn outcome = Some newUser ∧ storedUsers outcome = users ++ [newUser] ∧
     shown outcome = [("Account created successfully!", success)]) ∧
  (¬ accepted →
     loggedIn outcome = None ∧ storedUsers outcome = users ∧
     ∃ message, shown outcome = [(message, error)]) ∧
  (password ≠ confirm → shown outcome = [("Passwords do not match!", error)]).
Proof.
  cbv zeta. unfold LocalAuth.registerSubmit.
  destruct (decide (password = confirm)) as [Hc|Hc];
    [|simpl; split; [done|]; split; [by intros [? _]|]; split; [eauto|done]].
  destruct (registerUser name username password now users) as [[ok message] users'] eqn:Hreg.
  destruct ok.
  - pose proof Hreg as Hreg'.
    apply registerUser_success in Hreg' as (Hnone & Hu & Hp & ->).
    rewrite (authenticateUser_new name username password now users username Hnone eq_refl).
    assert (message = "Account created successfully!") as ->.
    { revert Hreg. unfold LocalAuth.registerUser. rewrite Hnone.
      repeat case_decide; try lia. by intros [= <-]. }
    simpl. split; [done|]. split; [done|]. split; [|done].
    intros Hnot. exfalso. apply Hnot. split; [done|]. split; [|done].
    intros u Hin Heq. apply findUser_None in Hnone. apply Hnone.
    apply list_elem_of_fmap. by exists u.
  - pose proof (registerUser_failure _ _ _ _ _ _ _ Hreg) as ->.
    simpl. split; [done|]. split; [|split; [eauto|done]].
    intros (_ & Hfree & Hu & Hp). exfalso.
    revert Hreg. unfold LocalAuth.registerUser.
    destruct (findUser username users) as [u|] eqn:Hf.
    + unfold LocalAuth.findUser in Hf. apply find_some in Hf as [Hin Heq].
      apply bool_decide_eq_true in Heq. intros _. apply (Hfree u); [|done].
      by apply list_elem_of_In.
    + repeat case_decide; try lia. discriminate.
Qed.

End Accounts.

Lemma registered_user_witness :
  authenticateUser Sample.asciiLower "MEERA" "AaAa"
    [mkUser "meera" (hashPassword "AaAa") "Meera" 1700000000000]
  = (true, Some (mkUser "meera" (hashPassword "AaAa") "Meera" 1700000000000),
     "Login successful!").
Proof.
  apply (registered_user_can_log_in Sample.asciiLower asciiLower_idempotent
           "Meera" "Meera" "AaAa" 1700000000000 [] "Account created successfully!"
           _ "MEERA").
  - vm_compute. reflexivity.
  - vm_compute. reflexivity.
Defined.

Lemma registration_distinct_witness :
  distinctUsers Sample.asciiLower
    [Sample.meera; mkUser "arjun" (hashPassword "secret") "Arjun" 1700000000001].
Proof.
  refine (proj1 (registration_keeps_accounts_distinct Sample.asciiLower asciiLower_idempotent
                   "Arjun" "Arjun" "secret" 1700000000001 [Sample.meera] _)).
  vm_compute. apply NoDup_singleton.
Defined.

Lemma register_form_witness :
  loggedIn
    (registerSubmit Sample.asciiLower "Arjun" "Arjun" "secret" "secret" 1700000000001
       [Sample.meera])
  = Some (mkUser "arjun" (hashPassword "secret") "Arjun" 1700000000001) ∧
  storedUsers
    (registerSubmit Sample.asciiLower "Arjun" "Arjun" "secret" "secret" 1700000000001
       [Sample.meera])
  = [Sample.meera; mkUser "arjun" (hashPassword "secret") "Arjun" 1700000000001] ∧
  shown
    (registerSubmit Sample.asciiLower "Arjun" "Arjun" "secret" "Secret" 1700000000001
       [Sample.meera])
  = [("Passwords do not match!", error)].
Proof.
  pose proof (register_form_never_falls_back Sample.asciiLower asciiLower_idempotent
                "Arjun" "Arjun" "secret" "secret" 1700000000001 [Sample.meera]) as H.
  pose proof (register_form_never_falls_back Sample.asciiLower asciiLower_idempotent
                "Arjun" "Arjun" "secret" "Secret" 1700000000001 [Sample.meera]) as H'.
  cbv zeta in H, H'. destruct H as (_ & H & _). destruct H' as (_ & _ & _ & H').
  destruct H as (H1 & H2 & _).
  - split; [done|]. split; [|split; vm_compute; lia].
    intros u Hin. apply list_elem_of_singleton in Hin. subst u.
    vm_compute. discriminate.
  - split; [exact H1|]. split; [exact H2|]. apply H'. discriminate.
Defined.

End LocalAuthFacts.

(* ===================================================================== *)
(** * The stored tests *)
(* ===================================================================== *)

Module StoreFacts.
Import TestStore.

Lemma findIndex_split {A} (P : A → Prop) `{!∀ x, Decision (P x)} (l : list A) : ∀ i,
  Server.findIndex P l = Some i →
  ∃ l1 x l2, l = l1 ++ x :: l2 ∧ length l1 = i ∧ Forall (λ y, ¬ P y) l1 ∧ P x.
Proof.
  induction l as [|y l IH]; intros i; simpl; [done|].
  case_decide as Hy.
  - intros [= <-]. by exists [], y, l.
  - destruct (Server.findIndex P l) as [j|] eqn:Hj; [|done]. intros [= <-].
    destruct (IH j eq_refl) as (l1 & x & l2 & -> & <- & Hl1 & Hx).
    exists (y :: l1), x, l2. repeat split; [|done]. by constructor.
Qed.

Lemma findIndex_None {A} (P : A → Prop) `{!∀ x, Decision (P x)} (l : list A) :
  Server.findIndex P l = None → Forall (λ y, ¬ P y) l.
Proof.
  induction l as [|y l IH]; simpl; [by constructor|].
  case_decide as Hy; [done|].
  destruct (Server.findIndex P l); [done|]. intros _. constructor; [done|by apply IH].
Qed.

Lemma findIndex_is_Some {A} (P : A → Prop) `{!∀ x, Decision (P x)} (l : list A) x :
  x ∈ l → P x → is_Some (Server.findIndex P l).
Proof.
  intros Hin Hx. destruct (Server.findIndex P l) eqn:E; [by eexists|].
  apply findIndex_None in E. rewrite Forall_forall in E. by destruct (E x Hin).
Qed.

Lemma insert_middle {A} (l1 : list A) x y l2 :
  <[length l1 := y]> (l1 ++ x :: l2) = l1 ++ y :: l2.
Proof. induction l1 as [|z l1 IH]; simpl; [done|]. by rewrite IH. Qed.

Lemma findTest_skip k l1 l2 :
  Forall (λ y, id y ≠ k) l1 → findTest k (l1 ++ l2) = findTest k l2.
Proof.
  unfold findTest. induction 1 as [|y l1 Hy _ IH]; simpl; [done|].
  by rewrite bool_decide_false.
Qed.

Lemma findTest_middle k l1 x y l2 :
  id x ≠ k → id y ≠ k → findTest k (l1 ++ x :: l2) = findTest k (l1 ++ y :: l2).
Proof.
  intros Hx Hy. unfold findTest. induction l1 as [|z l1 IH]; simpl.
  - by rewrite !bool_decide_false.
  - by rewrite IH.
Qed.

Lemma findTest_None k l : findTest k l = None ↔ k ∉ (id <$> l).
Proof.
  unfold findTest. induction l as [|y l IH]; simpl.
  - split; [intros _; apply not_elem_of_nil|done].
  - rewrite not_elem_of_cons. case_bool_decide as Hd.
    + split; [done|]. intros [Hne _]. congruence.
    + rewrite IH. split; [intros H; split; [congruence|done]|by intros [_ H]].
Qed.

(** The two cases of the save button. *)
Lemma saveTest_cases t tests :
  ((id t ∉ (id <$> tests)) ∧
   saveTest t tests = (t :: tests, ("Test created successfully!", success))) ∨
  (∃ l1 x l2, tests = l1 ++ x :: l2 ∧ Forall (λ y, id y ≠ id t) l1 ∧ id x = id t ∧
     saveTest t tests = (l1 ++ t :: l2, ("Test updated successfully!", success))).
Proof.
  unfold saveTest.
  destruct (Server.findIndex (λ x, id x = id t) tests) as [i|] eqn:E.
  - right. apply findIndex_split in E as (l1 & x & l2 & -> & <- & Hl1 & Hx).
    exists l1, x, l2. by rewrite insert_middle.
  - left. split; [|done]. apply findIndex_None in E.
    intros Hin. apply list_elem_of_fmap in Hin as (y & Hy & Hin).
    rewrite Forall_forall in E. by apply (E y Hin).
Qed.

(** X18.  Round trip of the save button and the click on a stored test: the
    test that was saved is the one opened under its id, the tests stored
    under other ids are opened as before, and the list grows by one
    exactly when the id was not stored; the toast says which of the two
    happened. *)
Theorem saved_test_is_found t tests :
  findTest (id t) (saveTest t tests).1 = Some t ∧
  (∀ other, other ≠ id t →
     findTest other (saveTest t tests).1 = findTest other tests) ∧
  (id t ∈ (id <$> tests) →
     length (saveTest t tests).1 = length tests ∧
     (saveTest t tests).2 = ("Test updated successfully!", success)) ∧
  (id t ∉ (id <$> tests) →
     (saveTest t tests).1 = t :: tests ∧
     (saveTest t tests).2 = ("Test created successfully!", success)).
Proof.
  destruct (saveTest_cases t tests)
    as [[Hnew ->]|(l1 & x & l2 & -> & Hl1 & Hx & ->)]; simpl.
  - split; [|split; [|split]].
    + unfold findTest. simpl. by rewrite bool_decide_true.
    + intros other Hother. unfold findTest. simpl. by rewrite bool_decide_false.
    + done.
    + done.
  - split; [|split; [|split]].
    + rewrite findTest_skip by done. unfold findTest. simpl. by rewrite bool_decide_true.
    + intros other Hother. apply findTest_middle; congruence.
    + intros _. split; [|done]. rewrite !length_app. done.
    + intros Hnot. exfalso. apply Hnot. rewrite fmap_app, fmap_cons.
      apply elem_of_app. right. rewrite <- Hx. apply list_elem_of_here.
Qed.

(** X19.  The save button keeps the stored ids pairwise different, and the ids
    stored afterwards are the old ones and the id of the saved test. *)
Theorem saveTest_keeps_ids_distinct t tests :
  NoDup (id <$> tests) →
  NoDup (id <$> (saveTest t tests).1) ∧
  ∀ i, i ∈ (id <$> (saveTest t tests).1) ↔ i = id t ∨ i ∈ (id <$> tests).
Proof.
  intros Hnd.
  destruct (saveTest_cases t tests)
    as [[Hnew ->]|(l1 & x & l2 & -> & Hl1 & Hx & ->)]; simpl.
  - split; [by constructor|]. intros i. by rewrite elem_of_cons.
  - assert (id <$> l1 ++ t :: l2 = id <$> l1 ++ x :: l2) as ->.
    { by rewrite !fmap_app, !fmap_cons, Hx. }
    split; [done|]. intros i. split; [by right|]. intros [->|Hin]; [|done].
    rewrite fmap_app, fmap_cons, Hx. apply elem_of_app. right. apply list_elem_of_here.
Qed.

Lemma saveTest_distinct_witness :
  NoDup (id <$> (saveTest Sample.importedCopy [Sample.otherTest; Sample.test2]).1).
Proof.
  refine (proj1 (saveTest_keeps_ids_distinct Sample.importedCopy
                   [Sample.otherTest; Sample.test2] _)).
  vm_compute. apply NoDup_cons. split.
  - intros Hin. apply list_elem_of_singleton in Hin. discriminate Hin.
  - apply NoDup_singleton.
Defined.

Lemma delete_after_save t tests :
  handleDeleteTest (id t) (saveTest t tests).1 = handleDeleteTest (id t) tests.
Proof.
  unfold handleDeleteTest.
  destruct (saveTest_cases t tests)
    as [[Hnew ->]|(l1 & x & l2 & -> & Hl1 & Hx & ->)]; simpl.
  - rewrite filter_cons. by rewrite decide_False by (intros H; by apply H).
  - rewrite !filter_app, !filter_cons.
    rewrite decide_False by (intros H; by apply H).
    by rewrite decide_False by (intros H; by apply H).
Qed.

(** X20.  [handleDeleteTest] removes every test stored under the id, so that a
    click finds none, and leaves the tests stored under other ids as they
    were, in their order; deleting a test after saving it leaves what
    deleting it alone leaves (the saved copy goes with every other copy
    stored under its id). *)
Theorem deleted_test_is_gone testId tests :
  findTest testId (handleDeleteTest testId tests) = None ∧
  (∀ other, other ≠ testId →
     findTest other (handleDeleteTest testId tests) = findTest other tests) ∧
  handleDeleteTest testId tests `sublist_of` tests ∧
  (∀ t, t ∈ tests → id t ≠ testId → t ∈ handleDeleteTest testId tests) ∧
  (∀ t, id t = testId →
     handleDeleteTest testId (saveTest t tests).1 = handleDeleteTest testId tests).
Proof.
  split; [|split; [|split; [|split]]].
  - apply findTest_None. intros Hin. apply list_elem_of_fmap in Hin as (y & Hy & Hin).
    apply list_elem_of_filter in Hin as [Hne _]. congruence.
  - intros other Hother. unfold handleDeleteTest, findTest.
    induction tests as [|y l IH]; [done|].
    rewrite filter_cons. destruct (decide (id y = testId)) as [Heq|Hne].
    + rewrite decide_False by (intros H; by apply H). simpl.
      rewrite IH. rewrite bool_decide_false; [done|congruence].
    + rewrite decide_True by done. simpl. by rewrite IH.
  - apply sublist_filter.
  - intros t Hin Hne. by apply list_elem_of_filter.
  - intros t <-. apply delete_after_save.
Qed.

End StoreFacts.

(* ===================================================================== *)
(** * The review of an attempt *)
(* ===================================================================== *)

Module ReviewFacts.
Import Engine Review ReviewSpec.

Lemma shownAs_cons st x sts :
  shownAs st (x :: sts) = (if decide (x = st) then 1 else 0) + shownAs st sts.
Proof. unfold shownAs. rewrite filter_cons. by case_decide. Qed.

Lemma tallyFrom_statuses answers qs : ∀ index acc,
  let r := tallyFrom answers index qs acc in
  let sts := imap (λ i q, statusClass q (answers !! (index + i))) qs in
  tallyCorrect r = tallyCorrect acc + shownAs correct sts ∧
  tallyIncorrect r = tallyIncorrect acc + shownAs incorrect sts ∧
  tallyUnanswered r = tallyUnanswered acc + shownAs unansweredStatus sts.
Proof.
  induction qs as [|q qs IH]; intros index acc; cbn [tallyFrom imap].
  - unfold shownAs. simpl. lia.
  - destruct (IH (S index) (tallyStep answers acc index q)) as (HC & HI & HU).
    cbv zeta in HC, HI, HU.
    rewrite (imap_ext _ ((λ i q0, statusClass q0 (answers !! (index + i))) ∘ S)) in HC, HI, HU
      by (intros i x _; simpl; do 2 f_equal; lia).
    cbv zeta. rewrite HC, HI, HU, !shownAs_cons, Nat.add_0_r.
    unfold tallyStep, statusClass.
    destruct (answers !! index) as [[a|]|]; repeat case_decide; simpl;
      try congruence; try lia; exfalso; intuition congruence.
Qed.

Lemma tallyFrom_mistakes answers (full qs : list Question) : ∀ index acc,
  (∀ i q, qs !! i = Some q → full !! (index + i) = Some q) →
  tallyIncorrect (tallyFrom answers index qs acc) =
  tallyIncorrect acc +
  length (filter (λ item : Question * nat,
                    answers !! item.2 ≠ Some None ∧
                    answers !! item.2 ≠ (λ q, Some (answer q)) <$> full !! item.2)
                 (imap (λ i q, (q, index + i)) qs)).
Proof.
  induction qs as [|q qs IH]; intros index acc Hfull; cbn [tallyFrom imap].
  - simpl. lia.
  - rewrite IH by (intros i x Hx; rewrite <- (Hfull (S i) x Hx); f_equal; lia).
    rewrite (imap_ext (λ i q0, (q0, S index + i)) ((λ i q0, (q0, index + i)) ∘ S))
      by (intros i x _; simpl; f_equal; lia).
    rewrite filter_cons. cbn [snd]. rewrite Nat.add_0_r.
    pose proof (Hfull 0 q eq_refl) as Hq. rewrite Nat.add_0_r in Hq. rewrite Hq.
    unfold tallyStep. cbn [fmap option_fmap option_map].
    destruct (answers !! index) as [[a|]|]; repeat case_decide; simpl;
      try lia; exfalso; intuition congruence.
Qed.

(** X12.  The review of a submitted attempt agrees with the counts that
    [handleSubmitTest] stored in it: the questions shown as correct,
    incorrect and unanswered are as many as [correctAnswers],
    [incorrectAnswers] and [unanswered], and the mistakes view lists
    [incorrectAnswers] questions, whatever the answers are. *)
Theorem review_agrees_with_counts t now s :
  let attempt := buildAttempt t now s in
  shownAs correct (allStatuses attempt) = correctAnswers attempt ∧
  shownAs incorrect (allStatuses attempt) = incorrectAnswers attempt ∧
  shownAs unansweredStatus (allStatuses attempt) = unanswered attempt ∧
  length (mistakes attempt) = incorrectAnswers attempt.
Proof.
  cbv zeta. unfold allStatuses, mistakes, buildAttempt, tally. cbn [att_userAnswers
    fullTest correctAnswers incorrectAnswers unanswered].
  destruct (tallyFrom_statuses (userAnswers s) (questions t) 0 (mkTally 0 0 0))
    as (HC & HI & HU).
  pose proof (tallyFrom_mistakes (userAnswers s) (questions t) (questions t) 0
                (mkTally 0 0 0) (λ i q H, H)) as HM.
  cbv zeta in HC, HI, HU. simpl in HC, HI, HU, HM.
  rewrite HC, HI, HU. repeat split; try done.
  rewrite HI in HM. by rewrite HM.
Qed.

(** X13.  The mistakes view lists the questions with an answer that is not the
    right one, each once, in the order of the test. *)
Theorem mistakes_are_the_wrong_answers attempt item :
  item ∈ mistakes attempt ↔
  questions (fullTest attempt) !! item.2 = Some item.1 ∧
  att_userAnswers attempt !! item.2 ≠ Some None ∧
  att_userAnswers attempt !! item.2 ≠ Some (Some (answer item.1)).
Proof.
  unfold mistakes. rewrite list_elem_of_filter, list_elem_of_lookup.
  setoid_rewrite list_lookup_imap. split.
  - intros ((Hn & Hw) & i & Hi).
    destruct (questions (fullTest attempt) !! i) as [q|] eqn:Hq; [|done].
    injection Hi as <-. simpl in *. rewrite Hq in Hw. by rewrite Hq.
  - intros (Hq & Hn & Hw). split.
    + rewrite Hq. done.
    + exists item.2. rewrite Hq. simpl. by destruct item.
Qed.

End ReviewFacts.

(* ===================================================================== *)
(** * What an attempt records *)
(* ===================================================================== *)

Module AttemptFacts.
Import Engine EngineSpec AttemptSpec EngineFacts.

#[local] Arguments commit : simpl never.
#[local] Arguments stopTimer : simpl never.
#[local] Arguments buildAttempt : simpl never.

(** ** Committing the question left *)

Lemma commit_answers now s :
  userAnswers (commit now s)
  = <[currentQuestionIndex s := Z.of_nat <$> checkedOption s]> (userAnswers s).
Proof.
  unfold commit, saveCurrentAnswer, addTimeSpent.
  cbn -[insert alter lookup].
  destruct (checkedOption s); cbn -[insert alter lookup]; [|case_match]; reflexivity.
Qed.

Lemma commit_statuses now s :
  questionStatuses (commit now s)
  = let i := currentQuestionIndex s in
    match checkedOption s with
    | Some _ =>
        <[i := if is_marked (questionStatuses s !! i) then markedAndAnswered else answered]>
          (questionStatuses s)
    | None =>
        if is_marked (questionStatuses s !! i) then questionStatuses s
        else <[i := notAnswered]> (questionStatuses s)
    end.
Proof.
  unfold commit, saveCurrentAnswer, addTimeSpent.
  cbn -[insert alter lookup].
  destruct (checkedOption s); cbn -[insert alter lookup]; [|case_match]; reflexivity.
Qed.

Lemma commit_fields now s :
  currentTest (commit now s) = currentTest s ∧
  currentQuestionIndex (commit now s) = currentQuestionIndex s ∧
  checkedOption (commit now s) = checkedOption s ∧
  timeRemaining (commit now s) = timeRemaining s ∧
  currentView (commit now s) = currentView s.
Proof.
  unfold commit, saveCurrentAnswer, addTimeSpent.
  cbn -[insert alter lookup].
  destruct (checkedOption s) eqn:Hc; cbn -[insert alter lookup]; [|case_match];
    cbn -[insert alter lookup]; rewrite ?Hc; done.
Qed.

Lemma renderedOptions_eq s s' :
  currentTest s' = currentTest s → currentQuestionIndex s' = currentQuestionIndex s →
  renderedOptions s' = renderedOptions s.
Proof. unfold renderedOptions. by intros -> ->. Qed.

Lemma is_marked_agrees st : is_marked (Some st) = true → agrees st None.
Proof. by destruct st. Qed.

Lemma commit_inv now s t :
  currentTest s = Some t →
  currentQuestionIndex s < length (questionStatuses s) →
  answers_inv s t → answers_inv (commit now s) t.
Proof.
  intros Ht Hlt [HA HC HS HV].
  destruct (commit_fields now s) as (F1 & F2 & F3 & _).
  split.
  - intros i q k Hq Hk. rewrite commit_answers in Hk.
    apply list_lookup_insert_Some in Hk as [(<- & Hk & _)|[_ Hk]]; [|by eapply HA].
    destruct (checkedOption s) as [k'|] eqn:Hc; [|done]. injection Hk as <-.
    pose proof (HC k' eq_refl) as Hr. unfold renderedOptions in Hr.
    rewrite Ht, Hq in Hr. lia.
  - intros k Hk. rewrite F3 in Hk. rewrite (renderedOptions_eq s) by done. by apply HC.
  - intros i st a Hst Ha. rewrite commit_statuses in Hst. rewrite commit_answers in Ha.
    cbv zeta in Hst.
    apply list_lookup_insert_Some in Ha as [(<- & Ha & _)|[Hne Ha]].
    + destruct (checkedOption s) as [k'|] eqn:Hc.
      * apply list_lookup_insert_Some in Hst as [(_ & Hst & _)|[? _]]; [|done].
        subst a st. case_match; simpl; [done|by eexists].
      * subst a. simpl.
        destruct (is_marked (questionStatuses s !! currentQuestionIndex s)) eqn:Hm.
        -- rewrite Hst in Hm. by apply is_marked_agrees.
        -- apply list_lookup_insert_Some in Hst as [(_ & Hst & _)|[? _]]; [|done].
           by subst st.
    + assert (questionStatuses s !! i = Some st) as Hold; [|by eapply HS].
      destruct (checkedOption s) as [k'|].
      * by apply list_lookup_insert_Some in Hst as [(? & _)|[_ Hst]].
      * destruct (is_marked (questionStatuses s !! currentQuestionIndex s)); [done|].
        by apply list_lookup_insert_Some in Hst as [(? & _)|[_ Hst]].
  - rewrite F2, commit_statuses. cbv zeta.
    destruct (checkedOption s) as [k'|].
    + rewrite list_lookup_insert_eq by done. by case_match.
    + destruct (is_marked (questionStatuses s !! currentQuestionIndex s)); [done|].
      by rewrite list_lookup_insert_eq by done.
Qed.

(** ** Moving to a question *)

Lemma navigateToQuestion_unfold j now s t :
  currentTest s = Some t →
  navigateToQuestion j now s =
  if decide (Z.of_nat (length (questions t)) ≤ j)%Z then commit now s
  else if decide (j < 0)%Z then commit now s
  else moveTo (Z.to_nat j) now t (commit now s).
Proof. intros Ht. unfold navigateToQuestion. by rewrite Ht. Qed.

Lemma moveTo_fields j now t c :
  currentTest (moveTo j now t c) = currentTest c ∧
  currentQuestionIndex (moveTo j now t c) = j ∧
  userAnswers (moveTo j now t c) = userAnswers c ∧
  timeRemaining (moveTo j now t c) = timeRemaining c ∧
  currentView (moveTo j now t c) = currentView c ∧
  questionStatuses (moveTo j now t c) =
    (if decide (questionStatuses c !! j = Some notVisited)
     then <[j := notAnswered]> (questionStatuses c) else questionStatuses c).
Proof.
  unfold moveTo. cbn -[insert lookup].
  case_decide; cbn -[insert lookup]; case_match; cbn -[insert lookup]; done.
Qed.

Lemma moveTo_checked j now t c q k :
  questions t !! j = Some q →
  checkedOption (moveTo j now t c) = Some k → k < length (options q).
Proof.
  intros Hq. unfold moveTo. cbn -[insert lookup].
  case_decide; cbn -[insert lookup]; rewrite Hq; unfold renderQuestionForAttempt;
    cbn -[insert lookup]; repeat case_match; intros [= <-]; lia.
Qed.

Lemma moveTo_inv j now t c q :
  currentTest c = Some t → questions t !! j = Some q →
  j < length (questionStatuses c) →
  answers_inv c t → answers_inv (moveTo j now t c) t.
Proof.
  intros Ht Hq Hlt [HA _ HS _].
  destruct (moveTo_fields j now t c) as (F1 & F2 & F3 & _ & _ & F6).
  split.
  - by rewrite F3.
  - intros k Hk. apply (moveTo_checked _ _ _ _ _ _ Hq) in Hk.
    unfold renderedOptions. by rewrite F1, F2, Ht, Hq.
  - rewrite F3, F6. intros i st a Hst Ha. case_decide as Hnv; [|by eapply HS].
    apply list_lookup_insert_Some in Hst as [(<- & <- & _)|[_ Hst]]; [|by eapply HS].
    exact (HS _ _ _ Hnv Ha).
  - rewrite F2, F6. case_decide as Hnv; [|done].
    by rewrite list_lookup_insert_eq by done.
Qed.

Lemma navigateToQuestion_answers j now s t :
  currentTest s = Some t →
  currentQuestionIndex s < length (questionStatuses s) →
  length (questions t) = length (questionStatuses s) →
  answers_inv s t → answers_inv (navigateToQuestion j now s) t.
Proof.
  intros Ht Hlt Hn HI. rewrite (navigateToQuestion_unfold _ _ _ _ Ht).
  pose proof (commit_inv now s t Ht Hlt HI) as HC.
  repeat case_decide; [done|done|].
  destruct (lookup_lt_is_Some_2 (questions t) (Z.to_nat j)) as [q Hq]; [lia|].
  destruct (commit_fields now s) as (F1 & _).
  apply (moveTo_inv _ _ _ _ q); [congruence|done| |done].
  pose proof (commit_frame now s) as F. cbv zeta in F.
  destruct F as (_ & _ & _ & _ & _ & _ & _ & _ & _ & _ & F & _). lia.
Qed.

Lemma navigateToQuestion_ok j now s :
  page_inv s → attempt_ok s → attempt_ok (navigateToQuestion j now s).
Proof.
  intros (HE & _) Hok.
  pose proof (navigateToQuestion_frame j now s) as F. cbv zeta in F.
  destruct F as (F1 & F2 & _ & _ & _ & _ & _ & F8 & _).
  intros Hv t Ht. rewrite (inAttemptView_eq _ _ F2) in Hv. rewrite F1 in Ht.
  destruct (HE Hv) as (_ & _ & Hlt & t' & Ht' & Hn).
  assert (t' = t) as -> by congruence.
  destruct (Hok Hv t Ht) as [HA [HT1 HT2]]. split.
  - by apply navigateToQuestion_answers.
  - split; by rewrite F8.
Qed.

(** ** The other events *)

Lemma markForReview_ok now s :
  page_inv s → attempt_ok s → attempt_ok (markForReview now s).
Proof.
  intros Hinv Hok. unfold markForReview.
  match goal with |- attempt_ok (navigateToQuestion ?j now ?x) => set (s1 := x) end.
  set (v := match questionStatuses s !! currentQuestionIndex s with
            | Some answered | Some markedAndAnswered => markedAndAnswered
            | _ => marked
            end).
  assert (s1 = set_questionStatuses
                 (<[currentQuestionIndex s := v]> (questionStatuses s)) s) as Hs1
    by (subst s1 v; by repeat case_match).
  clearbody s1. subst s1.
  apply navigateToQuestion_ok.
  - destruct Hinv as (HE & HT & HV). split; [|split]; auto.
    intros Hv. destruct (HE Hv) as (H1 & H2 & H3 & t & Ht & Hn).
    simpl. rewrite length_insert. eauto 10.
  - intros Hv t Ht. destruct (Hok Hv t Ht) as [[HA HC HS HV] [HT1 HT2]].
    destruct Hinv as (HE & _). destruct (HE Hv) as (_ & _ & Hlt & _).
    split; [split|split]; simpl.
    + exact HA.
    + exact HC.
    + intros i st a Hst Ha.
      apply list_lookup_insert_Some in Hst as [(<- & <- & _)|[_ Hst]]; [|by eapply HS].
      subst v. destruct (questionStatuses s !! currentQuestionIndex s) as [st|] eqn:Hst.
      * pose proof (HS _ _ _ Hst Ha) as Hag. by destruct st.
      * apply lookup_ge_None in Hst. lia.
    + rewrite list_lookup_insert_eq by done. subst v. by repeat case_match.
    + exact HT1.
    + exact HT2.
Qed.

Lemma replicate_lookup_eq {A} n (x y : A) i : replicate n x !! i = Some y → y = x.
Proof. intros H. by apply lookup_replicate in H as [-> _]. Qed.

Lemma startTest_ok t now s :
  inAttemptView s = false → attempt_ok (startTest t now s).
Proof.
  intros Hout. unfold startTest. simpl.
  destruct (questions t) as [|q qs] eqn:Hq; simpl.
  - intros Hv. unfold inAttemptView in *. simpl in *. congruence.
  - intros _ t' [= <-]. split; [split|split]; simpl.
    + intros i q' k _ Hk.
      change (replicate (S (length qs)) (@None Z) !! i = Some (Some k)) in Hk.
      by apply replicate_lookup_eq in Hk.
    + done.
    + intros i st a Hst Ha.
      change (replicate (S (length qs)) (@None Z) !! i = Some a) in Ha.
      apply replicate_lookup_eq in Ha as ->.
      destruct i as [|i]; simpl in Hst.
      * by injection Hst as <-.
      * by apply replicate_lookup_eq in Hst as ->.
    + done.
    + lia.
    + lia.
Qed.

Lemma dispatch_ok e s s' :
  page_inv s → attempt_ok s → dispatch e s = Some s' → attempt_ok s'.
Proof.
  intros H Hok E. apply dispatch_cases in E. destruct e.
  - destruct E as [Hv ->]. by apply startTest_ok.
  - destruct E as (Hv & Hk & ->). intros _ t Ht.
    destruct (Hok Hv t Ht) as [[HA HC HS HV] [HT1 HT2]]. split; [split|split]; try done.
    simpl. by intros k' [= <-].
  - destruct E as (Hv & ->). intros _ t Ht.
    destruct (Hok Hv t Ht) as [[HA HC HS HV] [HT1 HT2]]. split; [split|split]; done.
  - destruct E as (Hv & ->). by apply navigateToQuestion_ok.
  - destruct E as (Hv & ->). by apply navigateToQuestion_ok.
  - destruct E as (Hv & _ & ->). case_decide; [done|]. by apply navigateToQuestion_ok.
  - destruct E as (Hv & ->). by apply markForReview_ok.
  - destruct E as (Hv & ->). intros Hv'. by rewrite handleSubmitTest_view in Hv'.
  - destruct E as (Hv & ->). intros Hv'. discriminate Hv'.
  - destruct E as (Hh & ->). rewrite timerTick_unfold. cbv zeta.
    case_decide as Hle; [intros Hv'; by rewrite handleSubmitTest_view in Hv'|].
    intros Hv t Ht. destruct (Hok Hv t Ht) as [[HA HC HS HV] [HT1 HT2]].
    split; [split|split]; try done; simpl; lia.
Qed.

(** ** The attempt that a submission records *)







Lemma initial_ok history : attempt_ok (initial history).
Proof. intros Hv. discriminate Hv. Qed.

Lemma run_ok es : ∀ s s',
  page_inv s → attempt_ok s → run es s = Some s' → attempt_ok s'.
Proof.
  induction es as [|e es IH]; intros s s' H Hok; simpl.
  - by intros [= <-].
  - destruct (dispatch e s) as [s1|] eqn:E; [|done].
    apply IH; [by eapply dispatch_inv|by eapply dispatch_ok].
Qed.


(** ** What every run records *)






(** X4.  During an attempt the palette agrees with the stored answers: a
    question shown as answered has an answer, a question shown as not
    visited, not answered or marked has none (one shown as marked and
    answered may have either), and the question on the screen is never
    shown as not visited. *)
Theorem palette_agrees_with_answers history es s :
  run es (initial history) = Some s → inAttemptView s = true →
  ∃ t, currentTest s = Some t ∧
       length (questionStatuses s) = length (questions t) ∧
       length (userAnswers s) = length (questions t) ∧
       consistent (questionStatuses s) (userAnswers s) ∧
       questionStatuses s !! currentQuestionIndex s ≠ Some notVisited.
Proof.
  intros Hrun Hv.
  pose proof (run_inv _ _ _ (initial_inv history) Hrun) as H.
  pose proof (run_ok _ _ _ (initial_inv history) (initial_ok history) Hrun) as Hok.
  destruct (proj1 H Hv) as (H1 & _ & _ & t & Ht & Hn).
  destruct (Hok Hv t Ht) as [[_ _ HS HV] _].
  exists t. repeat split; try done; congruence.
Qed.

Lemma palette_witness :
  ∃ t, currentTest (Sample.finalState Sample.markedThenCleared) = Some t ∧
       consistent (questionStatuses (Sample.finalState Sample.markedThenCleared))
                  (userAnswers (Sample.finalState Sample.markedThenCleared)).
Proof.
  destruct (palette_agrees_with_answers [] Sample.markedThenCleared
              (Sample.finalState Sample.markedThenCleared))
    as (t & Ht & _ & _ & HS & _).
  - vm_compute. reflexivity.
  - vm_compute. reflexivity.
  - exists t. by split.
Defined.


(** X8.  [handleSubmitTest] without a loaded test records nothing: it shows
    the error toast and the dashboard and stops the timer. *)
Theorem submit_without_test_is_refused now s :
  currentTest s = None →
  performanceHistory (handleSubmitTest now s) = performanceHistory s ∧
  currentAttemptForReport (handleSubmitTest now s) = currentAttemptForReport s ∧
  currentView (handleSubmitTest now s) = dashboardView ∧
  timerInterval (handleSubmitTest now s) = None ∧
  toasts (handleSubmitTest now s) = ("Error: Test data is missing.", error) :: toasts s.
Proof.
  intros Ht. rewrite (handleSubmitTest_missing _ _ Ht).
  unfold commit, saveCurrentAnswer, addTimeSpent, stopTimer. cbn -[insert alter lookup].
  destruct (checkedOption s) eqn:Hc; cbn -[insert alter lookup]; [|case_match];
    cbn -[insert alter lookup]; done.
Qed.

Lemma submit_without_test_witness :
  toasts (handleSubmitTest 0 (initial [])) = [("Error: Test data is missing.", error)].
Proof.
  pose proof (submit_without_test_is_refused 0 (initial []) eq_refl) as H.
  destruct H as (_ & _ & _ & _ & H). exact H.
Defined.

(** X7.  In every state the page can reach, the submit button finds the test:
    the branch of [handleSubmitTest] for a missing test is never taken.
    The attempt is put in front of the history and shown as the report. *)
Theorem submit_finds_its_test history es s now s' :
  run es (initial history) = Some s → dispatch (Submit now) s = Some s' →
  ∃ a, performanceHistory s' = a :: performanceHistory s ∧
       currentAttemptForReport s' = Some a ∧
       currentTest s = Some (fullTest a) ∧ currentTest s' = None ∧
       currentView s' = performanceReportView ∧
       toasts s' = ("Test submitted successfully!", success) :: toasts s.
Proof.
  intros Hrun E.
  pose proof (run_inv _ _ _ (initial_inv history) Hrun) as H.
  apply dispatch_cases in E as [Hv ->].
  destruct (proj1 H Hv) as (_ & _ & _ & t & Ht & _).
  rewrite (handleSubmitTest_loaded _ _ _ Ht). cbn.
  pose proof (commit_frame now (stopTimer s)) as F. cbv zeta in F.
  destruct F as (_ & _ & _ & _ & _ & _ & F7 & F8 & _).
  exists (buildAttempt t now (commit now (stopTimer s))).
  rewrite F7, F8. by repeat split.
Qed.

Lemma submit_witness :
  ∃ a, performanceHistory (Sample.finalState (Sample.oneRightOneWrong Sample.test2)) = [a] ∧
       currentAttemptForReport (Sample.finalState (Sample.oneRightOneWrong Sample.test2))
       = Some a.
Proof.
  destruct (submit_finds_its_test []
              [StartTest Sample.test2 0; SelectOption 1; SaveNext 10000; SelectOption 0]
              (Sample.finalState
                 [StartTest Sample.test2 0; SelectOption 1; SaveNext 10000; SelectOption 0])
              20000
              (Sample.finalState (Sample.oneRightOneWrong Sample.test2)))
    as (a & H1 & H2 & _).
  - vm_compute. reflexivity.
  - vm_compute. reflexivity.
  - exists a. split; [exact H1|exact H2].
Defined.

(** X9.  Abandoning an attempt records nothing: the history is as it was, no
    test is loaded, no timer is left, the dashboard is shown, and only a
    new test can be started. *)
Theorem abandon_records_nothing history es s s' :
  run es (initial history) = Some s → dispatch Abandon s = Some s' →
  performanceHistory s' = performanceHistory s ∧
  currentTest s' = None ∧ currentView s' = dashboardView ∧
  timerInterval s' = None ∧ intervals s' = [] ∧
  ∀ e s'', dispatch e s' = Some s'' → ∃ t now, e = StartTest t now.
Proof.
  intros Hrun E.
  pose proof (run_inv _ _ _ (initial_inv history) Hrun) as H.
  apply dispatch_cases in E as [Hv ->].
  destruct (stopTimer_timer s (proj1 (proj2 H))) as [S1 S2].
  assert (intervals (abandonTest s) = []) as Hi by exact S2.
  repeat split; try done.
  by apply nothing_but_start_after_submit.
Qed.

Lemma abandon_witness :
  performanceHistory
    (Sample.finalState [StartTest Sample.test2 0; SelectOption 1; Abandon]) = [].
Proof.
  refine (proj1 (abandon_records_nothing []
                   [StartTest Sample.test2 0; SelectOption 1]
                   (Sample.finalState [StartTest Sample.test2 0; SelectOption 1])
                   (Sample.finalState [StartTest Sample.test2 0; SelectOption 1; Abandon])
                   _ _)).
  - vm_compute. reflexivity.
  - vm_compute. reflexivity.
Defined.

End AttemptFacts.

(* ===================================================================== *)
(** * The streak, in any time zone *)
(* ===================================================================== *)

Module StreakBounds.
Import Streak StreakSpec.

Lemma newSet_length dates : ∀ seen, length (newSet seen dates) ≤ length dates.
Proof.
  induction dates as [|d dates IH]; intros seen; simpl; [done|].
  case_decide; simpl.
  - pose proof (IH seen). lia.
  - pose proof (IH (d :: seen)). lia.
Qed.

Lemma newSet_subset dates : ∀ seen x, x ∈ newSet seen dates → x ∈ dates.
Proof.
  induction dates as [|d dates IH]; intros seen x; simpl; [done|].
  case_decide as Hd.
  - intros Hx. apply elem_of_cons. right. by eapply IH.
  - rewrite !elem_of_cons. intros [->|Hx]; [by left|right; by eapply IH].
Qed.

Lemma sortInsert_length tz a l : length (sortInsert tz a l) = S (length l).
Proof. induction l as [|b l IH]; simpl; [done|]. case_decide; simpl; by rewrite ?IH. Qed.

Lemma sort_length tz l : length (sort tz l) = length l.
Proof. induction l as [|a l IH]; simpl; [done|]. by rewrite sortInsert_length, IH. Qed.

Lemma sortInsert_subset tz a l x : x ∈ sortInsert tz a l → x = a ∨ x ∈ l.
Proof.
  induction l as [|b l IH]; simpl.
  - rewrite list_elem_of_singleton. by left.
  - case_decide as Hd.
    + by rewrite elem_of_cons.
    + rewrite !elem_of_cons. intros [->|Hx]; [by right; left|].
      destruct (IH Hx) as [->|?]; [by left|by right; right].
Qed.

Lemma sort_subset tz l x : x ∈ sort tz l → x ∈ l.
Proof.
  induction l as [|a l IH]; simpl; [done|].
  intros Hx. apply sortInsert_subset in Hx as [->|Hx]; apply elem_of_cons; [by left|].
  right. by apply IH.
Qed.

Lemma streakLoop_length tz prev rest : streakLoop tz prev rest ≤ length rest.
Proof.
  revert prev. induction rest as [|curr rest IH]; intros prev; simpl; [done|].
  case_match; [|lia]. pose proof (IH curr). lia.
Qed.

(** X17.  In every time zone, with or without daylight saving: the streak is
    at most the number of attempts, and it is positive only when an
    attempt is dated today or on the date that the clock showed 24 hours
    ago. *)
Theorem streak_needs_a_recent_attempt tz now history :
  calculateStreak tz now history ≤ length history ∧
  (calculateStreak tz now history = 0 ∨
   ∃ h, h ∈ history ∧
        (toDateString tz (completedAt h) = toDateString tz now ∨
         toDateString tz (completedAt h) = toDateString tz (now - 86400000))).
Proof.
  unfold calculateStreak. destruct history as [|h0 hs]; [split; [done|by left]|].
  destruct (uniqueDates tz (h0 :: hs)) as [|d0 rest] eqn:Eu;
    [split; [cbn [length]; lia|by left]|].
  assert (length (d0 :: rest) ≤ length (h0 :: hs)) as Hlen.
  { rewrite <- Eu. unfold uniqueDates. rewrite sort_length.
    etrans; [apply newSet_length|]. by rewrite length_fmap. }
  pose proof (streakLoop_length tz d0 rest) as Hloop. cbn [length] in Hlen |- *.
  cbv zeta. case_decide as Hd; [|split; [lia|by left]].
  split; [lia|]. right.
  assert (d0 ∈ (λ h, toDateString tz (completedAt h)) <$> h0 :: hs) as Hin.
  { apply (newSet_subset _ []), (sort_subset tz).
    change (d0 ∈ uniqueDates tz (h0 :: hs)). rewrite Eu. apply list_elem_of_here. }
  apply list_elem_of_fmap in Hin as (h & -> & Hh). by exists h.
Qed.

End StreakBounds.

(* ===================================================================== *)
(** * The score as a function of the counts *)
(* ===================================================================== *)

Module ScoreOrder.
Import Engine EngineSpec EngineFacts ScoreFacts.

Lemma count_S n : (count (S n) == count n + 1)%Q.
Proof.
  unfold count. rewrite Nat2Z.inj_succ, <- Z.add_1_r, inject_Z_plus. reflexivity.
Qed.

Lemma count_nonneg n : (0 <= count n)%Q.
Proof. unfold count. rewrite <- (Zle_Qle 0). lia. Qed.

Lemma marks_positive t : (0 < totalMaxScore t)%Q → (0 < marksPerQ t)%Q.
Proof.
  unfold totalMaxScore. intros H.
  pose proof (count_nonneg (length (questions t))) as Hn.
  destruct (Qlt_le_dec 0 (marksPerQ t)) as [Hm|Hm]; [done|]. exfalso.
  set (x := count (length (questions t))) in *. set (m := marksPerQ t) in *.
  clearbody x m. nra.
Qed.

Lemma percentage_le a b T :
  (0 < T)%Q → (a <= b)%Q → (a / T * 100 <= b / T * 100)%Q.
Proof.
  intros HT Hab. apply Qmult_le_compat_r; [|lra].
  unfold Qdiv. apply Qmult_le_compat_r; [done|].
  apply Qlt_le_weak, Qinv_lt_0_compat, HT.
Qed.

Lemma rawScore_correct t c i : (rawScore t (S c) i == rawScore t c i + marksPerQ t)%Q.
Proof. unfold rawScore. rewrite count_S. ring. Qed.

Lemma rawScore_incorrect t c i : (rawScore t c (S i) == rawScore t c i - negMark t)%Q.
Proof. unfold rawScore. rewrite count_S. ring. Qed.

(** X10.  The score never goes down with one more correct answer and, for a
    test whose deduction is not negative, never goes up with one more
    incorrect answer; it is a rational, never negative. *)
Theorem score_is_monotone t c i :
  (0 <= negMark t)%Q →
  ∃ q qc qi,
    scorePercentage t c i = JSNum.Fin q ∧
    scorePercentage t (S c) i = JSNum.Fin qc ∧
    scorePercentage t c (S i) = JSNum.Fin qi ∧
    (0 <= qi)%Q ∧ (qi <= q)%Q ∧ (q <= qc)%Q.
Proof.
  intros Hg. destruct (Qlt_le_dec 0 (totalMaxScore t)) as [HT|HT].
  - pose proof (marks_positive t HT) as Hm.
    exists (Qmax 0 (rawScore t c i / totalMaxScore t * 100)),
           (Qmax 0 (rawScore t (S c) i / totalMaxScore t * 100)),
           (Qmax 0 (rawScore t c (S i) / totalMaxScore t * 100)).
    split; [by apply scorePercentage_value|].
    split; [by apply scorePercentage_value|].
    split; [by apply scorePercentage_value|].
    split; [apply Q.le_max_l|]. split.
    + apply Q.max_le_compat_l, percentage_le; [done|]. rewrite rawScore_incorrect. lra.
    + apply Q.max_le_compat_l, percentage_le; [done|]. rewrite rawScore_correct. lra.
  - exists 0%Q, 0%Q, 0%Q.
    assert (¬ (0 < totalMaxScore t)%Q) as Hn by (by apply Qle_not_lt).
    split; [by apply scorePercentage_value|].
    split; [by apply scorePercentage_value|].
    split; [by apply scorePercentage_value|]. repeat split; lra.
Qed.

Lemma score_monotone_witness :
  ∃ q qc qi,
    scorePercentage Sample.test2 0 1 = JSNum.Fin q ∧
    scorePercentage Sample.test2 1 1 = JSNum.Fin qc ∧
    scorePercentage Sample.test2 0 2 = JSNum.Fin qi ∧
    (0 <= qi)%Q ∧ (qi <= q)%Q ∧ (q <= qc)%Q.
Proof.
  apply (score_is_monotone Sample.test2 0 1). vm_compute. discriminate.
Defined.

(** X11.  The score of every attempt a run records, for a test whose deduction
    is not negative, is a percentage between 0 and 100. *)
Theorem recorded_score_is_a_percentage history es new a :
  newAttempts history es new → a ∈ new →
  (0 <= negMark (fullTest a))%Q →
  ∃ q, score a = JSNum.Fin q ∧ (0 <= q <= 100)%Q.
Proof.
  intros Hnew Ha Hg.
  pose proof (new_attempts_recorded _ _ _ Hnew) as Hf.
  rewrite Forall_forall in Hf. specialize (Hf a Ha).
  pose proof (recorded_wellCounted a Hf) as W.
  pose proof (wc_sum a W) as Hsum. pose proof (wc_total a W) as Htot.
  destruct Hf as (t & now & s & -> & Hlen).
  unfold buildAttempt in *. cbn in *.
  set (c := tallyCorrect (tally (userAnswers s) (questions t))) in *.
  set (i := tallyIncorrect (tally (userAnswers s) (questions t))) in *.
  destruct (Qlt_le_dec 0 (totalMaxScore t)) as [HT|HT].
  - pose proof (marks_positive t HT) as Hm.
    exists (Qmax 0 (rawScore t c i / totalMaxScore t * 100)).
    split; [by apply scorePercentage_value|]. split; [apply Q.le_max_l|].
    apply Q.max_lub; [lra|].
    assert (rawScore t c i <= totalMaxScore t)%Q as Hraw.
    { unfold rawScore, totalMaxScore.
      assert (count c <= count (length (questions t)))%Q as Hc
        by (unfold count; rewrite <- Zle_Qle; lia).
      pose proof (count_nonneg i) as Hi.
      set (x := count c) in *. set (y := count i) in *.
      set (n := count (length (questions t))) in *.
      set (m := marksPerQ t) in *. set (g := negMark t) in *.
      clearbody x y n m g. nra. }
    assert (totalMaxScore t / totalMaxScore t * 100 == 100)%Q as HE.
    { field. intros E. rewrite E in HT. by apply Qlt_irrefl in HT. }
    eapply Qle_trans; [apply (percentage_le _ _ _ HT Hraw)|].
    rewrite HE. apply Qle_refl.
  - exists 0%Q. split; [|split; lra].
    apply scorePercentage_value. by apply Qle_not_lt.
Qed.

Lemma recorded_score_percentage_witness :
  ∃ a q, performanceHistory (Sample.finalState (Sample.oneRightOneWrong Sample.test2)) = [a] ∧
         score a = JSNum.Fin q ∧ (0 <= q <= 100)%Q.
Proof.
  pose (s := Sample.finalState (Sample.oneRightOneWrong Sample.test2)).
  destruct (performanceHistory s) as [|a l] eqn:E; [vm_compute in E; discriminate|].
  assert (l = []) as -> by (vm_compute in E; by injection E as _ <-).
  destruct (recorded_score_is_a_percentage [] (Sample.oneRightOneWrong Sample.test2) [a] a)
    as (q & Hq & Hr).
  - exists s. split; [vm_compute; reflexivity|]. rewrite app_nil_r. exact E.
  - apply list_elem_of_here.
  - vm_compute in E. injection E as <-. vm_compute. discriminate.
  - exists a, q. by split.
Defined.

End ScoreOrder.

(* ===================================================================== *)
(** * The dashboard *)
(* ===================================================================== *)

Module DashboardFacts.
Import Engine Dashboard.

Lemma foldl_addAttempt history : ∀ acc,
  foldl addAttempt acc history =
  mkTotals (sumQuestions acc + sum_list (totalQuestions <$> history))
           (sumCorrect acc + sum_list (correctAnswers <$> history))
           (sumTime acc + foldr Z.add 0%Z (timeTaken <$> history)).
Proof.
  induction history as [|a history IH]; intros acc; cbn.
  - destruct acc. cbn. f_equal; lia.
  - rewrite IH. cbn. f_equal; lia.
Qed.

Lemma totals_sums history :
  totals history =
  mkTotals (sum_list (totalQuestions <$> history))
           (sum_list (correctAnswers <$> history))
           (foldr Z.add 0%Z (timeTaken <$> history)).
Proof. unfold totals. by rewrite foldl_addAttempt. Qed.


Lemma sum_time_nonneg history :
  Forall (λ a, (0 ≤ timeTaken a)%Z) history →
  (0 ≤ foldr Z.add 0 (timeTaken <$> history))%Z.
Proof. induction 1; cbn; lia. Qed.





(** X15.  The study time on the dashboard, for a history without negative
    times: hours and minutes are the whole hours and the whole minutes
    of the rest of the sum of the recorded times (the seconds are
    dropped), and the hours are shown from one hour on. *)
Theorem dashboard_study_time tz now history :
  Forall (λ a, (0 ≤ timeTaken a)%Z) history →
  let stats := updateDashboardStats tz now history in
  let total := foldr Z.add 0%Z (timeTaken <$> history) in
  (0 ≤ hours stats)%Z ∧ (0 ≤ minutes stats < 60)%Z ∧
  (hours stats * 3600 + minutes stats * 60 ≤ total
     < hours stats * 3600 + minutes stats * 60 + 60)%Z ∧
  (hoursShown stats = true ↔ (3600 ≤ total)%Z).
Proof.
  intros Hnn. cbv zeta. unfold updateDashboardStats. rewrite totals_sums. cbn.
  pose proof (sum_time_nonneg history Hnn) as Hsum.
  set (total := foldr Z.add 0%Z (timeTaken <$> history)) in *. clearbody total.
  rewrite Z.rem_mod_nonneg by lia.
  pose proof (Z.div_mod total 3600 ltac:(lia)) as H1.
  pose proof (Z.mod_pos_bound total 3600 ltac:(lia)) as H2.
  pose proof (Z.div_mod (total `mod` 3600) 60 ltac:(lia)) as H3.
  pose proof (Z.mod_pos_bound (total `mod` 3600) 60 ltac:(lia)) as H4.
  assert (0 ≤ total `div` 3600)%Z as H5 by (apply Z.div_pos; lia).
  assert (0 ≤ (total `mod` 3600) `div` 60 < 60)%Z as H6.
  { split; [apply Z.div_pos; lia|]. apply Z.div_lt_upper_bound; lia. }
  split; [done|]. split; [done|]. split; [lia|].
  rewrite bool_decide_eq_true. split; intros H.
  - lia.
  - apply Z.div_str_pos. lia.
Qed.

Lemma dashboard_study_time_witness :
  (0 ≤ minutes (updateDashboardStats Sample.IST Sample.morningOf3November
                  Sample.threeDays) < 60)%Z.
Proof.
  pose proof (dashboard_study_time Sample.IST Sample.morningOf3November
                Sample.threeDays) as H.
  cbv zeta in H. destruct H as (_ & H & _).
  - vm_compute. repeat constructor; discriminate.
  - exact H.
Defined.

End DashboardFacts.

(* ===================================================================== *)
(** * Restoring the same backup again *)
(* ===================================================================== *)

Module RestoreAgain.
Import Backup BackupFacts.

Lemma mapSet_app_l k v (l1 l2 : JSMap) :
  k ∈ l1.*1 → mapSet k v (l1 ++ l2) = mapSet k v l1 ++ l2.
Proof.
  induction l1 as [|[k0 v0] l1 IH]; simpl; intros Hin.
  - by apply elem_of_nil in Hin.
  - case_decide as Hk; [done|]. simpl. rewrite IH; [done|].
    apply elem_of_cons in Hin as [Heq|Hin]; [congruence|done].
Qed.

Lemma mapSet_app_r k v (l1 l2 : JSMap) :
  k ∉ l1.*1 → mapSet k v (l1 ++ l2) = l1 ++ mapSet k v l2.
Proof.
  induction l1 as [|[k0 v0] l1 IH]; simpl; intros Hnin; [done|].
  apply not_elem_of_cons in Hnin as [Hne Hnin].
  rewrite decide_False by congruence. by rewrite IH.
Qed.

(** Setting, in their order, the entries of a map that has the keys of
    [m1] in the same places gives that map. *)
Lemma set_same_keys (m1' : JSMap) : ∀ done m1,
  m1.*1 = m1'.*1 → NoDup (done ++ m1).*1 →
  foldl (λ m e, mapSet e.1 e.2 m) (done ++ m1) m1' = done ++ m1'.
Proof.
  induction m1' as [|[k v'] m1' IH]; intros done m1 Hk Hnd.
  - destruct m1; [done|discriminate].
  - destruct m1 as [|[k0 v] m1]; [discriminate|]. simpl in Hk. injection Hk as -> Hk.
    cbn [foldl fst snd].
    assert (k ∉ done.*1) as Hnin.
    { rewrite fmap_app in Hnd. apply NoDup_app in Hnd as (_ & Hd & _).
      intros Hin. apply (Hd k Hin). simpl. apply list_elem_of_here. }
    rewrite mapSet_app_r by done. simpl. rewrite decide_True by done.
    replace (done ++ (k, v') :: m1) with ((done ++ [(k, v')]) ++ m1)
      by (by rewrite <- app_assoc).
    rewrite (IH (done ++ [(k, v')]) m1 Hk).
    + by rewrite <- app_assoc.
    + rewrite <- app_assoc. simpl. rewrite !fmap_app in *. simpl in *. done.
Qed.

(** Setting entries with new, pairwise different keys appends them. *)
Lemma set_new_keys (extra : JSMap) : ∀ m,
  NoDup (m ++ extra).*1 →
  foldl (λ m e, mapSet e.1 e.2 m) m extra = m ++ extra.
Proof.
  induction extra as [|[k v] extra IH]; intros m Hnd; simpl.
  - by rewrite app_nil_r.
  - assert (k ∉ m.*1) as Hnin.
    { rewrite fmap_app in Hnd. apply NoDup_app in Hnd as (_ & Hd & _).
      intros Hin. apply (Hd k Hin). simpl. apply list_elem_of_here. }
    replace (mapSet k v m) with (m ++ [(k, v)]).
    + rewrite IH; rewrite <- app_assoc; done.
    + rewrite <- (app_nil_r m) at 2. by rewrite mapSet_app_r.
Qed.

(** What [set] calls make of a map: the old keys stay where they are,
    new keys follow. *)
Lemma set_extends es : ∀ m : JSMap,
  NoDup m.*1 →
  ∃ m' extra, foldl (λ m e, mapSet e.1 e.2 m) m es = m' ++ extra ∧
              m'.*1 = m.*1 ∧ NoDup (m' ++ extra).*1.
Proof.
  induction es as [|[k v] es IH] using rev_ind; intros m Hnd.
  - exists m, []. by rewrite app_nil_r.
  - rewrite foldl_snoc. destruct (IH m Hnd) as (m' & extra & -> & Hk & Hnd').
    cbn [fst snd]. destruct (decide (k ∈ m'.*1)) as [Hin|Hnin].
    + exists (mapSet k v m'), extra. rewrite mapSet_app_l by done.
      split; [done|]. split.
      * rewrite mapSet_keys, decide_True by done. done.
      * rewrite fmap_app, mapSet_keys, decide_True by done. by rewrite <- fmap_app.
    + exists m', (mapSet k v extra). rewrite mapSet_app_r by done.
      split; [done|]. split; [done|].
      rewrite <- mapSet_app_r by done. by apply mapSet_NoDup.
Qed.

Lemma set_again (m : JSMap) es :
  NoDup m.*1 →
  let M := foldl (λ m e, mapSet e.1 e.2 m) m es in
  foldl (λ m e, mapSet e.1 e.2 m) m M = M.
Proof.
  intros Hnd. cbv zeta. destruct (set_extends es m Hnd) as (m' & extra & -> & Hk & Hnd').
  rewrite foldl_app.
  pose proof (set_same_keys m' [] m (eq_sym Hk)) as H1. simpl in H1.
  rewrite H1 by done. by apply set_new_keys.
Qed.

Lemma entries_of_values (m : JSMap) :
  Forall (λ e : string * Test, id e.2 = e.1) m →
  (λ item, (id item, item)) <$> m.*2 = m.
Proof.
  induction 1 as [|[k v] m Hkv Hf IH]; [done|].
  rewrite !fmap_cons. cbn [fst snd] in *. by rewrite IH, Hkv.
Qed.

Lemma newMap_entries (l : list Test) :
  Forall (λ e : string * Test, id e.2 = e.1) (newMap ((λ item, (id item, item)) <$> l)).
Proof.
  set (es := (λ item, (id item, item)) <$> l).
  apply Forall_forall. intros [k v] Hin. simpl.
  apply (mapGet_elem_of _ _ _ (newMap_NoDup es)) in Hin.
  rewrite newMap_get in Hin. unfold es in Hin. rewrite filter_entries, fmap_last in Hin.
  destruct (last (filter (λ t, id t = k) l)) as [t|] eqn:E; [|done].
  simpl in Hin. injection Hin as <-.
  apply last_Some_elem_of in E. by apply list_elem_of_filter in E as [? _].
Qed.

Lemma newMap_app es1 es2 :
  newMap (es1 ++ es2) = foldl (λ m e, mapSet e.1 e.2 m) (newMap es1) es2.
Proof. unfold newMap. apply foldl_app. Qed.

Lemma uniqueTests_again data currentTests :
  uniqueTests data (uniqueTests data currentTests) = uniqueTests data currentTests.
Proof.
  unfold uniqueTests, values, newTests.
  destruct (dataTests data) as [ts|].
  - set (M := newMap ((λ item, (id item, item)) <$> ts ++ currentTests)).
    assert (M = foldl (λ m e, mapSet e.1 e.2 m)
                  (newMap ((λ item, (id item, item)) <$> ts))
                  ((λ item, (id item, item)) <$> currentTests)) as HM.
    { unfold M. by rewrite fmap_app, newMap_app. }
    assert ((λ item, (id item, item)) <$> ts ++ M.*2
            = ((λ item, (id item, item)) <$> ts) ++ M) as ->.
    { rewrite fmap_app, entries_of_values; [done|]. apply newMap_entries. }
    f_equal. rewrite newMap_app. rewrite HM. apply set_again, newMap_NoDup.
  - set (M := newMap ((λ item, (id item, item)) <$> currentTests)).
    rewrite entries_of_values by apply newMap_entries.
    f_equal. apply (set_again [] ((λ item, (id item, item)) <$> currentTests)).
    constructor.
Qed.

(** X21.  Restoring the same backup a second time leaves the stored tests as
    the first restore made them, and puts the attempts of the backup in
    front of the history once more. *)
Theorem restoring_again_keeps_the_tests data st :
  let once := (restore (Some data) true st).1 in
  let twice := (restore (Some data) true once).1 in
  tests twice = tests once ∧
  performanceHistory twice
  = default [] (dataPerformanceHistory data) ++ performanceHistory once.
Proof.
  cbv zeta. cbn. split; [apply uniqueTests_again|].
  unfold newHistory. by destruct (dataPerformanceHistory data).
Qed.

End RestoreAgain.

(* ===================================================================== *)
(** * The backend: accounts and writes *)
(* ===================================================================== *)

Module ServerWrites.
Import Server ServerSpec AccountSpec ServerFacts.

Lemma filter_owned_insert other uid (l1 l2 : list Item) x y :
  other ≠ uid → ownedBy uid x → ownedBy uid y →
  filter (ownedBy other) (l1 ++ y :: l2) = filter (ownedBy other) (l1 ++ x :: l2).
Proof.
  intros Hne Hx Hy. rewrite !filter_app, !filter_cons.
  rewrite !decide_False; [done| |]; unfold ownedBy in *; congruence.
Qed.

Lemma filter_owned_snoc other uid (l : list Item) y :
  other ≠ uid → ownedBy uid y →
  filter (ownedBy other) (l ++ [y]) = filter (ownedBy other) l.
Proof.
  intros Hne Hy. rewrite filter_app, filter_cons, filter_nil.
  rewrite decide_False; [by rewrite app_nil_r|]. unfold ownedBy in *. congruence.
Qed.

Lemma filter_owned_delete other uid id (l : list Item) :
  other ≠ uid →
  filter (ownedBy other) (filter (λ t, ¬ (itemId t = Some id ∧ ownedBy uid t)) l)
  = filter (ownedBy other) l.
Proof.
  intros Hne. induction l as [|x l IH]; [done|].
  rewrite !filter_cons.
  destruct (decide (¬ (itemId x = Some id ∧ ownedBy uid x))) as [Hx|Hx].
  - rewrite filter_cons. by rewrite IH.
  - apply dec_stable in Hx as [_ Hx].
    rewrite decide_False; [done|]. unfold ownedBy in *. congruence.
Qed.

(** The two cases of [POST /api/tests]. *)
Lemma postTests_cases user body db :
  let uid := tokenId user in
  let test := stamp uid body in
  (¬ hasTest uid body db ∧
   (postTests user body db).2 = mkDB (users db) (tests db ++ [test]) (attempts db)) ∨
  (∃ l1 x l2, tests db = l1 ++ x :: l2 ∧
     Forall (λ t, ¬ (itemId t = itemId body ∧ ownedBy uid t)) l1 ∧
     itemId x = itemId body ∧ ownedBy uid x ∧
     (postTests user body db).2 = mkDB (users db) (l1 ++ test :: l2) (attempts db)).
Proof.
  cbv zeta. unfold postTests. cbn [snd].
  change (itemId (stamp (tokenId user) body)) with (itemId body).
  destruct (findIndex (λ t, itemId t = itemId body ∧ ownedBy (tokenId user) t) (tests db))
    as [i|] eqn:E.
  - right. apply StoreFacts.findIndex_split in E as (l1 & x & l2 & Ht & <- & Hl1 & Hid & Hx).
    exists l1, x, l2. rewrite Ht, StoreFacts.insert_middle. done.
  - left. split; [|done]. apply StoreFacts.findIndex_None in E.
    intros (t & Hin & Hid & Hown). rewrite Forall_forall in E. by apply (E t Hin).
Qed.

Section WithLibraries.
Variable jwt_verify : string → option TokenUser.
Variable jwt_sign : TokenUser → string.
Variable bcrypt_hash : string → string.
Variable bcrypt_compare : string → string → bool.
Variable toLowerCase : string → string.
Variable showNumber : Z → string.

Local Abbreviation serve :=
  (Server.serve jwt_verify jwt_sign bcrypt_hash bcrypt_compare toLowerCase showNumber).
Local Abbreviation authenticatedAs := (ServerSpec.authenticatedAs jwt_verify).
Local Abbreviation findByEmail := (Server.findByEmail toLowerCase).
Local Abbreviation register :=
  (Server.register jwt_sign bcrypt_hash toLowerCase showNumber).
Local Abbreviation login := (Server.login jwt_sign bcrypt_compare toLowerCase).

Lemma authenticated_unique req user user' :
  authenticatedAs req user → authenticatedAs req user' → user = user'.
Proof. intros (t & Ht & Hv) (t' & Ht' & Hv'). congruence. Qed.

(** X29.  No request changes the tests or the attempts of an account other
    than the one of its token: whatever the route and the body, the
    records stored under an id that is not the id in an accepted token
    are after the request what they were before. *)
Theorem writes_touch_only_own_records req now db other :
  (∀ user, authenticatedAs req user → tokenId user ≠ other) →
  view other (serve req now db).2 = view other db.
Proof.
  intros Hother. unfold Server.serve, guarded.
  destruct (authenticateToken jwt_verify req) as [r|user] eqn:Ha.
  - destruct (call req); try done.
    + unfold Server.register. repeat case_match; done.
    + unfold Server.login. repeat case_match; done.
  - assert (other ≠ tokenId user) as Hne.
    { intros ->. apply (Hother user); [|done]. unfold ServerSpec.authenticatedAs.
      unfold authenticateToken in Ha.
      destruct (bearerToken req) as [token|]; [|done].
      destruct (jwt_verify token) as [u|] eqn:Hv; [|done].
      injection Ha as ->. by exists token. }
    destruct (call req); try done.
    + unfold Server.register. repeat case_match; done.
    + unfold Server.login. repeat case_match; done.
    + unfold view.
      destruct (postTests_cases user test db)
        as [[_ ->]|(l1 & x & l2 & Ht & _ & _ & Hx & ->)]; cbn [tests attempts].
      * by rewrite (filter_owned_snoc other (tokenId user)).
      * rewrite Ht. by rewrite (filter_owned_insert other (tokenId user) l1 l2 x).
    + unfold view, deleteTests. cbn [snd tests attempts].
      by rewrite filter_owned_delete.
    + unfold view, postAttempts. cbn [snd tests attempts].
      by rewrite (filter_owned_snoc other (tokenId user)).
    + unfold view, postSync. cbn [snd tests attempts].
      rewrite !pushStamped_view, !decide_False by done.
      by rewrite !app_nil_r, !filter_owned_kept.
Qed.

(** X30.  [POST /api/tests] stores the body with [userId] set to the id in
    the token, its [id] and other fields as they are: in the place of the
    first stored test with the same [id] and that [userId] if there is
    one, every other stored test staying where it is, and at the end of
    the list otherwise.  The stored test is returned and is then among
    the tests of the user, no account or attempt is changed, and the same
    request once more changes nothing. *)
Theorem post_test_is_upsert req now db user body :
  authenticatedAs req user → call req = PostTests body →
  let uid := tokenId user in
  let test := mkItem (itemId body) (Some uid) (itemData body) in
  let own := λ t : Item, itemId t = itemId body ∧ itemUserId t = Some uid in
  let db' := (serve req now db).2 in
  (serve req now db).1 = mkResponse 200 (Saved "Test saved successfully" test) ∧
  test ∈ filter (λ t, itemUserId t = Some uid) (tests db') ∧
  users db' = users db ∧ attempts db' = attempts db ∧
  ((∃ t, t ∈ tests db ∧ own t) →
     ∃ before x after,
       tests db = before ++ x :: after ∧ Forall (λ t, ¬ own t) before ∧ own x ∧
       tests db' = before ++ test :: after) ∧
  ((∀ t, t ∈ tests db → ¬ own t) → tests db' = tests db ++ [test]) ∧
  (serve req now db').2 = db'.
Proof.
  intros Ha Hc. cbv zeta. unfold Server.serve, guarded. rewrite Hc.
  rewrite (authenticate_valid _ req user Ha).
  change (mkItem (itemId body) (Some (tokenId user)) (itemData body))
    with (stamp (tokenId user) body).
  change (λ t : Item, itemUserId t = Some (tokenId user)) with (ownedBy (tokenId user)).
  split; [done|].
  destruct (postTests_cases user body db)
    as [[Hnew Hdb]|(l1 & x & l2 & Ht & Hl1 & Hid & Hx & Hdb)]; cbv zeta in Hdb;
    rewrite Hdb; cbn [users tests attempts].
  - split; [|split; [done|split; [done|split; [|split; [done|]]]]].
    + apply list_elem_of_filter. split; [done|]. apply elem_of_app. right.
      apply list_elem_of_here.
    + intros (t & Hin & Hid & Hown). exfalso. apply Hnew. by exists t.
    + destruct (postTests_cases user body
                  (mkDB (users db) (tests db ++ [stamp (tokenId user) body]) (attempts db)))
        as [[Hnew' _]|(l1 & x & l2 & Ht & Hl1 & Hid & Hx & ->)]; cbn [users tests attempts] in *.
      * exfalso. apply Hnew'. exists (stamp (tokenId user) body).
        split; [|done]. apply elem_of_app. right. apply list_elem_of_here.
      * f_equal. destruct (decide (length l1 = length (tests db))) as [Hlen|Hlen].
        -- apply app_inj_1 in Ht as [<- Ht]; [|done]. by injection Ht as <- <-.
        -- exfalso. apply Hnew. exists x. split; [|done].
           assert (length l1 < length (tests db)) as Hlt.
           { apply (f_equal length) in Ht. rewrite !length_app in Ht. simpl in Ht. lia. }
           apply (f_equal (λ l, l !! length l1)) in Ht.
           rewrite lookup_app_l in Ht by done.
           rewrite list_lookup_middle in Ht by done.
           by apply list_elem_of_lookup_2 in Ht.
  - split; [|split; [done|split; [done|split; [|split]]]].
    + apply list_elem_of_filter. split; [done|]. apply elem_of_app. right.
      apply list_elem_of_here.
    + intros _. by exists l1, x, l2.
    + intros Hnew. exfalso. apply (Hnew x); [|done].
      rewrite Ht. apply elem_of_app. right. apply list_elem_of_here.
    + destruct (postTests_cases user body
                  (mkDB (users db) (l1 ++ stamp (tokenId user) body :: l2) (attempts db)))
        as [[Hnew' _]|(l1' & x' & l2' & Ht' & Hl1' & Hid' & Hx' & ->)];
        cbn [users tests attempts] in *.
      * exfalso. apply Hnew'. exists (stamp (tokenId user) body).
        split; [|done]. apply elem_of_app. right. apply list_elem_of_here.
      * f_equal. symmetry.
        assert (length l1' = length l1) as Hlen.
        { destruct (Nat.lt_trichotomy (length l1') (length l1)) as [Hlt|[Heq|Hgt]];
            [|done|]; exfalso.
          - apply (f_equal (λ l, l !! length l1')) in Ht'.
            rewrite lookup_app_l in Ht' by done.
            rewrite list_lookup_middle in Ht' by done.
            apply list_elem_of_lookup_2 in Ht'.
            rewrite Forall_forall in Hl1. by apply (Hl1 x' Ht').
          - apply (f_equal (λ l, l !! length l1)) in Ht'.
            rewrite list_lookup_middle in Ht' by done.
            rewrite lookup_app_l in Ht' by done.
            symmetry in Ht'. apply list_elem_of_lookup_2 in Ht'.
            rewrite Forall_forall in Hl1'. by apply (Hl1' _ Ht'). }
        apply app_inj_1 in Ht' as [-> Ht']; [|done]. by injection Ht' as _ ->.
Qed.

Hypothesis compare_hash : ∀ password, bcrypt_compare password (bcrypt_hash password) = true.
Hypothesis toLowerCase_idempotent : ∀ s, toLowerCase (toLowerCase s) = toLowerCase s.

Lemma findByEmail_None email db :
  findByEmail email db = None ↔
  toLowerCase email ∉ (λ u, toLowerCase (userEmail u)) <$> users db.
Proof.
  unfold Server.findByEmail. induction (users db) as [|u us IH]; simpl.
  - split; [intros _; apply not_elem_of_nil|done].
  - rewrite not_elem_of_cons. case_bool_decide as Hd.
    + split; [done|]. intros [Hne _]. congruence.
    + rewrite IH. split; [intros H; split; [congruence|done]|by intros [_ H]].
Qed.

Lemma find_snoc_new {A} (f : A → bool) l x :
  List.find f l = None → f x = true → List.find f (l ++ [x]) = Some x.
Proof.
  induction l as [|y l IH]; simpl; intros Hn Hx; [by rewrite Hx|].
  destruct (f y); [done|]. by apply IH.
Qed.

(** What a registration that is answered 201 did. *)
Lemma register_created name email password now db resp db' :
  register name email password now db = (resp, db') → status resp = 201 →
  ∃ n e p,
    name = Some n ∧ email = Some e ∧ password = Some p ∧
    e ≠ EmptyString ∧ p ≠ EmptyString ∧ findByEmail e db = None ∧
    let user := mkUser ("user_" +:+ showNumber now) n (toLowerCase e) (bcrypt_hash p) now in
    resp = mkResponse 201 (Session "Account created successfully"
                             (jwt_sign (sessionOf user)) (sessionOf user)) ∧
    db' = mkDB (users db ++ [user]) (tests db) (attempts db).
Proof.
  unfold Server.register. intros Hreg Hs.
  destruct name as [n|], email as [e|], password as [p|];
    try (injection Hreg as <- <-; discriminate Hs).
  destruct (falsy (Some n) || falsy (Some e) || falsy (Some p)) eqn:Hf;
    [injection Hreg as <- <-; discriminate Hs|].
  case_decide; [injection Hreg as <- <-; discriminate Hs|].
  destruct (findByEmail e db) eqn:Hfind; [injection Hreg as <- <-; discriminate Hs|].
  injection Hreg as <- <-. exists n, e, p.
  apply orb_false_iff in Hf as [Hf Hp]. apply orb_false_iff in Hf as [_ He].
  simpl in He, Hp. apply bool_decide_eq_false in He, Hp. done.
Qed.

(** X27.  Round trip of register and login: after a registration answered 201,
    a login with the registered password and the email in any spelling
    with the same lower case is answered 200 with a session of the same
    user, and changes nothing. *)
Theorem registered_account_can_log_in auth name email password now db resp db' :
  serve (mkRequest auth (PostRegister name email password)) now db = (resp, db') →
  status resp = 201 →
  ∃ e p user token,
    email = Some e ∧ password = Some p ∧
    payload resp = Session "Account created successfully" token user ∧
    tokenEmail user = toLowerCase e ∧
    ∀ auth' typed now',
      typed ≠ EmptyString → toLowerCase typed = toLowerCase e →
      serve (mkRequest auth' (PostLogin (Some typed) (Some p))) now' db'
      = (mkResponse 200 (Session "Login successful" token user), db').
Proof.
  unfold Server.serve. cbn [call]. intros Hreg Hs.
  destruct (register_created _ _ _ _ _ _ _ Hreg Hs)
    as (n & e & p & -> & -> & -> & He & Hp & Hnone & Hresp & Hdb).
  cbv zeta in Hresp, Hdb. subst resp db'.
  eexists e, p, _, _. split; [done|]. split; [done|]. split; [done|]. split; [done|].
  intros auth' typed now' Htyped Hlow. unfold Server.login.
  assert (falsy (Some typed) || falsy (Some p) = false) as ->.
  { simpl. by rewrite !bool_decide_false. }
  unfold Server.findByEmail. cbn [users].
  rewrite (find_snoc_new _ _
             (mkUser ("user_" +:+ showNumber now) n (toLowerCase e) (bcrypt_hash p) now)).
  - cbn [userPassword]. by rewrite compare_hash.
  - apply findByEmail_None in Hnone. apply (findByEmail_None typed). by rewrite Hlow.
  - cbn [userEmail]. rewrite toLowerCase_idempotent. by apply bool_decide_eq_true.
Qed.

(** X28.  Every request keeps the emails of the accounts distinct up to letter
    case. *)
Theorem emails_stay_distinct req now db :
  distinctEmails toLowerCase db → distinctEmails toLowerCase (serve req now db).2.
Proof.
  intros Hd. unfold Server.serve, guarded.
  destruct (call req) as [rn re rp|le lp| | |t|i| |a| |ts als] eqn:Hc;
    try (by destruct (authenticateToken jwt_verify req)).
  - destruct (register rn re rp now db) as [resp db'] eqn:Hreg. cbn [snd].
    destruct (decide (status resp = 201)) as [Hs|Hs].
    + destruct (register_created _ _ _ _ _ _ _ Hreg Hs)
        as (n & e & p & _ & _ & _ & _ & _ & Hnone & _ & ->).
      unfold distinctEmails in *. cbn [users]. rewrite fmap_app. apply NoDup_app.
      split; [done|]. split; [|apply NoDup_singleton].
      intros x Hx Hnew. simpl in Hnew. apply list_elem_of_singleton in Hnew. subst x.
      rewrite toLowerCase_idempotent in Hx. by apply findByEmail_None in Hnone.
    + assert (db' = db) as ->; [|done].
      revert Hreg Hs. unfold Server.register.
      repeat case_match; intros [= <- <-]; done.
  - unfold Server.login. by repeat case_match.
Qed.

End WithLibraries.

Local Abbreviation sampleServe :=
  (Server.serve Sample.verifyToken Sample.signToken (λ p, p) String.eqb Sample.asciiLower
     (λ n : Z, pretty n)).

Lemma ashas_token :
  ∀ c, ServerSpec.authenticatedAs Sample.verifyToken
         (Sample.withToken "token-of-asha" c) Sample.asha.
Proof. intros c. exists "token-of-asha". split; reflexivity. Qed.

Lemma writes_witness :
  view "user_1700000000555"
    (sampleServe (Sample.withToken "token-of-asha" (DeleteTests "test_1")) 0%Z
       Sample.database).2
  = ([Sample.bilalsTest], [Sample.bilalsAttempt]).
Proof.
  rewrite (writes_touch_only_own_records Sample.verifyToken Sample.signToken (λ p, p)
             String.eqb Sample.asciiLower (λ n : Z, pretty n)).
  - reflexivity.
  - intros user Hu.
    rewrite <- (authenticated_unique _ _ _ _ (ashas_token _) Hu). discriminate.
Defined.

Lemma post_test_witness :
  Server.tests
    (sampleServe (Sample.withToken "token-of-asha" (PostTests Sample.bilalsTest)) 0%Z
       Sample.database).2
  = [mkItem (Some "test_1") (Some "user_1700000000000") "{name: Rivers}";
     Sample.bilalsTest].
Proof.
  destruct (post_test_is_upsert Sample.verifyToken Sample.signToken (λ p, p)
              String.eqb Sample.asciiLower (λ n : Z, pretty n)
              _ 0%Z Sample.database Sample.asha Sample.bilalsTest
              (ashas_token _) eq_refl) as (_ & _ & _ & _ & Hupdate & _).
  cbv zeta in Hupdate.
  destruct Hupdate as (before & x & after & Ht & Hbefore & _ & Hdb).
  - exists Sample.ashasTest. split; [apply list_elem_of_here|]. by split.
  - rewrite Hdb. destruct before as [|y before].
    + simpl in Ht. injection Ht as _ <-. reflexivity.
    + exfalso. simpl in Ht. injection Ht as <- _.
      apply Forall_cons in Hbefore as [Hy _]. apply Hy. by split.
Defined.

Lemma eqb_hash password : String.eqb password password = true.
Proof. apply String.eqb_refl. Qed.

Lemma registered_account_witness :
  ∃ token user,
    sampleServe (mkRequest None (PostLogin (Some "ASHA@example.org") (Some "secret1")))
      5%Z
      (sampleServe (mkRequest None (PostRegister (Some "Asha") (Some "Asha@Example.org")
                                      (Some "secret1"))) 0%Z Sample.database).2
    = (mkResponse 200 (Session "Login successful" token user),
       (sampleServe (mkRequest None (PostRegister (Some "Asha") (Some "Asha@Example.org")
                                       (Some "secret1"))) 0%Z Sample.database).2).
Proof.
  destruct (sampleServe (mkRequest None (PostRegister (Some "Asha") (Some "Asha@Example.org")
                                           (Some "secret1"))) 0%Z Sample.database)
    as [resp db'] eqn:E.
  destruct (registered_account_can_log_in Sample.verifyToken Sample.signToken (λ p, p)
              String.eqb Sample.asciiLower (λ n : Z, pretty n)
              eqb_hash LocalAuthFacts.asciiLower_idempotent
              None (Some "Asha") (Some "Asha@Example.org") (Some "secret1")
              0%Z Sample.database resp db' E)
    as (e & p & user & token & [= <-] & [= <-] & _ & _ & Hlogin).
  - vm_compute in E. by injection E as <- _.
  - exists token, user. apply Hlogin; [discriminate|]. vm_compute. reflexivity.
Defined.

Lemma emails_distinct_witness :
  distinctEmails Sample.asciiLower
    (sampleServe (mkRequest None (PostRegister (Some "Asha") (Some "Asha@Example.org")
                                    (Some "secret1"))) 0%Z Sample.database).2.
Proof.
  apply (emails_stay_distinct Sample.verifyToken Sample.signToken (λ p, p)
           String.eqb Sample.asciiLower (λ n : Z, pretty n)
           LocalAuthFacts.asciiLower_idempotent).
  vm_compute. constructor.
Defined.

End ServerWrites.

(* ===================================================================== *)
(** * Navigation and the streak on the sample data *)
(* ===================================================================== *)

Module Examples.
Import Engine.


(** The same state in the older build, save-and-next on the last
    question: the stopwatch is reset although the index stays. *)
Lemma legacy_navigation_witness :
  questionStartTime
    (Legacy.navigateToQuestion 2 20000
       (Sample.finalState [StartTest Sample.test2 0; SaveNext 10000])) = 20000%Z.
Proof.
  apply (EngineFacts.legacy_navigateToQuestion_resets 2 20000 _ Sample.test2).
  vm_compute. reflexivity.
Defined.

End Examples.
